(** * Shoe collection analyzer: a shallow embedding of [shoe_agg.py]

    The first half of the file is the model, in the order of the source:

    - [Py]: the Python built-ins the program calls on text and numbers
      ([str.strip], [str.capitalize], [str.split], [str.startswith],
      [int], [float], [file.readlines]), and the printing of numbers;
    - the effect monad [M]: a world (terminal flag, standard input, file
      system, standard output, rendering and file effects) threaded
      through computations that may raise a Python exception;
    - the two collectors [read_shoe_data_from_file] and [get_shoe_data];
    - the table side: [create_dataframe], the brand by usage cross
      tabulation of [analyze_shoes], [to_csv], modelled after pandas;
    - [create_template_file], [analyze_shoes] and [main];
    - the vocabulary of the statements.

    The second half holds the proofs: the file collector row by row, the
    interactive collector through weakest preconditions, the cross
    tabulation, the printing and reading of floats, the CSV export read
    back, the template, and the runs of [main] with the ways they can
    end.

    Text is modelled as strings of 7-bit ASCII characters carried in
    [ascii]; code points from 128 on are outside the model (they are
    treated as caseless, non-blank letters).  A float is modelled by the
    exact decimal value its literal denotes; CPython rounds that value to
    the nearest binary64, which the model leaves out (the two agree on
    equality for literals of at most 15 significant digits within the
    binary64 range).  [int] follows CPython 3.11: a literal of more than
    4300 digits is rejected.

    Two things the program meets come from outside its text and are
    fields of the world: the room the interpreter's recursion limit
    leaves for the nested calls of [get_shoe_data], and what the plotting
    libraries raise while [analyze_shoes] draws a frame.  The order of
    equal totals in the cross tabulation is that of a stable sort; pandas
    asks numpy for its default sort, which need not keep it when more
    than sixteen brands are ranked. *)

From Stdlib Require Import List String Ascii Bool Arith ZArith NArith.
From Stdlib Require Import Lia Permutation Sorted OrdersEx RelationClasses.
Import ListNotations.

Open Scope string_scope.
Open Scope bool_scope.
Open Scope nat_scope.

(* ================================================================== *)
(** * Python built-ins *)
(* ================================================================== *)

Module Py.

Definition LF : ascii := "010"%char.
Definition CR : ascii := "013"%char.

(** [str.isspace] on one character, below code point 128: tab, line feed,
    vertical tab, form feed, carriage return, the four separators
    0x1c..0x1f and the space. *)
Definition isspace (c : ascii) : bool :=
  let n := nat_of_ascii c in
  ((9 <=? n) && (n <=? 13)) || ((28 <=? n) && (n <=? 32)).

Definition isupper (c : ascii) : bool :=
  let n := nat_of_ascii c in (65 <=? n) && (n <=? 90).

Definition islower (c : ascii) : bool :=
  let n := nat_of_ascii c in (97 <=? n) && (n <=? 122).

Definition isdigit (c : ascii) : bool :=
  let n := nat_of_ascii c in (48 <=? n) && (n <=? 57).

Definition to_upper (c : ascii) : ascii :=
  if islower c then ascii_of_nat (nat_of_ascii c - 32) else c.

Definition to_lower (c : ascii) : ascii :=
  if isupper c then ascii_of_nat (nat_of_ascii c + 32) else c.

(** [str.lower]. *)
Fixpoint lower (s : string) : string :=
  match s with
  | EmptyString => EmptyString
  | String c s' => String (to_lower c) (lower s')
  end.

(** [str.capitalize]: the first character in upper case, all the others
    in lower case. *)
Definition capitalize (s : string) : string :=
  match s with
  | EmptyString => EmptyString
  | String c s' => String (to_upper c) (lower s')
  end.

Fixpoint lstrip (s : string) : string :=
  match s with
  | EmptyString => EmptyString
  | String c s' => if isspace c then lstrip s' else s
  end.

Fixpoint rstrip (s : string) : string :=
  match s with
  | EmptyString => EmptyString
  | String c s' =>
      match rstrip s' with
      | EmptyString => if isspace c then EmptyString else String c EmptyString
      | r => String c r
      end
  end.

(** [str.strip()] without argument: blanks removed at both ends. *)
Definition strip (s : string) : string := rstrip (lstrip s).

(** [s.startswith(p)]. *)
Definition startswith (p s : string) : bool := String.prefix p s.

(** [s.split(sep)] for a one-character separator: never an empty list,
    one part more than there are separators. *)
Fixpoint split (sep : ascii) (s : string) : list string :=
  match s with
  | EmptyString => [EmptyString]
  | String c s' =>
      if Ascii.eqb c sep then EmptyString :: split sep s'
      else match split sep s' with
           | p :: ps => String c p :: ps
           | [] => [String c EmptyString]
           end
  end.

(** [sep.join(parts)]. *)
Definition join (sep : string) (parts : list string) : string :=
  String.concat sep parts.

(** Text mode reading translates ["\r\n"] and a lone ["\r"] to ["\n"]. *)
Fixpoint universal_newlines (s : string) : string :=
  match s with
  | EmptyString => EmptyString
  | String c s' =>
      if Ascii.eqb c CR then
        String LF
          match s' with
          | EmptyString => EmptyString
          | String d s'' =>
              if Ascii.eqb d LF then universal_newlines s''
              else universal_newlines s'
          end
      else String c (universal_newlines s')
  end.

(** [file.readlines()] on translated text: the lines, each with its line
    feed, the last one possibly without. *)
Fixpoint readlines (s : string) : list string :=
  match s with
  | EmptyString => []
  | String c s' =>
      if Ascii.eqb c LF then String c EmptyString :: readlines s'
      else match readlines s' with
           | l :: ls => String c l :: ls
           | [] => [String c EmptyString]
           end
  end.

(** ** Numbers *)

(** A float.  A finite one is the decimal [m * 10^e] its literal
    denotes, with [m] free of trailing zeros ([0 * 10^0] for zero); the
    sign is kept apart so that [-0.0] differs from [0.0], as its printed
    form does. *)
Inductive pyfloat : Type :=
| FNaN
| FInf (neg : bool)
| FFin (neg : bool) (m : N) (e : Z).

(** What a [size] entry holds: the int [0] of the default branch or the
    float that [float] returned. *)
Inductive pynum : Type :=
| PInt (z : Z)
| PFloat (f : pyfloat).

Definition digit_val (c : ascii) : N := (N_of_ascii c - 48)%N.

(** The rest of a [digitpart] after its first digit: digits, each
    possibly preceded by one underscore.  Returns the value accumulated,
    the number of digits read and the unread text. *)
Fixpoint digits_more (acc : N) (cnt : nat) (s : string) : N * nat * string :=
  match s with
  | EmptyString => (acc, cnt, s)
  | String c s' =>
      if isdigit c then digits_more (acc * 10 + digit_val c)%N (S cnt) s'
      else if Ascii.eqb c "_" then
        match s' with
        | EmptyString => (acc, cnt, s)
        | String d s'' =>
            if isdigit d
            then digits_more (acc * 10 + digit_val d)%N (S cnt) s''
            else (acc, cnt, s)
        end
      else (acc, cnt, s)
  end.

(** [digitpart ::= digit (["_"] digit)*], continuing the value [acc]. *)
Definition digitpart (acc : N) (s : string) : option (N * nat * string) :=
  match s with
  | EmptyString => None
  | String c s' =>
      if isdigit c then Some (digits_more (acc * 10 + digit_val c)%N 1 s')
      else None
  end.

Definition parse_sign (s : string) : bool * string :=
  match s with
  | String c s' =>
      if Ascii.eqb c "-" then (true, s')
      else if Ascii.eqb c "+" then (false, s')
      else (false, s)
  | EmptyString => (false, s)
  end.

(** [sys.get_int_max_str_digits()]: the digits [int] accepts in a
    decimal literal. *)
Definition int_max_str_digits : nat := 4300.

(** [int(s)] in base 10: blanks around, an optional sign, a digitpart
    of at most [int_max_str_digits] digits. *)
Definition int_of_string (s : string) : option Z :=
  let (neg, body) := parse_sign (strip s) in
  match digitpart 0 body with
  | Some (n, cnt, EmptyString) =>
      if int_max_str_digits <? cnt then None
      else Some (if neg then (- Z.of_N n)%Z else Z.of_N n)
  | _ => None
  end.

(** Trailing zeros of the mantissa move into the exponent. *)
Fixpoint strip_zeros (fuel : nat) (m : N) (e : Z) : N * Z :=
  match fuel with
  | 0 => (m, e)
  | S fuel' =>
      if (m mod 10 =? 0)%N then strip_zeros fuel' (m / 10)%N (e + 1)%Z
      else (m, e)
  end.

(** The float of value [m * 10^e]. *)
Definition decimal (neg : bool) (m : N) (e : Z) : pyfloat :=
  if (m =? 0)%N then FFin neg 0 0
  else let (m', e') := strip_zeros (N.to_nat (N.log2 m)) m e in
       FFin neg m' e'.

(** The optional exponent of a float literal, after a mantissa [m] with
    [k] digits behind the point. *)
Definition float_exponent (neg : bool) (m : N) (k : nat) (s : string)
  : option pyfloat :=
  match s with
  | EmptyString => Some (decimal neg m (- Z.of_nat k))
  | String c s' =>
      if Ascii.eqb c "e" || Ascii.eqb c "E" then
        let (eneg, body) := parse_sign s' in
        match digitpart 0 body with
        | Some (x, _, EmptyString) =>
            let ex := if eneg then (- Z.of_N x)%Z else Z.of_N x in
            Some (decimal neg m (ex - Z.of_nat k))
        | _ => None
        end
      else None
  end.

(** The number of a float literal, after the sign:
    [([digitpart] "." digitpart | digitpart ["."]) [exponent]]. *)
Definition float_number (neg : bool) (body : string) : option pyfloat :=
  match digitpart 0 body with
  | Some (ip, _, r1) =>
      match r1 with
      | String c r2 =>
          if Ascii.eqb c "." then
            match digitpart ip r2 with
            | Some (m, k, r3) => float_exponent neg m k r3
            | None => float_exponent neg ip 0 r2
            end
          else float_exponent neg ip 0 r1
      | EmptyString => float_exponent neg ip 0 r1
      end
  | None =>
      match body with
      | String c r2 =>
          if Ascii.eqb c "." then
            match digitpart 0 r2 with
            | Some (m, k, r3) => float_exponent neg m k r3
            | None => None
            end
          else None
      | EmptyString => None
      end
  end.

(** [float(s)]: blanks around, an optional sign, then [inf], [infinity]
    or [nan] in any case, or a number. *)
Definition float_of_string (s : string) : option pyfloat :=
  let (neg, body) := parse_sign (strip s) in
  let low := lower body in
  if String.eqb low "inf" || String.eqb low "infinity" then Some (FInf neg)
  else if String.eqb low "nan" then Some FNaN
  else float_number neg body.

End Py.

Import Py.

(* ================================================================== *)
(** * Printing numbers *)
(* ================================================================== *)

Fixpoint digits_of (fuel : nat) (n : N) (acc : string) : string :=
  match fuel with
  | 0 => acc
  | S fuel' =>
      let acc' := String (ascii_of_N (48 + n mod 10)) acc in
      if (n <? 10)%N then acc' else digits_of fuel' (n / 10)%N acc'
  end.

(** [str(n)] for a natural number. *)
Definition str_N (n : N) : string :=
  digits_of (S (N.to_nat (N.log2 n))) n EmptyString.

(** [str(z)] for an int. *)
Definition str_Z (z : Z) : string :=
  if (z <? 0)%Z then "-" ++ str_N (Z.abs_N z) else str_N (Z.abs_N z).

Definition zeros (k : nat) : string := string_of_list_ascii (repeat "0"%char k).

(** [repr(f)] of a float, shortest digits: positional when the decimal
    point falls within [-4 < decpt <= 16], scientific otherwise. *)
Definition float_repr (f : pyfloat) : string :=
  match f with
  | FNaN => "nan"
  | FInf neg => if neg then "-inf" else "inf"
  | FFin neg m e =>
      let sign := if neg then "-" else "" in
      if (m =? 0)%N then sign ++ "0.0"
      else
        let ds := str_N m in
        let n := Z.of_nat (String.length ds) in
        let decpt := (n + e)%Z in
        if ((-4 <? decpt) && (decpt <=? 16))%Z then
          if (decpt <=? 0)%Z then
            sign ++ "0." ++ zeros (Z.to_nat (- decpt)) ++ ds
          else if (n <=? decpt)%Z then
            sign ++ ds ++ zeros (Z.to_nat (decpt - n)) ++ ".0"
          else
            sign ++ substring 0 (Z.to_nat decpt) ds ++ "."
                 ++ substring (Z.to_nat decpt) (Z.to_nat (n - decpt)) ds
        else
          let x := (decpt - 1)%Z in
          let xs := str_N (Z.abs_N x) in
          sign ++ substring 0 1 ds
               ++ (if (1 <? n)%Z
                   then "." ++ substring 1 (Z.to_nat (n - 1)) ds else "")
               ++ "e" ++ (if (x <? 0)%Z then "-" else "+")
               ++ (if (Z.abs x <? 10)%Z then "0" ++ xs else xs)
  end.

(* ================================================================== *)
(** * Worlds, exceptions and the effect monad *)
(* ================================================================== *)

(** The exceptions the program can meet; all of them derive from
    [Exception].  [OtherError] is an exception of any other class, by
    the name of its class: the plotting libraries raise such. *)
Inductive exn : Type :=
| ValueError (msg : string)
| EOFError
| TypeError (msg : string)
| FileNotFoundError (msg : string)
| OSError (msg : string)
| RecursionError
| OtherError (kind msg : string).

(** [str(e)], as interpolated by the handler of the file collector. *)
Definition exn_message (e : exn) : string :=
  match e with
  | ValueError m | TypeError m | FileNotFoundError m | OSError m => m
  | OtherError _ m => m
  | EOFError => "EOF when reading a line"
  | RecursionError => "maximum recursion depth exceeded"
  end.

(** What [open(filename, 'r')] followed by [readlines()] finds at a
    path: nothing, something that cannot be opened or decoded, or text. *)
Inductive file : Type :=
| Missing
| Unreadable (why : string)
| Text (content : string).

(** One shoe: the dict with five keys that the collectors append. *)
Record shoe : Type := mkShoe {
  brand : string;
  name : string;
  color : string;
  usage : string;
  size : pynum
}.

(** A figure built by [analyze_shoes]: the charts figure carries the
    brand by usage table it plots, the table figure the rows it lists. *)
Inductive figure : Type :=
| ChartsFig (brand_usage : list (string * list nat))
| TableFig (rows : list shoe).

(** Effects other than printing, in the order they happen. *)
Inductive effect : Type :=
| Rendered (f : figure)
| Shown
| WroteFile (path : string)
| RemovedFile (path : string)
| SavedFigure (path : string) (f : figure).

(** The world of a run.  [stack] is the room the interpreter's
    recursion limit leaves when [main] calls [get_shoe_data]: the number
    of nested calls of it that can still run (994 for CPython 3.11 with
    its default limit of 1000, [main] called from the script and the
    input typed on a terminal).  [plot_error] is what matplotlib and
    seaborn raise when the figures of a frame are drawn, [None] when
    they draw it. *)
Record world : Type := mkWorld {
  isatty : bool;                 (* sys.stdin.isatty() *)
  stdin : list string;           (* the lines still to be read *)
  fs : string -> file;           (* the file system *)
  writable : string -> bool;     (* the paths that can be written *)
  stack : nat;                   (* nested calls still allowed *)
  plot_error : list shoe -> option exn;   (* failures of the drawing *)
  stdout : list string;          (* what was printed, oldest first *)
  effects : list effect
}.

(** How a computation ends.  [Timeout] is the model running out of fuel
    in a loop; it is not a Python exception and no handler sees it. *)
Inductive outcome (A : Type) : Type :=
| Ret (a : A)
| Raise (e : exn)
| Timeout.

Arguments Ret {A} a.
Arguments Raise {A} e.
Arguments Timeout {A}.

Definition M (A : Type) : Type := world -> outcome A * world.

Definition ret {A} (a : A) : M A := fun w => (Ret a, w).

Definition raise {A} (e : exn) : M A := fun w => (Raise e, w).

Definition bind {A B} (m : M A) (k : A -> M B) : M B :=
  fun w =>
    match m w with
    | (Ret a, w') => k a w'
    | (Raise e, w') => (Raise e, w')
    | (Timeout, w') => (Timeout, w')
    end.

Declare Scope py_scope.
Delimit Scope py_scope with py.
Notation "x <- m ;; k" := (bind m (fun x => k))
  (at level 61, m at next level, right associativity) : py_scope.
Notation "m ;; k" := (bind m (fun _ => k))
  (at level 61, right associativity) : py_scope.
Open Scope py_scope.

(** [try: m except ...: h]: the handler answers [None] for the
    exceptions its clauses do not match. *)
Definition try_except {A} (m : M A) (h : exn -> option (M A)) : M A :=
  fun w =>
    match m w with
    | (Raise e, w') =>
        match h e with
        | Some k => k w'
        | None => (Raise e, w')
        end
    | r => r
    end.

Definition set_stdin (l : list string) (w : world) : world :=
  mkWorld (isatty w) l (fs w) (writable w) (stack w) (plot_error w)
          (stdout w) (effects w).

Definition add_stdout (s : string) (w : world) : world :=
  mkWorld (isatty w) (stdin w) (fs w) (writable w) (stack w) (plot_error w)
          (stdout w ++ [s]) (effects w).

Definition add_effect (e : effect) (w : world) : world :=
  mkWorld (isatty w) (stdin w) (fs w) (writable w) (stack w) (plot_error w)
          (stdout w) (effects w ++ [e]).

Definition set_file (path : string) (f : file) (w : world) : world :=
  mkWorld (isatty w) (stdin w)
          (fun p => if String.eqb p path then f else fs w p)
          (writable w) (stack w) (plot_error w) (stdout w) (effects w).

(** [print(s)]. *)
Definition print (s : string) : M unit :=
  fun w => (Ret tt, add_stdout s w).

(** [input(prompt)]: the prompt goes to the output, one line is taken
    from the input, [EOFError] when there is none. *)
Definition input (prompt : string) : M string :=
  fun w =>
    match stdin w with
    | [] => (Raise EOFError, add_stdout prompt w)
    | l :: rest => (Ret l, set_stdin rest (add_stdout prompt w))
    end.

Definition do_effect (e : effect) : M unit :=
  fun w => (Ret tt, add_effect e w).

(** [for x in l: s = body x s]. *)
Fixpoint for_list {A S} (l : list A) (body : A -> S -> M S) (s : S) : M S :=
  match l with
  | [] => ret s
  | x :: l' => s' <- body x s ;; for_list l' body s'
  end.

(** [int(s)] and [float(s)] raise [ValueError] on text they reject. *)
Definition py_int (s : string) : M Z :=
  match int_of_string s with
  | Some z => ret z
  | None => raise (ValueError ("invalid literal for int() with base 10: '" ++ s ++ "'"))
  end.

Definition py_float (s : string) : M pyfloat :=
  match float_of_string s with
  | Some f => ret f
  | None => raise (ValueError ("could not convert string to float: '" ++ s ++ "'"))
  end.

(** [open(filename, 'r')] and [readlines()]. *)
Definition open_readlines (filename : string) : M (list string) :=
  fun w =>
    match fs w filename with
    | Missing =>
        (Raise (FileNotFoundError
                  ("[Errno 2] No such file or directory: '" ++ filename ++ "'")), w)
    | Unreadable why => (Raise (OSError why), w)
    | Text content => (Ret (readlines (universal_newlines content)), w)
    end.

(* ================================================================== *)
(** * The two collectors *)
(* ================================================================== *)

(** ** The file collector *)

Definition usages : list string := ["Casual"; "Athletic"; "Formal"].

(** [s in l] on a list of strings. *)
Definition str_in (s : string) (l : list string) : bool :=
  existsb (String.eqb s) l.

(** [parts[i]], read only below [len(parts)]. *)
Definition item (parts : list string) (i : nat) : string := nth i parts "".

Definition usage_warning (u : string) : string :=
  "Warning: Invalid usage '" ++ u ++ "' found in file. Defaulting to 'Casual'.".

Definition size_warning (tok : string) : string :=
  "Warning: Invalid size '" ++ tok ++ "' found in file. Using 0 as default.".

(** The body of the loop over [lines[1:]] in
    [read_shoe_data_from_file]. *)
Definition file_row (line : string) (shoes : list shoe) : M (list shoe) :=
  if negb (String.eqb (strip line) "") && negb (startswith "#" (strip line))
  then
    let parts := split "," (strip line) in
    if 5 <=? List.length parts then
      let brand := capitalize (strip (item parts 0)) in
      let name := capitalize (strip (item parts 1)) in
      let color := capitalize (strip (item parts 2)) in
      let usage := capitalize (strip (item parts 3)) in
      usage <- (if negb (str_in usage usages)
                then print (usage_warning usage) ;; ret "Casual"
                else ret usage) ;;
      size <- try_except
                (f <- py_float (strip (item parts 4)) ;; ret (PFloat f))
                (fun e => match e with
                          | ValueError _ =>
                              Some (print (size_warning (strip (item parts 4))) ;;
                                    ret (PInt 0))
                          | _ => None
                          end) ;;
      ret (shoes ++ [mkShoe brand name color usage size])%list
    else ret shoes
  else ret shoes.

Definition read_shoe_data_from_file (filename : string)
  : M (option (list shoe)) :=
  try_except
    (lines <- open_readlines filename ;;
     shoes <- for_list (tl lines) file_row [] ;;
     match shoes with
     | [] => print "No valid data found in the file." ;; ret None
     | _ => ret (Some shoes)
     end)
    (fun e => match e with
              | FileNotFoundError _ =>
                  Some (print ("File '" ++ filename ++ "' not found.") ;;
                        ret None)
              | _ =>
                  Some (print ("An error occurred while reading the file: "
                               ++ exn_message e) ;;
                        ret None)
              end).

(** ** The interactive collector *)

Definition timeout {A} : M A := fun w => (Timeout, w).

(** The [while True] loop that asks for the usage until it is one of
    the three.  Every turn reads a line, so one turn more than there are
    lines left is all the loop can make. *)
Fixpoint usage_loop (fuel : nat) : M string :=
  match fuel with
  | 0 => timeout
  | S fuel' =>
      l <- input "Usage (Casual, Athletic, Formal): " ;;
      let usage := capitalize (strip l) in
      if str_in usage usages then ret usage
      else
        print "Invalid usage. Please choose from: Casual, Athletic, Formal." ;;
        usage_loop fuel'
  end.

Definition ask_usage : M string :=
  fun w => usage_loop (S (List.length (stdin w))) w.

(** [range(lo, hi)]. *)
Definition range (lo hi : Z) : list Z :=
  map (fun k => (lo + Z.of_nat k)%Z) (seq 0 (Z.to_nat (hi - lo))).

(** The body of the [for i in range(1, num_shoes + 1)] loop. *)
Definition shoe_prompts (i : Z) (shoes : list shoe) : M (list shoe) :=
  print (String LF ("Shoe #" ++ str_Z i)) ;;
  l <- input "Brand: " ;;
  let brand := capitalize (strip l) in
  l <- input "Name/Model: " ;;
  let name := capitalize (strip l) in
  l <- input "Color: " ;;
  let color := capitalize (strip l) in
  usage <- ask_usage ;;
  l <- input "Size (numerical): " ;;
  let size_input := strip l in
  size <- try_except
            (f <- py_float size_input ;; ret (PFloat f))
            (fun e => match e with
                      | ValueError _ =>
                          Some (print "Invalid size input. Using 0 as default." ;;
                                ret (PInt 0))
                      | _ => None
                      end) ;;
  ret (shoes ++ [mkShoe brand name color usage size])%list.

(** [get_shoe_data] with room for [depth] nested calls of itself.  The
    [except ValueError] branch calls [get_shoe_data] again from inside
    the handler, one frame deeper each time.  When the recursion limit
    leaves no room for the nested call to run, it gets as far as
    writing its prompt: [input] then raises [RecursionError], which is
    no [ValueError] and which no handler on the way out catches. *)
Fixpoint get_shoe_data_rec (depth : nat) : M (list shoe) :=
  try_except
    (l <- input "How many shoes do you have in your collection? " ;;
     num_shoes <- py_int l ;;
     for_list (range 1 (num_shoes + 1)) shoe_prompts [])
    (fun e => match e with
              | ValueError _ =>
                  Some (print "Please enter a valid number of shoes." ;;
                        match depth with
                        | 0 =>
                            print "How many shoes do you have in your collection? " ;;
                            raise RecursionError
                        | S depth' => get_shoe_data_rec depth'
                        end)
              | _ => None
              end).

Definition get_shoe_data : M (list shoe) :=
  fun w => get_shoe_data_rec (stack w) w.

(* ================================================================== *)
(** * The table: data frame, cross tabulation, CSV *)
(* ================================================================== *)

(** A data frame is the list of its rows. *)
Definition dataframe : Type := list shoe.

Definition is_int (n : pynum) : bool :=
  match n with PInt _ => true | PFloat _ => false end.

Definition to_float (n : pynum) : pyfloat :=
  match n with
  | PInt z => decimal (z <? 0)%Z (Z.abs_N z) 0
  | PFloat f => f
  end.

(** [pd.DataFrame(shoes)]: a [size] column of ints only stays an int
    column; one float makes it a float column. *)
Definition create_dataframe (shoes : list shoe) : dataframe :=
  if forallb (fun s => is_int (size s)) shoes then shoes
  else map (fun s => mkShoe (brand s) (name s) (color s) (usage s)
                            (PFloat (to_float (size s)))) shoes.

(** The labels of an index built by [pd.crosstab]: each label once, in
    increasing order of code points. *)
Fixpoint insert_label (x : string) (l : list string) : list string :=
  match l with
  | [] => [x]
  | y :: l' =>
      match String_as_OT.compare x y with
      | Lt => x :: l
      | Eq => l
      | Gt => y :: insert_label x l'
      end
  end.

Definition sorted_unique (l : list string) : list string :=
  fold_right insert_label [] l.

Definition count_cell (b u : string) (df : dataframe) : nat :=
  List.length
    (filter (fun s => String.eqb (brand s) b && String.eqb (usage s) u) df).

(** [pd.crosstab(df['brand'], df['usage'])]: one row per brand, one
    cell per usage present. *)
Definition crosstab (df : dataframe) : list (string * list nat) :=
  let columns := sorted_unique (map usage df) in
  map (fun b => (b, map (fun u => count_cell b u df) columns))
      (sorted_unique (map brand df)).

(** [.sum(axis=1)] on one row. *)
Definition row_sum (r : string * list nat) : nat := list_sum (snd r).

(** An increasing stable insertion sort on the counts, the order numpy
    produces on short arrays. *)
Fixpoint insert_by_count (x : string * nat) (l : list (string * nat))
  : list (string * nat) :=
  match l with
  | [] => [x]
  | y :: l' =>
      if snd x <=? snd y then x :: l else y :: insert_by_count x l'
  end.

Definition argsort (l : list (string * nat)) : list (string * nat) :=
  fold_right insert_by_count [] l.

(** [.sort_values(ascending=False)]: pandas reverses the series, sorts
    it increasingly and reverses the result. *)
Definition sort_values_desc (l : list (string * nat)) : list (string * nat) :=
  rev (argsort (rev l)).

(** [.head(n)]. *)
Definition head {A} (n : nat) (l : list A) : list A := firstn n l.

(** [frame.loc[labels]]: the rows of these labels, in their order. *)
Definition loc (frame : list (string * list nat)) (labels : list string)
  : list (string * list nat) :=
  flat_map (fun b => filter (fun r => String.eqb (fst r) b) frame) labels.

(** The two statements that build the table of the fifth chart. *)
Definition brand_usage_top8 (df : dataframe) : list (string * list nat) :=
  let brand_usage := crosstab df in
  let totals := map (fun r => (fst r, row_sum r)) brand_usage in
  loc brand_usage (map fst (head 8 (sort_values_desc totals))).

Definition DQ : ascii := "034"%char.

Fixpoint str_any (p : ascii -> bool) (s : string) : bool :=
  match s with
  | EmptyString => false
  | String c s' => p c || str_any p s'
  end.

(** The csv writer quotes a field that holds the delimiter, the quote
    character or a character of the line terminator, which [to_csv]
    sets to the line feed, and doubles the quotes inside.  A carriage
    return alone is written as it is. *)
Definition csv_quoted (c : ascii) : bool :=
  Ascii.eqb c "," || Ascii.eqb c DQ || Ascii.eqb c LF.

Fixpoint csv_double (s : string) : string :=
  match s with
  | EmptyString => EmptyString
  | String c s' =>
      if Ascii.eqb c DQ then String DQ (String DQ (csv_double s'))
      else String c (csv_double s')
  end.

Definition csv_field (s : string) : string :=
  if str_any csv_quoted s
  then String DQ (csv_double s ++ String DQ EmptyString)
  else s.

(** A [size] cell as text: ints as they are, floats by [repr], a NaN as
    the empty field. *)
Definition csv_size (n : pynum) : string :=
  match n with
  | PInt z => str_Z z
  | PFloat FNaN => EmptyString
  | PFloat f => float_repr f
  end.

Definition csv_row (s : shoe) : string :=
  join "," [csv_field (brand s); csv_field (name s); csv_field (color s);
            csv_field (usage s); csv_size (size s)]
  ++ String LF EmptyString.

(** The text [df.to_csv(path, index=False)] writes.  A frame without
    rows has no columns either: its header line is empty. *)
Definition to_csv (df : dataframe) : string :=
  match df with
  | [] => String LF EmptyString
  | _ =>
      "brand,name,color,usage,size" ++ String LF EmptyString
      ++ String.concat EmptyString (map csv_row df)
  end.

(* ================================================================== *)
(** * Rendering and the session *)
(* ================================================================== *)

(** The drawing calls of [analyze_shoes], from [plt.style.use] to the
    last [tight_layout]: they raise what matplotlib and seaborn raise on
    the frame (the histogram and the box plot do on some sizes the
    collectors accept), and nothing in [analyze_shoes] catches it. *)
Definition draw (df : dataframe) : M unit :=
  fun w =>
    match plot_error w df with
    | Some e => (Raise e, w)
    | None => (Ret tt, w)
    end.

(** [analyze_shoes]: the guard on the empty frame, then the two
    figures.  Of the charts only the brand by usage table is kept. *)
Definition analyze_shoes (df : dataframe) (save_figures : bool)
  : M (option (figure * figure)) :=
  match df with
  | [] => print "No shoe data available for analysis." ;; ret None
  | _ =>
      draw df ;;
      let fig := ChartsFig (brand_usage_top8 df) in
      do_effect (Rendered fig) ;;
      let table_fig := TableFig df in
      do_effect (Rendered table_fig) ;;
      (if negb save_figures then do_effect Shown else ret tt) ;;
      ret (Some (fig, table_fig))
  end.

(** [open(path, 'w')] and [write]. *)
Definition write_file (path content : string) : M unit :=
  fun w =>
    if writable w path
    then (Ret tt, add_effect (WroteFile path) (set_file path (Text content) w))
    else (Raise (OSError ("[Errno 13] Permission denied: '" ++ path ++ "'")), w).

(** [open(path, 'w')] alone: the file is created or emptied. *)
Definition open_write (path : string) : M unit :=
  fun w =>
    if writable w path
    then (Ret tt, set_file path (Text EmptyString) w)
    else (Raise (OSError ("[Errno 13] Permission denied: '" ++ path ++ "'")), w).

(** [file.write(content)] on a file opened for writing, and its close. *)
Definition write_text (path content : string) : M unit :=
  fun w => (Ret tt, add_effect (WroteFile path) (set_file path (Text content) w)).

(** [fig.savefig(path, ...)]. *)
Definition savefig (f : figure) (path : string) : M unit :=
  fun w =>
    if writable w path
    then (Ret tt, add_effect (SavedFigure path f)
                    (set_file path (Unreadable "image data") w))
    else (Raise (OSError ("[Errno 13] Permission denied: '" ++ path ++ "'")), w).

(** [os.remove(path)]. *)
Definition os_remove (path : string) : M unit :=
  fun w =>
    match fs w path with
    | Missing =>
        (Raise (FileNotFoundError
                  ("[Errno 2] No such file or directory: '" ++ path ++ "'")), w)
    | _ => (Ret tt, add_effect (RemovedFile path) (set_file path Missing w))
    end.

(** [sys.stdin.isatty()] and [sys.stdin.read()]. *)
Definition stdin_isatty : M bool := fun w => (Ret (isatty w), w).

Definition stdin_read : M string :=
  fun w =>
    (Ret (String.concat EmptyString
            (map (fun l => l ++ String LF EmptyString) (stdin w))),
     set_stdin [] w).

(** [input()] without a prompt. *)
Definition input_line : M string :=
  fun w =>
    match stdin w with
    | [] => (Raise EOFError, w)
    | l :: rest => (Ret l, set_stdin rest w)
    end.

Definition template_text : string :=
  String.concat EmptyString
    (map (fun l => l ++ String LF EmptyString)
       ["Brand,Name,Color,Usage,Size";
        "# Usage must be one of: Casual, Athletic, Formal";
        "# Example entries below:";
        "Nike,Air Max,Black,Athletic,10.5";
        "Adidas,Superstar,White,Casual,11";
        "Allen Edmonds,Park Avenue,Brown,Formal,10"]).

Definition create_template_file (filename : string) : M unit :=
  try_except
    (write_file filename template_text ;;
     print ("Template file created: " ++ filename) ;;
     print "Format: Brand,Name,Color,Usage,Size (one shoe per line)" ;;
     print "Usage must be one of: Casual, Athletic, Formal")
    (fun e =>
       Some (print ("An error occurred while creating the template file: "
                    ++ exn_message e))).

Fixpoint string_rev (s : string) : string :=
  match s with
  | EmptyString => EmptyString
  | String c s' => string_rev s' ++ String c EmptyString
  end.

(** [s.endswith(suffix)] and [s.endswith((suffix, ...))]. *)
Definition endswith (suffix s : string) : bool :=
  String.prefix (string_rev suffix) (string_rev s).

Definition endswith_any (suffixes : list string) (s : string) : bool :=
  existsb (fun x => endswith x s) suffixes.

(** [charts_fig, table_fig = r]. *)
Definition unpack_pair {A B} (r : option (A * B)) : M (A * B) :=
  match r with
  | Some p => ret p
  | None => raise (TypeError "cannot unpack non-iterable NoneType object")
  end.

Definition image_suffixes : list string := [".png"; ".jpg"; ".pdf"; ".svg"].

(** The first half of [main]: the records, or [None] where [main]
    returns before it has any. *)
Definition main_collect : M (option (list shoe)) :=
  tty <- stdin_isatty ;;
  if negb tty then
    print "Detecting piped input..." ;;
    let temp_filename := "temp_shoe_data.txt" in
    open_write temp_filename ;;
    text <- stdin_read ;;
    write_text temp_filename text ;;
    print "Reading shoe data from piped input..." ;;
    shoes <- read_shoe_data_from_file temp_filename ;;
    try_except (os_remove temp_filename) (fun _ => Some (ret tt)) ;;
    match shoes with
    | None | Some [] =>
        print "No valid data found in the piped input. Exiting program." ;;
        ret None
    | Some shoes => ret (Some shoes)
    end
  else
    print "This program will collect data about your shoes and display visualizations." ;;
    print (String LF "How would you like to enter your shoe data?") ;;
    print "1. Input data manually" ;;
    print "2. Read data from a text file" ;;
    print "3. Create a template file for future use" ;;
    l <- input (String LF "Enter your choice (1-3): ") ;;
    let choice := strip l in
    if String.eqb choice "1" then
      shoes <- get_shoe_data ;; ret (Some shoes)
    else if String.eqb choice "2" then
      l <- input "Enter the path to your shoe data file: " ;;
      let filename := strip l in
      shoes <- read_shoe_data_from_file filename ;;
      match shoes with
      | None =>
          print "Would you like to enter data manually instead? (y/n): " ;;
          a <- input_line ;;
          if String.eqb (lower a) "y" then
            shoes <- get_shoe_data ;; ret (Some shoes)
          else print "Exiting program." ;; ret None
      | Some shoes => ret (Some shoes)
      end
    else if String.eqb choice "3" then
      l <- input "Enter filename for template (default: shoe_data_template.txt): " ;;
      let filename := strip l in
      let filename :=
        if String.eqb filename "" then "shoe_data_template.txt" else filename in
      create_template_file filename ;;
      print "Would you like to enter data manually now? (y/n): " ;;
      a <- input_line ;;
      if String.eqb (lower a) "y" then
        shoes <- get_shoe_data ;; ret (Some shoes)
      else print "Exiting program." ;; ret None
    else
      print "Invalid choice. Exiting program." ;; ret None.

(** The prompts of an interactive run after the figures are built. *)
Definition main_save_prompts (df : dataframe) (charts_fig table_fig : figure)
  : M unit :=
  l <- input (String LF "Would you like to save your shoe data to a CSV file? (y/n): ") ;;
  let save_option := lower l in
  (if String.eqb save_option "y" then
     l <- input "Enter filename (default: shoe_collection.csv): " ;;
     let filename := strip l in
     let filename :=
       if String.eqb filename "" then "shoe_collection.csv" else filename in
     let filename :=
       if negb (endswith ".csv" filename) then filename ++ ".csv"
       else filename in
     write_file filename (to_csv df) ;;
     print ("Data saved to " ++ filename)
   else ret tt) ;;
  l <- input (String LF "Would you like to save the visualization figures? (y/n): ") ;;
  let save_figs := lower l in
  if String.eqb save_figs "y" then
    l <- input "Enter filename for charts (default: shoe_collection_charts.png): " ;;
    let charts_filename := strip l in
    let charts_filename :=
      if String.eqb charts_filename "" then "shoe_collection_charts.png"
      else charts_filename in
    let charts_filename :=
      if negb (endswith_any image_suffixes (lower charts_filename))
      then charts_filename ++ ".png" else charts_filename in
    savefig charts_fig charts_filename ;;
    print ("Charts saved to '" ++ charts_filename ++ "'") ;;
    l <- input "Enter filename for table (default: shoe_collection_table.png): " ;;
    let table_filename := strip l in
    let table_filename :=
      if String.eqb table_filename "" then "shoe_collection_table.png"
      else table_filename in
    let table_filename :=
      if negb (endswith_any image_suffixes (lower table_filename))
      then table_filename ++ ".png" else table_filename in
    savefig table_fig table_filename ;;
    print ("Table saved to '" ++ table_filename ++ "'")
  else ret tt.

Definition main : M unit :=
  print "=== Shoe Collection Analyzer ===" ;;
  collected <- main_collect ;;
  match collected with
  | None => ret tt
  | Some shoes =>
      let df := create_dataframe shoes in
      is_piped_input <- (tty <- stdin_isatty ;; ret (negb tty)) ;;
      print (String LF "Analyzing your shoe collection...") ;;
      figures <- analyze_shoes df is_piped_input ;;
      p <- unpack_pair figures ;;
      let (charts_fig, table_fig) := p in
      is_piped_input <- (tty <- stdin_isatty ;; ret (negb tty)) ;;
      (if is_piped_input then
         let csv_filename := "shoe_collection.csv" in
         write_file csv_filename (to_csv df) ;;
         print ("Data saved to " ++ csv_filename) ;;
         print "Saving visualization figures..." ;;
         savefig charts_fig "shoe_collection_charts.png" ;;
         print "Charts saved to 'shoe_collection_charts.png'" ;;
         savefig table_fig "shoe_collection_table.png" ;;
         print "Table saved to 'shoe_collection_table.png'" ;;
         print "Figure display complete."
       else
         try_except
           (main_save_prompts df charts_fig table_fig)
           (fun e =>
              match e with
              | EOFError =>
                  Some (print (String LF "Input error detected. Saving data with default filenames.") ;;
                        write_file "shoe_collection.csv" (to_csv df) ;;
                        print "Data saved to 'shoe_collection.csv'" ;;
                        savefig charts_fig "shoe_collection_charts.png" ;;
                        savefig table_fig "shoe_collection_table.png" ;;
                        print "Figures saved with default filenames.")
              | _ => None
              end)) ;;
      print "Thank you for using the Shoe Collection Analyzer!"
  end.

(* ================================================================== *)
(** * Vocabulary of the statements *)
(* ================================================================== *)

(** ** Worlds *)

(** The world after the messages [out] were printed. *)
Definition prints (out : list string) (w : world) : world :=
  mkWorld (isatty w) (stdin w) (fs w) (writable w) (stack w) (plot_error w)
          (stdout w ++ out) (effects w).

(** The world after [out] was printed and the input was read down to
    [rest]. *)
Definition after (rest out : list string) (w : world) : world :=
  mkWorld (isatty w) rest (fs w) (writable w) (stack w) (plot_error w)
          (stdout w ++ out) (effects w).

(** The room for nested calls under CPython's default recursion limit. *)
Definition default_stack : nat := 994.

(** A world with one file, everything writable, figures that draw,
    nothing printed yet. *)
Definition world_with (tty : bool) (lines : list string)
    (path content : string) : world :=
  mkWorld tty lines
          (fun p => if String.eqb p path then Text content else Missing)
          (fun _ => true) default_stack (fun _ => None) [] [].

(** An interactive session: a terminal, the lines typed, no file. *)
Definition terminal (lines : list string) : world :=
  mkWorld true lines (fun _ => Missing) (fun _ => true) default_stack
          (fun _ => None) [] [].

(** ** The rows of a file *)

(** The fields of a line, as the loop body splits them. *)
Definition fields (line : string) : list string := split "," (strip line).

Definition blank (line : string) : bool := String.eqb (strip line) "".

Definition comment (line : string) : bool := startswith "#" (strip line).

(** A data row: not blank, no comment, at least five fields. *)
Definition data_row (line : string) : bool :=
  negb (blank line) && negb (comment line) && (5 <=? List.length (fields line)).

(** The usage and size tokens of a row, as the body reads them. *)
Definition usage_token (line : string) : string :=
  capitalize (strip (item (fields line) 3)).

Definition size_token (line : string) : string := strip (item (fields line) 4).

(** The record the body appends for a data row. *)
Definition row_shoe (line : string) : shoe :=
  mkShoe (capitalize (strip (item (fields line) 0)))
         (capitalize (strip (item (fields line) 1)))
         (capitalize (strip (item (fields line) 2)))
         (if str_in (usage_token line) usages then usage_token line
          else "Casual")
         (match float_of_string (size_token line) with
          | Some f => PFloat f
          | None => PInt 0
          end).

(** The warnings the body prints for a data row. *)
Definition row_warnings (line : string) : list string :=
  (if str_in (usage_token line) usages then []
   else [usage_warning (usage_token line)])
  ++ (match float_of_string (size_token line) with
      | Some _ => []
      | None => [size_warning (size_token line)]
      end).

(** The lines [readlines] returns for a text. *)
Definition file_lines (content : string) : list string :=
  readlines (universal_newlines content).

(** The data rows of a text: those of its lines after the first. *)
Definition data_rows (content : string) : list string :=
  filter data_row (tl (file_lines content)).

Definition no_data_message : string := "No valid data found in the file.".

(** A line with its line feed. *)
Definition ln (l : string) : string := l ++ String LF EmptyString.

(** The file of the scenario: header, comment, blank line, one row. *)
Definition scenario_text : string :=
  String.concat EmptyString
    (map (fun l => l ++ String LF EmptyString)
       ["Brand,Name,Color,Usage,Size"; "# note"; "";
        "nike,air max,black,athletic,10.5"]).

(** A file whose rows all are short of five fields. *)
Definition short_rows_text : string :=
  ln "Brand,Name,Color,Usage,Size" ++ ln "nike,pegasus" ++ ln "a,b,c,d".

(** A file whose only row has a size below zero. *)
Definition negative_text : string :=
  ln "Brand,Name,Color,Usage,Size" ++ ln "nike,air max,black,athletic,-5".


(** A file with three data rows among lines that are none: blanks
    around fields, mixed case, a sixth field, a usage outside the three
    and a size that is no number. *)
Definition three_rows_text : string :=
  ln "Brand,Name,Color,Usage,Size"
  ++ ln "  nike , AIR max,BLACK,athletic,10.5"
  ++ ln "# a comment"
  ++ ln "   "
  ++ ln "too,short"
  ++ ln "adidas,superstar,white,CASUAL,11,extra"
  ++ ln "allen edmonds,park avenue,brown,hiking,ten".

Definition three_rows : list shoe :=
  [mkShoe "Nike" "Air max" "Black" "Athletic" (PFloat (FFin false 105 (-1)));
   mkShoe "Adidas" "Superstar" "White" "Casual" (PFloat (FFin false 11 0));
   mkShoe "Allen edmonds" "Park avenue" "Brown" "Casual" (PInt 0)].

(** The field of rank [i] of a line, counted from 0. *)
Definition field (i : nat) (line : string) : string :=
  nth i (fields line) EmptyString.


(** ** Interactive collection *)

Definition count_prompt : string :=
  "How many shoes do you have in your collection? ".

Definition count_retry_message : string :=
  "Please enter a valid number of shoes.".

(** The size [float] gives for a token, [0] when it rejects it. *)
Definition size_of_token (tok : string) : pynum :=
  match float_of_string tok with
  | Some f => PFloat f
  | None => PInt 0
  end.

(** A size that is a real number and not below zero. *)
Definition nonneg_real (n : pynum) : Prop :=
  match n with
  | PInt z => (0 <= z)%Z
  | PFloat (FFin neg m _) => neg = false \/ m = 0%N
  | PFloat _ => False
  end.

(** The record's size was read from one of the lines [toks]. *)
Definition sized_from (toks : list string) (s : shoe) : Prop :=
  exists l, In l toks /\ size s = size_of_token (strip l).

(** The lines typed for one shoe: the answers to the brand, name and
    color prompts, the answers to the usage prompt (all refused but the
    last) and the answer to the size prompt. *)
Record answers : Type := mkAnswers {
  a_brand : string;
  a_name : string;
  a_color : string;
  a_refused : list string;
  a_usage : string;
  a_size : string
}.

Definition answer_lines (a : answers) : list string :=
  ([a_brand a; a_name a; a_color a] ++ a_refused a ++ [a_usage a; a_size a])%list.

(** The usage prompt refuses every line of [a_refused] and accepts
    [a_usage]. *)
Definition well_answered (a : answers) : Prop :=
  Forall (fun l => ~ In (capitalize (strip l)) usages) (a_refused a)
  /\ In (capitalize (strip (a_usage a))) usages.

(** What was typed at the count prompt and for the shoes: the lines
    [int] refused, the count, and the answers shoe by shoe. *)
Definition transcript (refused : list string) (count : string)
    (typed : list answers) : list string :=
  (refused ++ count :: flat_map answer_lines typed)%list.

(** The retries the recursion limit leaves room for. *)
Definition many_refused : list string := repeat "abc" 1200.

(** [a] is what is left of [b] after some lines were read. *)
Definition suffix_of (a b : list string) : Prop :=
  exists used, b = (used ++ a)%list.

(** Weakest precondition: [Q] holds of the outcome of [m] from [w]. *)
Definition wp {A} (m : M A) (Q : outcome A -> world -> Prop) (w : world)
  : Prop :=
  Q (fst (m w)) (snd (m w)).

(** What an interactive collection from [w] may end in: a value that
    satisfies [P] with some of the input read, or the end of the input.
    No other exception, and the fuel of the usage loop never runs out. *)
Definition collected {A} (w : world) (P : A -> Prop)
  : outcome A -> world -> Prop :=
  fun o w' =>
    match o with
    | Ret a => suffix_of (stdin w') (stdin w) /\ P a
    | Raise EOFError => True
    | _ => False
    end.

(** The same for a collection that retries by calling itself: it may
    also end at the recursion limit. *)
Definition retried {A} (w : world) (P : A -> Prop)
  : outcome A -> world -> Prop :=
  fun o w' =>
    match o with
    | Raise RecursionError => True
    | _ => collected w P o w'
    end.

(** The record made of the answers typed for one shoe. *)
Definition shoe_of (a : answers) : shoe :=
  mkShoe (capitalize (strip (a_brand a))) (capitalize (strip (a_name a)))
         (capitalize (strip (a_color a))) (capitalize (strip (a_usage a)))
         (size_of_token (strip (a_size a))).

(** What a collection from [w] ends in, by the lines it read: a value
    that [P] relates to the lines read, or the end of the input. *)
Definition typed {A} (w : world) (P : list string -> A -> Prop)
  : outcome A -> world -> Prop :=
  fun o w' =>
    match o with
    | Ret a => exists lines, stdin w = (lines ++ stdin w')%list /\ P lines a
    | Raise EOFError => True
    | _ => False
    end.

(** The same for a collection that may end at the recursion limit,
    after lines that [R] holds of. *)
Definition typed_retried {A} (w : world) (P : list string -> A -> Prop)
    (R : list string -> Prop) : outcome A -> world -> Prop :=
  fun o w' =>
    match o with
    | Raise RecursionError =>
        exists lines, stdin w = (lines ++ stdin w')%list /\ R lines
    | _ => typed w P o w'
    end.

(** ** The table *)

(** The number of records of a brand. *)
Definition count_brand (b : string) (df : dataframe) : nat :=
  List.length (filter (fun s => String.eqb (brand s) b) df).

(** The rank at which a label is first met in a list. *)
Fixpoint first_index (b : string) (l : list string) : nat :=
  match l with
  | [] => 0
  | x :: l' => if String.eqb x b then 0 else S (first_index b l')
  end.

(** Rows of equal total stand in the order in which their brands were
    first met in the records. *)
Definition ties_by_encounter (df : dataframe) (t : list (string * list nat))
  : Prop :=
  forall i j r1 r2,
    i < j -> nth_error t i = Some r1 -> nth_error t j = Some r2 ->
    row_sum r1 = row_sum r2 ->
    first_index (fst r1) (map brand df) < first_index (fst r2) (map brand df).

(** Two records of different brands, the later brand first in the
    alphabet. *)
Definition zara_then_adidas : dataframe :=
  [mkShoe "Zara" "Loafer" "Brown" "Formal" (PFloat (FFin false 9 0));
   mkShoe "Adidas" "Superstar" "White" "Casual" (PFloat (FFin false 11 0))].

(** ** Text and floats *)

(** Every character of the text satisfies [p]. *)
Fixpoint str_all (p : ascii -> bool) (s : string) : bool :=
  match s with
  | EmptyString => true
  | String c s' => p c && str_all p s'
  end.

(** A capitalized text, said without [capitalize]: no lower-case letter
    in front and no upper-case letter behind it. *)
Definition capitalized (s : string) : bool :=
  match s with
  | EmptyString => true
  | String c s' => negb (islower c) && str_all (fun d => negb (isupper d)) s'
  end.

(** The value of a run of digits read after the value [acc]. *)
Fixpoint digits_val (acc : N) (s : string) : N :=
  match s with
  | EmptyString => acc
  | String c s' => digits_val (acc * 10 + digit_val c)%N s'
  end.

(** The characters a field must be free of to come back from a CSV file
    as it went in: the ones the writer quotes, and the carriage return,
    which the writer leaves alone and the reader takes for a line
    break. *)
Definition csv_special (c : ascii) : bool :=
  Ascii.eqb c "," || Ascii.eqb c DQ || Ascii.eqb c CR || Ascii.eqb c LF.

(** A character that is no blank and that the csv writer leaves alone. *)
Definition plain_char (c : ascii) : bool :=
  negb (isspace c) && negb (csv_special c).

(** Text on which a [digitpart] stops: the end, or a character that is
    neither a digit nor an underscore. *)
Definition stops (s : string) : Prop :=
  match s with
  | EmptyString => True
  | String c _ => isdigit c = false /\ Ascii.eqb c "_" = false
  end.

(** The invariant of [pyfloat]: no trailing zero in the mantissa, and
    zero written [0 * 10^0]. *)
Definition canonical (f : pyfloat) : Prop :=
  match f with
  | FFin _ m e => (m = 0%N /\ e = 0%Z) \/ (m mod 10 <> 0)%N
  | _ => True
  end.

(** ** The export *)

(** The export of [main] followed by a read of the file written. *)
Definition csv_roundtrip (path : string) (shoes : list shoe)
  : M (option (list shoe)) :=
  write_file path (to_csv (create_dataframe shoes)) ;;
  read_shoe_data_from_file path.

(** A text field that the csv writer leaves as it is and that the
    collector's normalization leaves as it is: no comma, quote or line
    break, no blank at either end, capitalized. *)
Definition csv_text (s : string) : Prop :=
  str_all (fun c => negb (csv_special c)) s = true
  /\ strip s = s /\ capitalize s = s.

(** A record that survives the export: plain text fields, a brand that
    does not look like a comment, a usage among the three, and as size
    the default [0] or a float other than NaN. *)
Definition csv_safe (s : shoe) : Prop :=
  csv_text (brand s) /\ csv_text (name s) /\ csv_text (color s)
  /\ In (usage s) usages
  /\ startswith "#" (brand s) = false
  /\ (size s = PInt 0
      \/ exists f, size s = PFloat f /\ canonical f /\ f <> FNaN).

(** The record with its size as a float, as a float column holds it. *)
Definition as_float (s : shoe) : shoe :=
  mkShoe (brand s) (name s) (color s) (usage s) (PFloat (to_float (size s))).

(** The text of a row without its line feed. *)
Definition csv_row_text (s : shoe) : string :=
  join "," [csv_field (brand s); csv_field (name s); csv_field (color s);
            csv_field (usage s); csv_size (size s)].

(** A record whose brand begins with the comment sign. *)
Definition hash_brand : list shoe :=
  [mkShoe "#1" "Air max" "Black" "Casual" (PFloat (FFin false 105 (-1)))].

(** Two records that survive the export. *)
Definition two_shoes : list shoe :=
  [mkShoe "Nike" "Air max" "Black" "Athletic" (PFloat (FFin false 105 (-1)));
   mkShoe "Allen edmonds" "Park avenue" "Brown" "Formal" (PInt 0)].

(* ================================================================== *)
(** * Vocabulary of the further statements *)
(* ================================================================== *)

(** ** What a computation leaves alone *)

(** From [w] to [w'] lines were read and text was printed, nothing
    else: same terminal flag, same files, same effects, same
    surroundings. *)
Definition reads_only (w w' : world) : Prop :=
  suffix_of (stdin w') (stdin w)
  /\ (exists out, stdout w' = (stdout w ++ out)%list)
  /\ isatty w' = isatty w
  /\ fs w' = fs w
  /\ writable w' = writable w
  /\ effects w' = effects w
  /\ stack w' = stack w
  /\ plot_error w' = plot_error w.

(** What an interactive collection from [w] ends in: a value that
    satisfies [P], [EOFError] with the input read to its end, or
    [RecursionError]; in every case it only read and printed. *)
Definition interactive {A} (w : world) (P : A -> Prop)
  : outcome A -> world -> Prop :=
  fun o w' =>
    reads_only w w'
    /\ match o with
       | Ret a => P a
       | Raise EOFError => stdin w' = []
       | Raise RecursionError => True
       | _ => False
       end.

(** ** Records of the interactive collector *)

(** The record was typed on the lines [toks]: its brand, name and color
    are lines stripped and capitalized, its usage is one of the three,
    its size comes from a line. *)
Definition shoe_from (toks : list string) (s : shoe) : Prop :=
  (exists l, In l toks /\ brand s = capitalize (strip l))
  /\ (exists l, In l toks /\ name s = capitalize (strip l))
  /\ (exists l, In l toks /\ color s = capitalize (strip l))
  /\ In (usage s) usages
  /\ sized_from toks s.

Definition usage_prompt : string := "Usage (Casual, Athletic, Formal): ".

Definition usage_retry_message : string :=
  "Invalid usage. Please choose from: Casual, Athletic, Formal.".

(** ** Rows that need a default *)

Definition bad_usage (line : string) : bool :=
  negb (str_in (usage_token line) usages).

Definition bad_size (line : string) : bool :=
  match float_of_string (size_token line) with
  | Some _ => false
  | None => true
  end.

(** The warnings of a row: one for a bad usage, then one for a bad
    size. *)
Definition defaults_of (line : string) : list string :=
  (if bad_usage line
   then [usage_warning (capitalize (strip (field 3 line)))] else [])
  ++ (if bad_size line then [size_warning (strip (field 4 line))] else []).

(** A file of three rows: a bad size, no defect, a bad usage and a bad
    size. *)
Definition warnings_text : string :=
  ln "Brand,Name,Color,Usage,Size"
  ++ ln "nike,pegasus,blue,athletic,big"
  ++ ln "adidas,superstar,white,casual,11"
  ++ ln "puma,suede,red,hiking,ten".

(** ** The template *)

(** The three example records of the template, as the file collector
    reads them. *)
Definition template_shoes : list shoe :=
  [mkShoe "Nike" "Air max" "Black" "Athletic" (PFloat (FFin false 105 (-1)));
   mkShoe "Adidas" "Superstar" "White" "Casual" (PFloat (FFin false 11 0));
   mkShoe "Allen edmonds" "Park avenue" "Brown" "Formal"
          (PFloat (FFin false 1 1))].

Definition template_messages (filename : string) : list string :=
  ["Template file created: " ++ filename;
   "Format: Brand,Name,Color,Usage,Size (one shoe per line)";
   "Usage must be one of: Casual, Athletic, Formal"].

Definition template_error (filename : string) : string :=
  "An error occurred while creating the template file: "
  ++ "[Errno 13] Permission denied: '" ++ filename ++ "'".

(** ** The session *)

Definition banner : string := "=== Shoe Collection Analyzer ===".

Definition temp_filename : string := "temp_shoe_data.txt".

(** What [sys.stdin.read()] returns for the lines of a piped input. *)
Definition piped_text (lines : list string) : string :=
  String.concat EmptyString (map ln lines).

(** What the menu prints, the prompt for the choice included. *)
Definition menu_messages : list string :=
  ["This program will collect data about your shoes and display visualizations.";
   String LF "How would you like to enter your shoe data?";
   "1. Input data manually";
   "2. Read data from a text file";
   "3. Create a template file for future use";
   String LF "Enter your choice (1-3): "].

Definition analyzing_message : string :=
  String LF "Analyzing your shoe collection...".

Definition thanks_message : string :=
  "Thank you for using the Shoe Collection Analyzer!".

(** The world [analyze_shoes] leaves for a frame with rows. *)
Definition analyzed (df : dataframe) (save_figures : bool) (w : world)
  : world :=
  let w2 := add_effect (Rendered (TableFig df))
              (add_effect (Rendered (ChartsFig (brand_usage_top8 df))) w) in
  if save_figures then w2 else add_effect Shown w2.

(** The three artifacts of a run, under their default names. *)
Definition default_artifacts (charts table : figure) : list effect :=
  [WroteFile "shoe_collection.csv";
   SavedFigure "shoe_collection_charts.png" charts;
   SavedFigure "shoe_collection_table.png" table].

(** A file effect of the save prompts whose path has the extension the
    prompts promise. *)
Definition well_named (e : effect) : Prop :=
  match e with
  | WroteFile p => endswith ".csv" p = true
  | SavedFigure p _ => endswith_any image_suffixes (lower p) = true
  | _ => False
  end.

Definition csv_filename : string := "shoe_collection.csv".

(** What a piped run leaves of the temporary file: written, then
    removed, and no other path touched. *)
Definition temp_cleaned (w w' : world) : Prop :=
  fs w' temp_filename = Missing
  /\ (forall p, p <> temp_filename -> fs w' p = fs w p).

(** A piped run: no terminal, the lines piped in, no file, every path
    writable. *)
Definition piped (lines : list string) : world :=
  mkWorld false lines (fun _ => Missing) (fun _ => true) default_stack
          (fun _ => None) [] [].

Definition default_template : string := "shoe_data_template.txt".

(** The frame a piped run builds from the rows piped in. *)
Definition piped_frame (w : world) : dataframe :=
  create_dataframe (map row_shoe (data_rows (piped_text (stdin w)))).

Definition one_row_piped : world :=
  piped ["Brand,Name,Color,Usage,Size"; "nike,air max,black,athletic,10.5"].

(** The template's name: what was typed, or the default for a blank
    answer. *)
Definition template_name (answer : string) : string :=
  if String.eqb (strip answer) "" then default_template else strip answer.

(** ** Saving *)

(** From [w0] to [w] the save prompts read lines, printed, and wrote
    only files whose names carry the extension asked for. *)
Definition saving (w0 w : world) : Prop :=
  isatty w = isatty w0
  /\ writable w = writable w0
  /\ plot_error w = plot_error w0
  /\ suffix_of (stdin w) (stdin w0)
  /\ exists saved,
       effects w = (effects w0 ++ saved)%list /\ Forall well_named saved.

(** How the save prompts may end: normally, with [EOFError] once the
    input is used up, or with the [OSError] of a refused write. *)
Definition save_outcome {A} (w0 : world) (o : outcome A) (w : world) : Prop :=
  match o with
  | Ret _ => True
  | Raise EOFError => stdin w = []
  | Raise (OSError _) => exists p, writable w0 p = false
  | _ => False
  end.

Definition saved_post {A} (w0 : world) : outcome A -> world -> Prop :=
  fun o w => saving w0 w /\ save_outcome w0 o w.

(** ** How a run may end *)




(** A session that ends at the second save question: one shoe typed,
    the first question declined, no more input. *)
Definition one_shoe : list shoe :=
  [mkShoe "Nike" "Air max" "Black" "Athletic" (PFloat (FFin false 105 (-1)))].

Definition one_shoe_session : world :=
  terminal ["1"; "1"; "nike"; "air max"; "black"; "athletic"; "10.5"; "no"].

Definition one_shoe_collected : world :=
  snd (main_collect (add_stdout banner one_shoe_session)).

(** What is on the screen once that shoe has been typed in. *)
Definition one_shoe_dialogue : list string :=
  ["=== Shoe Collection Analyzer ===";
   "This program will collect data about your shoes and display visualizations.";
   String LF "How would you like to enter your shoe data?";
   "1. Input data manually"; "2. Read data from a text file";
   "3. Create a template file for future use";
   String LF "Enter your choice (1-3): ";
   "How many shoes do you have in your collection? ";
   String LF "Shoe #1";
   "Brand: "; "Name/Model: "; "Color: ";
   "Usage (Casual, Athletic, Formal): "; "Size (numerical): "].

(** A session that declines both save questions. *)
Definition declining_session : world :=
  terminal ["1"; "1"; "nike"; "air max"; "black"; "athletic"; "10.5";
            "n"; "N"].

Definition declining_collected : world :=
  snd (main_collect (add_stdout banner declining_session)).

(** The two save questions and the message of the [EOFError] handler. *)
Definition csv_question : string :=
  String LF "Would you like to save your shoe data to a CSV file? (y/n): ".

Definition figures_question : string :=
  String LF "Would you like to save the visualization figures? (y/n): ".

Definition input_error_message : string :=
  String LF "Input error detected. Saving data with default filenames.".
(* ================================================================== *)
(** * The built-ins on sample inputs *)
(* ================================================================== *)

Example strip_ex : strip "  air max 	" = "air max".
Proof. reflexivity. Qed.

Example capitalize_ex : capitalize "air MAX" = "Air max".
Proof. reflexivity. Qed.

Example split_ex : split "," "a,,b," = ["a"; ""; "b"; ""].
Proof. reflexivity. Qed.

Example readlines_ex :
  readlines (universal_newlines ("h" ++ String CR (String LF "x")))
  = [String "h" (String LF ""); "x"].
Proof. reflexivity. Qed.

Example float_ex1 : float_of_string " 10.5" = Some (FFin false 105 (-1)).
Proof. reflexivity. Qed.

Example float_ex2 : float_of_string "-1_0.e1" = Some (FFin true 1 2).
Proof. reflexivity. Qed.

Example float_ex3 : float_of_string "1__0" = None.
Proof. reflexivity. Qed.

Example float_ex4 : float_of_string "+InFinity" = Some (FInf false).
Proof. reflexivity. Qed.

Example float_ex5 : float_of_string "." = None.
Proof. reflexivity. Qed.

Example int_ex1 : int_of_string " -1_2 " = Some (-12)%Z.
Proof. reflexivity. Qed.

Example int_ex2 : int_of_string "abc" = None.
Proof. reflexivity. Qed.

Example str_Z_ex : str_Z (-120) = "-120".
Proof. reflexivity. Qed.

Example float_repr_ex1 : float_repr (FFin false 105 (-1)) = "10.5".
Proof. reflexivity. Qed.

Example float_repr_ex2 : float_repr (FFin false 1 1) = "10.0".
Proof. reflexivity. Qed.

Example float_repr_ex3 : float_repr (FFin true 15 (-6)) = "-1.5e-05".
Proof. reflexivity. Qed.

Example float_repr_ex4 : float_repr (FFin false 1 16) = "1e+16".
Proof. reflexivity. Qed.

Example float_repr_ex5 : float_repr (FFin false 1 (-4)) = "0.0001".
Proof. reflexivity. Qed.

(* ================================================================== *)
(** * Facts about the built-ins *)
(* ================================================================== *)

Ltac by_cases_on_ascii c :=
  destruct c as [[] [] [] [] [] [] [] []]; reflexivity.

Lemma to_upper_idem (c : ascii) : to_upper (to_upper c) = to_upper c.
Proof. by_cases_on_ascii c. Qed.

Lemma to_lower_idem (c : ascii) : to_lower (to_lower c) = to_lower c.
Proof. by_cases_on_ascii c. Qed.

Lemma lower_idem (s : string) : lower (lower s) = lower s.
Proof.
  induction s as [|c s IH]; simpl; [reflexivity|].
  now rewrite to_lower_idem, IH.
Qed.

(** A capitalized text is a fixed point of [capitalize]. *)
Lemma capitalize_idem (s : string) : capitalize (capitalize s) = capitalize s.
Proof.
  destruct s as [|c s]; simpl; [reflexivity|].
  now rewrite to_upper_idem, lower_idem.
Qed.

Lemma split_not_nil (sep : ascii) (s : string) : split sep s <> [].
Proof.
  destruct s as [|c s]; simpl; [discriminate|].
  destruct (Ascii.eqb c sep); [discriminate|].
  destruct (split sep s); discriminate.
Qed.

Lemma str_in_In (s : string) (l : list string) : str_in s l = true <-> In s l.
Proof.
  unfold str_in. rewrite existsb_exists. split.
  - intros (x & Hx & E). apply String.eqb_eq in E. now subst.
  - intros H. exists s. split; [assumption|apply String.eqb_refl].
Qed.

(* ================================================================== *)
(** * The file collector, row by row *)
(* ================================================================== *)

Lemma prints_nil (w : world) : prints [] w = w.
Proof. destruct w; unfold prints; simpl. now rewrite app_nil_r. Qed.

Lemma add_stdout_prints (s : string) (w : world) : add_stdout s w = prints [s] w.
Proof. reflexivity. Qed.

Lemma prints_prints (a b : list string) (w : world) :
  prints b (prints a w) = prints (a ++ b) w.
Proof. unfold prints; simpl. now rewrite app_assoc. Qed.

Lemma file_row_data (line : string) (shoes : list shoe) (w : world) :
  data_row line = true ->
  file_row line shoes w
  = (Ret (shoes ++ [row_shoe line])%list, prints (row_warnings line) w).
Proof.
  unfold data_row, blank, comment, fields. intros H.
  apply andb_prop in H as [H H5]. unfold file_row. rewrite H, H5.
  unfold row_shoe, row_warnings, usage_token, size_token, fields.
  set (u := capitalize (strip (item (split "," (strip line)) 3))).
  set (t := strip (item (split "," (strip line)) 4)).
  unfold bind, try_except, py_float, print, ret, raise.
  destruct (str_in u usages); simpl;
    destruct (float_of_string t); simpl;
    rewrite ?add_stdout_prints, ?prints_prints, ?prints_nil; reflexivity.
Qed.

Lemma file_row_skip (line : string) (shoes : list shoe) (w : world) :
  data_row line = false -> file_row line shoes w = (Ret shoes, w).
Proof.
  unfold data_row, blank, comment, fields, file_row. intros H.
  destruct (negb (String.eqb (strip line) "")
            && negb (startswith "#" (strip line))); simpl in *;
    [rewrite H|]; reflexivity.
Qed.

(** The whole loop: one record per data row, in the order of the
    lines, and the warnings of these rows. *)
Lemma for_list_file_row (lines : list string) (shoes : list shoe) (w : world) :
  for_list lines file_row shoes w
  = (Ret (shoes ++ map row_shoe (filter data_row lines))%list,
     prints (flat_map row_warnings (filter data_row lines)) w).
Proof.
  revert shoes w. induction lines as [|l lines IH]; intros shoes w; simpl.
  - now rewrite app_nil_r, prints_nil.
  - unfold bind. destruct (data_row l) eqn:E.
    + rewrite (file_row_data _ _ _ E), IH. simpl.
      now rewrite <- app_assoc, prints_prints.
    + now rewrite (file_row_skip _ _ _ E), IH.
Qed.

(** What the collector does on a text that could be read. *)
Lemma read_text (filename content : string) (w : world) :
  fs w filename = Text content ->
  read_shoe_data_from_file filename w
  = match data_rows content with
    | [] => (Ret None, prints [no_data_message] w)
    | rows => (Ret (Some (map row_shoe rows)),
               prints (flat_map row_warnings rows) w)
    end.
Proof.
  intros Hf. unfold read_shoe_data_from_file, try_except, bind at 1.
  unfold open_readlines. rewrite Hf. unfold bind at 1.
  rewrite for_list_file_row. cbn [app].
  fold (file_lines content). fold (data_rows content).
  destruct (data_rows content) as [|r rows]; [|reflexivity].
  cbn. unfold print, bind, ret. rewrite prints_nil. reflexivity.
Qed.

Lemma read_text_rows (filename content : string) (w : world) :
  fs w filename = Text content ->
  data_rows content <> [] ->
  read_shoe_data_from_file filename w
  = (Ret (Some (map row_shoe (data_rows content))),
     prints (flat_map row_warnings (data_rows content)) w).
Proof.
  intros Hf Hn. rewrite (read_text _ _ _ Hf).
  destruct (data_rows content); [contradiction|reflexivity].
Qed.

(** What it does when the path holds no text. *)
Lemma read_missing (filename : string) (w : world) :
  fs w filename = Missing ->
  read_shoe_data_from_file filename w
  = (Ret None, prints ["File '" ++ filename ++ "' not found."] w).
Proof.
  intros Hf. unfold read_shoe_data_from_file, try_except, bind, open_readlines.
  now rewrite Hf.
Qed.

Lemma read_unreadable (filename why : string) (w : world) :
  fs w filename = Unreadable why ->
  read_shoe_data_from_file filename w
  = (Ret None,
     prints ["An error occurred while reading the file: " ++ why] w).
Proof.
  intros Hf. unfold read_shoe_data_from_file, try_except, bind, open_readlines.
  now rewrite Hf.
Qed.

(* ================================================================== *)
(** * The file collector: the claims *)
(* ================================================================== *)

(** What [capitalize] returns is capitalized: no lower-case letter in
    front, no upper-case letter behind it. *)
Lemma capitalize_capitalized (s : string) : capitalized (capitalize s) = true.
Proof.
  destruct s as [|c s]; [reflexivity|]. cbn [capitalize capitalized].
  apply andb_true_intro. split.
  - by_cases_on_ascii c.
  - induction s as [|d s IH]; [reflexivity|]. cbn [lower str_all].
    rewrite IH, andb_true_r. by_cases_on_ascii d.
Qed.

Lemma data_rows_shoes (rows : list string) :
  Forall2 (fun line s =>
             brand s = capitalize (strip (field 0 line))
             /\ name s = capitalize (strip (field 1 line))
             /\ color s = capitalize (strip (field 2 line))
             /\ capitalized (brand s) = true
             /\ capitalized (name s) = true
             /\ capitalized (color s) = true
             /\ In (usage s) usages)
          rows (map row_shoe rows).
Proof.
  induction rows as [|r rows IH]; cbn [map]; constructor; [|exact IH].
  unfold row_shoe; cbn [brand name color usage].
  repeat split; try apply capitalize_capitalized.
  destruct (str_in (usage_token r) usages) eqn:E.
  - now apply str_in_In.
  - left; reflexivity.
Qed.

(** C3. A readable file whose data rows (the lines after the first that
    are not blank, not comments and have at least five fields) number
    N > 0 makes the file collector return exactly N records, in the
    order of the rows; brand, name and color of each are the first three
    fields of its row, stripped and capitalized (no lower-case letter in
    front, no upper-case letter behind it), and its usage is one of
    Casual, Athletic, Formal. *)
Theorem file_collector_returns_all_rows (filename content : string) (w : world) :
  fs w filename = Text content ->
  0 < List.length (data_rows content) ->
  exists shoes w',
    read_shoe_data_from_file filename w = (Ret (Some shoes), w')
    /\ List.length shoes = List.length (data_rows content)
    /\ Forall2 (fun line s =>
                  brand s = capitalize (strip (field 0 line))
                  /\ name s = capitalize (strip (field 1 line))
                  /\ color s = capitalize (strip (field 2 line))
                  /\ capitalized (brand s) = true
                  /\ capitalized (name s) = true
                  /\ capitalized (color s) = true
                  /\ In (usage s) usages)
               (data_rows content) shoes.
Proof.
  intros Hf HN. rewrite (read_text _ _ _ Hf).
  destruct (data_rows content) as [|r rows] eqn:E; [simpl in HN; lia|].
  eexists; eexists; split; [reflexivity|]. split.
  - apply length_map.
  - apply data_rows_shoes.
Qed.

(** On the file of three rows: the three records, in the order of the
    rows, and the two warnings of the last one. *)
Lemma file_collector_returns_all_rows_witness :
  exists w',
    read_shoe_data_from_file "shoes.txt"
      (world_with true [] "shoes.txt" three_rows_text)
    = (Ret (Some three_rows), w')
    /\ stdout w' = [usage_warning "Hiking"; size_warning "ten"]
    /\ List.length three_rows = List.length (data_rows three_rows_text)
    /\ Forall2 (fun line s =>
                  brand s = capitalize (strip (field 0 line))
                  /\ name s = capitalize (strip (field 1 line))
                  /\ color s = capitalize (strip (field 2 line))
                  /\ capitalized (brand s) = true
                  /\ capitalized (name s) = true
                  /\ capitalized (color s) = true
                  /\ In (usage s) usages)
               (data_rows three_rows_text) three_rows.
Proof.
  destruct (file_collector_returns_all_rows "shoes.txt" three_rows_text
              (world_with true [] "shoes.txt" three_rows_text) eq_refl)
    as (shoes & w' & E & L & F).
  - vm_compute. lia.
  - vm_compute in E. injection E as Es Ew. subst shoes w'.
    eexists. split; [vm_compute; reflexivity|].
    split; [reflexivity|]. split; [exact L|exact F].
Defined.




(** C5. The file collector always returns, never raises; it returns no
    result exactly when the path could not be read as text or the text
    has no data row. *)
Theorem file_collector_none_iff (filename : string) (w : world) :
  exists r w',
    read_shoe_data_from_file filename w = (Ret r, w')
    /\ (r = None <->
        (forall content, fs w filename <> Text content)
        \/ (exists content,
              fs w filename = Text content /\ data_rows content = [])).
Proof.
  destruct (fs w filename) as [|why|content] eqn:Hf.
  - rewrite (read_missing _ _ Hf). eexists; eexists; split; [reflexivity|].
    split; [|reflexivity]. intros _. left. discriminate.
  - rewrite (read_unreadable _ _ _ Hf). eexists; eexists; split; [reflexivity|].
    split; [|reflexivity]. intros _. left. discriminate.
  - rewrite (read_text _ _ _ Hf).
    destruct (data_rows content) as [|r rows] eqn:E.
    + eexists; eexists; split; [reflexivity|]. split; [|reflexivity].
      intros _. right. exists content. now split.
    + eexists; eexists; split; [reflexivity|]. split; [discriminate|].
      intros [H|(c & Hc & Hr)].
      * now destruct (H content).
      * injection Hc as <-. rewrite E in Hr. discriminate.
Qed.

(** C9. The file made of the header [Brand,Name,Color,Usage,Size], the
    comment [# note], a blank line and the row
    [nike,air max,black,athletic,10.5] yields exactly one record: Nike,
    Air max, Black, Athletic and the float 105e-1, which prints as
    10.5; nothing is printed on the way. *)
Theorem scenario_one_record (filename : string) (w : world) :
  fs w filename = Text scenario_text ->
  read_shoe_data_from_file filename w
  = (Ret (Some [mkShoe "Nike" "Air max" "Black" "Athletic"
                       (PFloat (FFin false 105 (-1)))]), w)
  /\ float_repr (FFin false 105 (-1)) = "10.5".
Proof.
  intros Hf. split; [|reflexivity].
  rewrite (read_text _ _ _ Hf).
  replace (data_rows scenario_text)
    with [ln "nike,air max,black,athletic,10.5"] by reflexivity.
  cbv beta iota zeta.
  replace (flat_map row_warnings [ln "nike,air max,black,athletic,10.5"])
    with (@nil string) by reflexivity.
  rewrite prints_nil. reflexivity.
Qed.

Lemma scenario_one_record_witness :
  fs (world_with true [] "shoes.txt" scenario_text) "shoes.txt"
  = Text scenario_text
  /\ read_shoe_data_from_file "shoes.txt"
       (world_with true [] "shoes.txt" scenario_text)
     = (Ret (Some [mkShoe "Nike" "Air max" "Black" "Athletic"
                          (PFloat (FFin false 105 (-1)))]),
        world_with true [] "shoes.txt" scenario_text)
  /\ float_repr (FFin false 105 (-1)) = "10.5".
Proof.
  split; [reflexivity|].
  apply (scenario_one_record "shoes.txt"
           (world_with true [] "shoes.txt" scenario_text)).
  reflexivity.
Defined.

Lemma data_row_short (line : string) :
  List.length (fields line) < 5 -> data_row line = false.
Proof.
  intros H. unfold data_row.
  replace (5 <=? List.length (fields line)) with false.
  - apply andb_false_r.
  - symmetry. apply Nat.leb_gt. exact H.
Qed.

(** C10. A line that is neither blank nor a comment and has fewer than
    five fields leaves the records and the output as they were; a file
    in which every such line after the first has fewer than five fields
    is answered with the no-data message and no result. *)
Theorem short_rows_yield_no_data :
  (forall line shoes w,
      blank line = false -> comment line = false ->
      List.length (fields line) < 5 ->
      file_row line shoes w = (Ret shoes, w))
  /\ (forall filename content w,
         fs w filename = Text content ->
         (forall line, In line (tl (file_lines content)) ->
                       blank line = false -> comment line = false ->
                       List.length (fields line) < 5) ->
         read_shoe_data_from_file filename w
         = (Ret None, prints [no_data_message] w)).
Proof.
  split.
  - intros line shoes w _ _ H. apply file_row_skip, data_row_short, H.
  - intros filename content w Hf H. rewrite (read_text _ _ _ Hf).
    replace (data_rows content) with (@nil string); [reflexivity|].
    symmetry. unfold data_rows.
    induction (tl (file_lines content)) as [|l ls IH]; [reflexivity|].
    simpl. destruct (data_row l) eqn:E.
    + exfalso. unfold data_row in E.
      apply andb_prop in E as [E E5]. apply andb_prop in E as [Eb Ec].
      apply negb_true_iff in Eb, Ec.
      apply Nat.leb_le in E5.
      specialize (H l (or_introl eq_refl) Eb Ec). lia.
    + apply IH. intros line Hin. apply H. now right.
Qed.

Lemma short_rows_yield_no_data_witness :
  file_row (ln "nike,pegasus") [] (world_with true [] "shoes.txt" short_rows_text)
  = (Ret [], world_with true [] "shoes.txt" short_rows_text)
  /\ read_shoe_data_from_file "shoes.txt"
       (world_with true [] "shoes.txt" short_rows_text)
     = (Ret None,
        prints [no_data_message] (world_with true [] "shoes.txt" short_rows_text)).
Proof.
  split.
  - apply (proj1 short_rows_yield_no_data); [reflexivity|reflexivity|].
    vm_compute; lia.
  - apply (proj2 short_rows_yield_no_data "shoes.txt" short_rows_text);
      [reflexivity|].
    intros line Hin _ _. vm_compute in Hin.
    destruct Hin as [<-|[<-|[]]]; vm_compute; lia.
Defined.

(* ================================================================== *)
(** * The empty collection *)
(* ================================================================== *)

(** On an empty frame [analyze_shoes] prints its message, builds and
    shows nothing, and returns nothing. *)
Lemma analyze_shoes_empty (save_figures : bool) (w : world) :
  analyze_shoes [] save_figures w
  = (Ret None, prints ["No shoe data available for analysis."] w).
Proof. reflexivity. Qed.

(** C1, the code at the failing input: menu choice 1 and a count of 0 on
    a terminal.  The message is printed, nothing is rendered and no file
    is written, but [main] unpacks the [None] that [analyze_shoes]
    returned and ends in a [TypeError]. *)
Theorem main_empty_collection_raises :
  exists w',
    main (terminal ["1"; "0"])
    = (Raise (TypeError "cannot unpack non-iterable NoneType object"), w')
    /\ In "No shoe data available for analysis." (stdout w')
    /\ effects w' = []
    /\ forall path, fs w' path = Missing.
Proof.
  eexists. split; [vm_compute; reflexivity|].
  split; [|split; [reflexivity|reflexivity]].
  simpl. intuition.
Qed.

(* ================================================================== *)
(** * Reasoning about computations *)
(* ================================================================== *)

Lemma wp_ret {A} (a : A) (Q : outcome A -> world -> Prop) (w : world) :
  Q (Ret a) w -> wp (ret a) Q w.
Proof. exact (fun H => H). Qed.

Lemma wp_raise {A} (e : exn) (Q : outcome A -> world -> Prop) (w : world) :
  Q (Raise e) w -> wp (raise e) Q w.
Proof. exact (fun H => H). Qed.

Lemma wp_print (s : string) (Q : outcome unit -> world -> Prop) (w : world) :
  Q (Ret tt) (add_stdout s w) -> wp (print s) Q w.
Proof. exact (fun H => H). Qed.

Lemma wp_bind {A B} (m : M A) (k : A -> M B)
    (Q : outcome B -> world -> Prop) (w : world) :
  wp m (fun o w1 =>
          match o with
          | Ret a => wp (k a) Q w1
          | Raise e => Q (Raise e) w1
          | Timeout => Q Timeout w1
          end) w ->
  wp (bind m k) Q w.
Proof.
  unfold wp, bind. destruct (m w) as [[a|e|] w1]; simpl; auto.
Qed.

Lemma wp_try {A} (m : M A) (h : exn -> option (M A))
    (Q : outcome A -> world -> Prop) (w : world) :
  wp m (fun o w1 =>
          match o with
          | Raise e =>
              match h e with
              | Some k => wp k Q w1
              | None => Q (Raise e) w1
              end
          | _ => Q o w1
          end) w ->
  wp (try_except m h) Q w.
Proof.
  unfold wp, try_except. destruct (m w) as [[a|e|] w1]; simpl; auto.
  destruct (h e); auto.
Qed.

Lemma wp_input (p : string) (Q : outcome string -> world -> Prop) (w : world) :
  (stdin w = [] -> Q (Raise EOFError) (add_stdout p w)) ->
  (forall l rest, stdin w = l :: rest ->
                  Q (Ret l) (set_stdin rest (add_stdout p w))) ->
  wp (input p) Q w.
Proof.
  unfold wp, input. intros H0 H1. destruct (stdin w) as [|l rest]; simpl; auto.
Qed.

Lemma wp_conseq {A} (m : M A) (Q Q' : outcome A -> world -> Prop) (w : world) :
  wp m Q w -> (forall o w', Q o w' -> Q' o w') -> wp m Q' w.
Proof. unfold wp. auto. Qed.

Lemma suffix_of_refl (a : list string) : suffix_of a a.
Proof. now exists []. Qed.

Lemma suffix_of_trans (a b c : list string) :
  suffix_of a b -> suffix_of b c -> suffix_of a c.
Proof.
  intros [u ->] [v ->]. exists (v ++ u)%list. now rewrite app_assoc.
Qed.

Lemma suffix_of_cons (l : string) (a : list string) : suffix_of a (l :: a).
Proof. now exists [l]. Qed.

Lemma suffix_of_In (a b : list string) (l : string) :
  suffix_of a b -> In l a -> In l b.
Proof. intros [u ->] H. apply in_or_app. now right. Qed.

Lemma suffix_of_length (a b : list string) :
  suffix_of a b -> List.length a <= List.length b.
Proof. intros [u ->]. rewrite length_app. lia. Qed.

Lemma sized_from_suffix (a b : list string) (s : shoe) :
  suffix_of a b -> sized_from a s -> sized_from b s.
Proof.
  intros Hs (l & Hl & E). exists l. split; [|exact E].
  eapply suffix_of_In; eassumption.
Qed.

(** A collection from a later world is one from the earlier world. *)
Lemma collected_later {A} (w w1 : world) (P P' : A -> Prop)
    (o : outcome A) (w' : world) :
  suffix_of (stdin w1) (stdin w) ->
  (forall a, P a -> P' a) ->
  collected w1 P o w' -> collected w P' o w'.
Proof.
  intros Hs HP. destruct o as [a|e|]; simpl; auto.
  intros [H1 H2]. split; [eapply suffix_of_trans; eassumption|auto].
Qed.

(* ================================================================== *)
(** * The interactive collector *)
(* ================================================================== *)

(** The usage loop ends with one of the three usages or at the end of
    the input. *)
Lemma usage_loop_collected (fuel : nat) (w : world) :
  List.length (stdin w) < fuel ->
  wp (usage_loop fuel) (collected w (fun u => In u usages)) w.
Proof.
  revert w. induction fuel as [|fuel IH]; intros w Hlen; [lia|].
  cbn [usage_loop]. apply wp_bind, wp_input.
  - intros _. exact I.
  - intros l rest E.
    destruct (str_in (capitalize (strip l)) usages) eqn:Hu.
    + apply wp_ret. split.
      * cbn. rewrite E. apply suffix_of_cons.
      * now apply str_in_In.
    + apply wp_bind, wp_print.
      eapply wp_conseq; [apply IH; cbn; rewrite E in Hlen; simpl in Hlen; lia|].
      intros o w'. apply collected_later; [|auto].
      cbn. rewrite E. apply suffix_of_cons.
Qed.

Lemma ask_usage_collected (w : world) :
  wp ask_usage (collected w (fun u => In u usages)) w.
Proof.
  unfold ask_usage.
  exact (usage_loop_collected (S (List.length (stdin w))) w (Nat.lt_succ_diag_r _)).
Qed.

(** One turn of the loop over the shoes appends one record; its usage is
    one of the three and its size was read from a line of the input. *)
Lemma shoe_prompts_collected (i : Z) (shoes : list shoe) (w : world) :
  wp (shoe_prompts i shoes)
     (collected w (fun shoes' =>
                     exists s, shoes' = (shoes ++ [s])%list
                               /\ In (usage s) usages
                               /\ sized_from (stdin w) s)) w.
Proof.
  unfold shoe_prompts.
  apply wp_bind, wp_print.
  apply wp_bind, wp_input; [intros _; exact I|]. intros l1 r1 E1.
  apply wp_bind, wp_input; [intros _; exact I|]. intros l2 r2 E2.
  apply wp_bind, wp_input; [intros _; exact I|]. intros l3 r3 E3.
  cbn in E1, E2, E3.
  assert (S3 : suffix_of r3 (stdin w)).
  { rewrite E1. exists [l1; l2; l3]. cbn. now rewrite E2, E3. }
  apply wp_bind.
  eapply wp_conseq; [apply ask_usage_collected|].
  intros [u| [ | | | | | | ] |] w4; cbn [collected]; try tauto.
  intros [S4 Hu]. cbn in S4.
  apply wp_bind, wp_input; [intros _; exact I|]. intros l5 r5 E5.
  assert (S5 : suffix_of (l5 :: r5) (stdin w)).
  { rewrite <- E5. eapply suffix_of_trans; eassumption. }
  apply wp_bind, wp_try. unfold py_float.
  destruct (float_of_string (strip l5)) as [f|] eqn:Ef.
  - apply wp_bind, wp_ret, wp_ret, wp_ret. split.
    + cbn. eapply suffix_of_trans; [apply suffix_of_cons|exact S5].
    + eexists. split; [reflexivity|]. split; [exact Hu|].
      exists l5. split; [eapply suffix_of_In; [exact S5|now left]|].
      cbn. unfold size_of_token. now rewrite Ef.
  - apply wp_bind, wp_raise. apply wp_bind, wp_print, wp_ret, wp_ret. split.
    + cbn. eapply suffix_of_trans; [apply suffix_of_cons|exact S5].
    + eexists. split; [reflexivity|]. split; [exact Hu|].
      exists l5. split; [eapply suffix_of_In; [exact S5|now left]|].
      cbn. unfold size_of_token. now rewrite Ef.
Qed.

(** The loop over the shoes: every record it returns has a usage among
    the three and a size read from the lines [toks] that were there when
    the collection began. *)
Lemma shoe_loop_collected (toks : list string) (idx : list Z)
    (shoes : list shoe) (w : world) :
  suffix_of (stdin w) toks ->
  Forall (fun s => In (usage s) usages /\ sized_from toks s) shoes ->
  wp (for_list idx shoe_prompts shoes)
     (collected w (Forall (fun s => In (usage s) usages /\ sized_from toks s)))
     w.
Proof.
  revert shoes w. induction idx as [|i idx IH]; intros shoes w Hw H.
  - apply wp_ret. split; [apply suffix_of_refl|exact H].
  - cbn [for_list]. apply wp_bind.
    eapply wp_conseq; [apply shoe_prompts_collected|].
    intros [shoes1| [ | | | | | | ] |] w1; cbn [collected]; try tauto.
    intros [S1 (s & -> & Hu & Hs)].
    eapply wp_conseq.
    + apply IH; [eapply suffix_of_trans; eassumption|].
      apply Forall_app. split; [exact H|].
      constructor; [|constructor]. split; [exact Hu|].
      eapply sized_from_suffix; eassumption.
    + intros o w'. apply collected_later; [exact S1|]. auto.
Qed.

(** A collection that may retry, from a later world. *)
Lemma retried_later {A} (w w1 : world) (P P' : A -> Prop)
    (o : outcome A) (w' : world) :
  suffix_of (stdin w1) (stdin w) ->
  (forall a, P a -> P' a) ->
  retried w1 P o w' -> retried w P' o w'.
Proof.
  intros Hs HP. destruct o as [a|[ | | | | | | ]|]; simpl; auto.
  intros [H1 H2]. split; [eapply suffix_of_trans; eassumption|auto].
Qed.

(** The collector itself, whatever room the recursion limit leaves: it
    ends with its records, at the end of the input or at the recursion
    limit; it never lets a [ValueError] out. *)
Lemma get_shoe_data_rec_collected (toks : list string) (depth : nat) (w : world) :
  suffix_of (stdin w) toks ->
  wp (get_shoe_data_rec depth)
     (retried w (Forall (fun s => In (usage s) usages /\ sized_from toks s)))
     w.
Proof.
  revert w. induction depth as [|depth IH]; intros w Hw;
    cbn [get_shoe_data_rec]; apply wp_try, wp_bind, wp_input;
    try (intros _; exact I); intros l rest E;
    assert (S1 : suffix_of rest (stdin w)) by (rewrite E; apply suffix_of_cons);
    apply wp_bind; unfold py_int; destruct (int_of_string l) as [n|].
  1, 3: apply wp_ret; eapply wp_conseq;
    [apply (shoe_loop_collected toks);
     [cbn; eapply suffix_of_trans; eassumption|constructor]|];
    intros [shoes|[ | | | | | | ]|] w1; cbn [collected]; try tauto;
    cbn; intros [S2 H]; split; [eapply suffix_of_trans; eassumption|exact H].
  - apply wp_raise. apply wp_bind, wp_print. apply wp_bind, wp_print, wp_raise.
    exact I.
  - apply wp_raise. apply wp_bind, wp_print.
    eapply wp_conseq; [apply IH; cbn; eapply suffix_of_trans; eassumption|].
    intros o w'. apply retried_later; [exact S1|auto].
Qed.

Lemma get_shoe_data_collected (w : world) :
  wp get_shoe_data
     (retried w (Forall (fun s => In (usage s) usages
                                  /\ sized_from (stdin w) s))) w.
Proof.
  unfold get_shoe_data.
  exact (get_shoe_data_rec_collected (stdin w) (stack w) w (suffix_of_refl _)).
Qed.

Lemma after_after (r1 r2 o1 o2 : list string) (w : world) :
  after r2 o2 (after r1 o1 w) = after r2 (o1 ++ o2) w.
Proof. unfold after; cbn. now rewrite app_assoc. Qed.

(** A count that [int] rejects while there is room for a nested call:
    the message, and the collector again, one frame deeper, on what is
    left of the input. *)
Lemma get_shoe_data_rec_retry (depth : nat) (l : string) (rest : list string)
    (w : world) :
  stdin w = l :: rest ->
  int_of_string l = None ->
  get_shoe_data_rec (S depth) w
  = get_shoe_data_rec depth (after rest [count_prompt; count_retry_message] w).
Proof.
  intros E Hn. cbn [get_shoe_data_rec].
  unfold try_except at 1, bind at 1, input. rewrite E.
  unfold bind at 1, py_int. rewrite Hn. unfold raise, bind, print.
  f_equal. unfold after, add_stdout, set_stdin; cbn. now rewrite <- app_assoc.
Qed.

(** A count that [int] rejects when there is no room left: the message,
    the prompt of the nested call, and [RecursionError]. *)
Lemma get_shoe_data_rec_full (l : string) (rest : list string) (w : world) :
  stdin w = l :: rest ->
  int_of_string l = None ->
  get_shoe_data_rec 0 w
  = (Raise RecursionError,
     after rest [count_prompt; count_retry_message; count_prompt] w).
Proof.
  intros E Hn. cbn [get_shoe_data_rec].
  unfold try_except, bind at 1, input. rewrite E.
  unfold bind at 1, py_int. rewrite Hn. unfold raise, bind, print.
  f_equal. unfold after, add_stdout, set_stdin; cbn. now rewrite <- !app_assoc.
Qed.

(** A count that [int] accepts: the loop over that many shoes. *)
Lemma get_shoe_data_rec_count (depth : nat) (l : string) (n : Z)
    (rest : list string) (w : world) :
  stdin w = l :: rest ->
  int_of_string l = Some n ->
  get_shoe_data_rec depth w
  = for_list (range 1 (n + 1)) shoe_prompts [] (after rest [count_prompt] w).
Proof.
  intros E Hn.
  assert (G : try_except
                (l <- input count_prompt ;;
                 num_shoes <- py_int l ;;
                 for_list (range 1 (num_shoes + 1)) shoe_prompts [])
                (fun e => match e with
                          | ValueError _ =>
                              Some (print count_retry_message ;;
                                    match depth with
                                    | 0 => print count_prompt ;;
                                           raise RecursionError
                                    | S depth' => get_shoe_data_rec depth'
                                    end)
                          | _ => None
                          end) w
              = for_list (range 1 (n + 1)) shoe_prompts []
                  (after rest [count_prompt] w)).
  { unfold try_except, bind at 1, input. rewrite E.
    unfold bind at 1, py_int. rewrite Hn. unfold ret at 1.
    set (W := set_stdin rest (add_stdout _ w)).
    change (after rest [count_prompt] w) with W.
    pose proof (shoe_loop_collected (stdin W) (range 1 (n + 1)) [] W
                  (suffix_of_refl _) (Forall_nil _)) as H.
    unfold wp in H.
    destruct (for_list (range 1 (n + 1)) shoe_prompts [] W)
      as [[shoes| [ | | | | | | ] |] w1];
      cbn in H; try reflexivity; contradiction. }
  destruct depth; exact G.
Qed.

Lemma get_shoe_data_rec_retries (bads : list string) :
  forall (depth : nat) (good : string) (n : Z) (rest : list string) (w : world),
    Forall (fun l => int_of_string l = None) bads ->
    int_of_string good = Some n ->
    stdin w = (bads ++ good :: rest)%list ->
    List.length bads <= depth ->
    get_shoe_data_rec depth w
    = for_list (range 1 (n + 1)) shoe_prompts []
        (after rest
           (flat_map (fun _ => [count_prompt; count_retry_message]) bads
            ++ [count_prompt]) w).
Proof.
  induction bads as [|b bads IH]; intros depth good n rest w Hb Hg E Hlen.
  - apply (get_shoe_data_rec_count depth good n rest w E Hg).
  - destruct depth as [|depth]; [simpl in Hlen; lia|].
    inversion Hb as [|? ? Hb1 Hb2]; subst.
    rewrite (get_shoe_data_rec_retry depth b (bads ++ good :: rest) w E Hb1).
    rewrite (IH depth good n rest
               (after (bads ++ good :: rest)
                      [count_prompt; count_retry_message] w) Hb2 Hg);
      [|reflexivity|simpl in Hlen; lia].
    now rewrite after_after.
Qed.

(** More rejected counts than the recursion limit leaves room for: the
    collector ends in [RecursionError]. *)
Lemma get_shoe_data_rec_exhausted (bads : list string) :
  forall (depth : nat) (rest : list string) (w : world),
    Forall (fun l => int_of_string l = None) bads ->
    stdin w = (bads ++ rest)%list ->
    depth < List.length bads ->
    fst (get_shoe_data_rec depth w) = Raise RecursionError.
Proof.
  induction bads as [|b bads IH]; intros depth rest w Hb E Hlen;
    [simpl in Hlen; lia|].
  inversion Hb as [|? ? Hb1 Hb2]; subst. destruct depth as [|depth].
  - now rewrite (get_shoe_data_rec_full b (bads ++ rest) w E Hb1).
  - rewrite (get_shoe_data_rec_retry depth b (bads ++ rest) w E Hb1).
    apply (IH depth rest); [exact Hb2|reflexivity|simpl in Hlen; lia].
Qed.

(** C8 as stated fails: each retry is a nested call, and the 995th
    rejected count finds no room for one.  After 1200 rejected counts the
    valid count that follows is never read: the collection ends in
    [RecursionError], which nothing catches. *)
Lemma count_retries_exhausted :
  Forall (fun l => int_of_string l = None) many_refused
  /\ int_of_string "1" = Some 1%Z
  /\ fst (get_shoe_data
            (terminal (many_refused
                       ++ ["1"; "nike"; "air max"; "black"; "athletic"; "10.5"])))
     = Raise RecursionError.
Proof.
  assert (Hb : Forall (fun l => int_of_string l = None) many_refused).
  { apply Forall_forall. intros l Hl. apply repeat_spec in Hl. now subst. }
  split; [exact Hb|]. split; [reflexivity|].
  unfold get_shoe_data.
  apply (get_shoe_data_rec_exhausted many_refused _
           ["1"; "nike"; "air max"; "black"; "athletic"; "10.5"]);
    [exact Hb|reflexivity|].
  unfold many_refused. rewrite repeat_length. cbn. unfold default_stack. lia.
Qed.

(** C8, amended. When the count prompt is answered by lines that [int]
    rejects (such as abc) and then by an integer, and the rejected lines
    are no more than the recursion limit leaves room for nested calls,
    the collector prints its message and asks again for each rejected
    line, then runs the loop over the shoes on the rest of the input as
    if the integer had been the first answer; no [ValueError] and no
    [RecursionError] leaves it. *)
Theorem count_prompt_retries (bads : list string) (good : string) (n : Z)
    (rest : list string) (w : world) :
  Forall (fun l => int_of_string l = None) bads ->
  int_of_string good = Some n ->
  stdin w = (bads ++ good :: rest)%list ->
  List.length bads <= stack w ->
  get_shoe_data w
  = for_list (range 1 (n + 1)) shoe_prompts []
      (after rest
         (flat_map (fun _ => [count_prompt; count_retry_message]) bads
          ++ [count_prompt]) w)
  /\ fst (get_shoe_data w) <> Timeout
  /\ (forall msg, fst (get_shoe_data w) <> Raise (ValueError msg))
  /\ fst (get_shoe_data w) <> Raise RecursionError.
Proof.
  intros Hb Hg E Hlen.
  assert (G : get_shoe_data w
              = for_list (range 1 (n + 1)) shoe_prompts []
                  (after rest
                     (flat_map (fun _ => [count_prompt; count_retry_message])
                               bads ++ [count_prompt]) w)).
  { unfold get_shoe_data.
    apply (get_shoe_data_rec_retries bads _ good n rest w Hb Hg E Hlen). }
  split; [exact G|]. rewrite G.
  set (W := after rest _ w).
  pose proof (shoe_loop_collected (stdin W) (range 1 (n + 1)) [] W
                (suffix_of_refl _) (Forall_nil _)) as H.
  unfold wp in H.
  destruct (for_list (range 1 (n + 1)) shoe_prompts [] W)
    as [[shoes| [ | | | | | | ] |] w1];
    cbn in H |- *; try contradiction; repeat split; try discriminate;
    intros; discriminate.
Qed.

Lemma count_prompt_retries_witness :
  get_shoe_data (terminal ["abc"; "1.5"; "1"; "nike"; "air max"; "black";
                           "athletic"; "10.5"])
  = (Ret [mkShoe "Nike" "Air max" "Black" "Athletic"
                 (PFloat (FFin false 105 (-1)))],
     after []
       [count_prompt; count_retry_message; count_prompt; count_retry_message;
        count_prompt; String LF "Shoe #1"; "Brand: "; "Name/Model: ";
        "Color: "; "Usage (Casual, Athletic, Formal): "; "Size (numerical): "]
       (terminal []))
  /\ fst (get_shoe_data (terminal ["abc"; "1.5"; "1"; "nike"; "air max";
                                   "black"; "athletic"; "10.5"]))
     <> Raise RecursionError.
Proof.
  destruct (count_prompt_retries ["abc"; "1.5"] "1" 1
              ["nike"; "air max"; "black"; "athletic"; "10.5"]
              (terminal ["abc"; "1.5"; "1"; "nike"; "air max"; "black";
                         "athletic"; "10.5"])) as (E & _ & _ & R).
  - repeat constructor.
  - reflexivity.
  - reflexivity.
  - vm_compute. lia.
  - split; [|exact R]. rewrite E. vm_compute. reflexivity.
Defined.

(* ================================================================== *)
(** * The lines typed *)
(* ================================================================== *)

Lemma length_range (lo hi : Z) : List.length (range lo hi) = Z.to_nat (hi - lo).
Proof. unfold range. now rewrite length_map, length_seq. Qed.

(** A collection from a later world, by the lines read before it. *)
Lemma typed_later {A} (w w1 : world) (used : list string)
    (P P' : list string -> A -> Prop) (o : outcome A) (w' : world) :
  stdin w = (used ++ stdin w1)%list ->
  (forall lines a, P lines a -> P' (used ++ lines)%list a) ->
  typed w1 P o w' -> typed w P' o w'.
Proof.
  intros E HP. destruct o as [a|e|]; simpl; auto.
  intros (lines & El & H). exists (used ++ lines)%list. split; [|auto].
  now rewrite E, El, app_assoc.
Qed.

Lemma typed_retried_later {A} (w w1 : world) (used : list string)
    (P P' : list string -> A -> Prop) (R R' : list string -> Prop)
    (o : outcome A) (w' : world) :
  stdin w = (used ++ stdin w1)%list ->
  (forall lines a, P lines a -> P' (used ++ lines)%list a) ->
  (forall lines, R lines -> R' (used ++ lines)%list) ->
  typed_retried w1 P R o w' -> typed_retried w P' R' o w'.
Proof.
  intros E HP HR. destruct o as [a|[ | | | | | | ]|]; simpl; auto.
  - intros (lines & El & H). exists (used ++ lines)%list. split; [|auto].
    now rewrite E, El, app_assoc.
  - intros (lines & El & H). exists (used ++ lines)%list. split; [|auto].
    now rewrite E, El, app_assoc.
Qed.

(** The usage loop read the answers it refused and the one it took. *)
Lemma usage_loop_typed (fuel : nat) (w : world) :
  List.length (stdin w) < fuel ->
  wp (usage_loop fuel)
     (typed w (fun lines u =>
                 exists refused good,
                   lines = (refused ++ [good])%list
                   /\ Forall (fun l => ~ In (capitalize (strip l)) usages)
                             refused
                   /\ In (capitalize (strip good)) usages
                   /\ u = capitalize (strip good))) w.
Proof.
  revert w. induction fuel as [|fuel IH]; intros w Hlen; [lia|].
  cbn [usage_loop]. apply wp_bind, wp_input.
  - intros _. exact I.
  - intros l rest E.
    destruct (str_in (capitalize (strip l)) usages) eqn:Hu.
    + apply wp_ret. exists [l]. split; [cbn; now rewrite E|].
      exists [], l. repeat split; [constructor|now apply str_in_In].
    + apply wp_bind, wp_print.
      eapply wp_conseq; [apply IH; cbn; rewrite E in Hlen; simpl in Hlen; lia|].
      intros o w'. apply (typed_later _ _ [l]); [cbn; now rewrite E|].
      intros lines u (refused & good & -> & Hr & Hg & ->).
      exists (l :: refused), good. repeat split; try assumption.
      constructor; [|exact Hr]. intros H. apply str_in_In in H. congruence.
Qed.

Lemma ask_usage_typed (w : world) :
  wp ask_usage
     (typed w (fun lines u =>
                 exists refused good,
                   lines = (refused ++ [good])%list
                   /\ Forall (fun l => ~ In (capitalize (strip l)) usages)
                             refused
                   /\ In (capitalize (strip good)) usages
                   /\ u = capitalize (strip good))) w.
Proof.
  unfold ask_usage.
  exact (usage_loop_typed (S (List.length (stdin w))) w (Nat.lt_succ_diag_r _)).
Qed.

(** One turn of the loop over the shoes reads the answers for one shoe
    and appends the record made of them. *)
Lemma shoe_prompts_typed (i : Z) (shoes : list shoe) (w : world) :
  wp (shoe_prompts i shoes)
     (typed w (fun lines shoes' =>
                 exists a, lines = answer_lines a /\ well_answered a
                           /\ shoes' = (shoes ++ [shoe_of a])%list)) w.
Proof.
  unfold shoe_prompts.
  apply wp_bind, wp_print.
  apply wp_bind, wp_input; [intros _; exact I|]. intros l1 r1 E1.
  apply wp_bind, wp_input; [intros _; exact I|]. intros l2 r2 E2.
  apply wp_bind, wp_input; [intros _; exact I|]. intros l3 r3 E3.
  cbn in E1, E2, E3.
  apply wp_bind.
  eapply wp_conseq; [apply ask_usage_typed|].
  intros [u| [ | | | | | | ] |] w4; cbn [typed]; try tauto.
  intros (lines & E4 & refused & good & -> & Hr & Hg & ->). cbn in E4.
  apply wp_bind, wp_input; [intros _; exact I|]. intros l5 r5 E5.
  cbn in E5.
  assert (Hl : stdin w
               = (answer_lines (mkAnswers l1 l2 l3 refused good l5) ++ r5)%list).
  { unfold answer_lines; cbn. rewrite E1, E2, E3, E4, E5.
    now rewrite <- !app_assoc. }
  apply wp_bind, wp_try. unfold py_float.
  destruct (float_of_string (strip l5)) as [f|] eqn:Ef.
  - apply wp_bind, wp_ret, wp_ret, wp_ret.
    eexists. split; [exact Hl|]. eexists. split; [reflexivity|].
    split; [now split|]. unfold shoe_of, size_of_token.
    cbn [a_brand a_name a_color a_usage a_size]. now rewrite Ef.
  - apply wp_bind, wp_raise. apply wp_bind, wp_print, wp_ret, wp_ret.
    eexists. split; [exact Hl|]. eexists. split; [reflexivity|].
    split; [now split|]. unfold shoe_of, size_of_token.
    cbn [a_brand a_name a_color a_usage a_size]. now rewrite Ef.
Qed.

(** The loop over the shoes reads the answers shoe by shoe. *)
Lemma shoe_loop_typed (idx : list Z) (shoes : list shoe) (w : world) :
  wp (for_list idx shoe_prompts shoes)
     (typed w (fun lines shoes' =>
                 exists ans,
                   List.length ans = List.length idx
                   /\ lines = flat_map answer_lines ans
                   /\ Forall well_answered ans
                   /\ shoes' = (shoes ++ map shoe_of ans)%list)) w.
Proof.
  revert shoes w. induction idx as [|i idx IH]; intros shoes w.
  - apply wp_ret. exists []. split; [reflexivity|]. exists [].
    repeat split; [constructor|now rewrite app_nil_r].
  - cbn [for_list]. apply wp_bind.
    eapply wp_conseq; [apply shoe_prompts_typed|].
    intros [shoes1| [ | | | | | | ] |] w1; cbn [typed]; try tauto.
    intros (lines & E1 & a & -> & Ha & ->).
    eapply wp_conseq; [apply IH|].
    intros o w'. apply (typed_later _ _ (answer_lines a)); [exact E1|].
    intros lines ss (ans & Hl & -> & Hw & ->).
    exists (a :: ans). cbn [List.length flat_map map].
    repeat split; [now rewrite Hl|now constructor|].
    now rewrite <- app_assoc.
Qed.

(** The collector read the counts [int] refused, the count it took and
    the answers for that many shoes, and its records are made of those
    answers, in their order. *)
Lemma get_shoe_data_rec_typed (depth : nat) (w : world) :
  wp (get_shoe_data_rec depth)
     (typed_retried w (fun lines shoes =>
        exists refused count n ans,
          lines = transcript refused count ans
          /\ Forall (fun l => int_of_string l = None) refused
          /\ List.length refused <= depth
          /\ int_of_string count = Some n
          /\ List.length ans = Z.to_nat n
          /\ Forall well_answered ans
          /\ shoes = map shoe_of ans)
        (fun lines =>
           Forall (fun l => int_of_string l = None) lines
           /\ List.length lines = S depth)) w.
Proof.
  revert w. induction depth as [|depth IH]; intros w;
    cbn [get_shoe_data_rec]; apply wp_try, wp_bind, wp_input;
    try (intros _; exact I); intros l rest E; cbn in E;
    apply wp_bind; unfold py_int; destruct (int_of_string l) as [n|] eqn:Hl.
  1, 3: apply wp_ret; eapply wp_conseq; [apply shoe_loop_typed|];
    intros [shoes| [ | | | | | | ] |] w1; cbn [typed]; try tauto;
    intros (lines & E1 & ans & Hlen & -> & Hw & ->); cbn in E1;
    exists (l :: flat_map answer_lines ans); split;
    [cbn; now rewrite E, E1|];
    exists [], l, n, ans; rewrite length_range in Hlen;
    repeat split; try assumption;
    [constructor|cbn; lia|rewrite Hlen; f_equal; lia].
  - apply wp_raise. apply wp_bind, wp_print. apply wp_bind, wp_print, wp_raise.
    exists [l]. split; [cbn; now rewrite E|]. split; [now constructor|reflexivity].
  - apply wp_raise. apply wp_bind, wp_print.
    eapply wp_conseq; [apply IH|].
    intros o w'. apply (typed_retried_later _ _ [l]); [cbn; now rewrite E| |].
    + intros lines shoes
             (refused & count & m & ans & -> & Hr & Hd & Hc & Ha & Hw & ->).
      exists (l :: refused), count, m, ans. repeat split; try assumption.
      * now constructor.
      * cbn. lia.
    + intros lines [Hr Hn]. split; [now constructor|cbn; now rewrite Hn].
Qed.

(* ================================================================== *)
(** * Sizes *)
(* ================================================================== *)

Lemma row_sizes (rows : list string) :
  Forall2 (fun line s => size s = size_of_token (strip (field 4 line)))
          rows (map row_shoe rows).
Proof.
  induction rows as [|r rows IH]; cbn [map]; constructor; [reflexivity|exact IH].
Qed.

(** C7 as stated fails: the row [nike,air max,black,athletic,-5] is
    collected with the size -5, which is below zero. *)
Lemma negative_size_collected :
  read_shoe_data_from_file "shoes.txt"
    (world_with true [] "shoes.txt" negative_text)
  = (Ret (Some [mkShoe "Nike" "Air max" "Black" "Athletic"
                       (PFloat (FFin true 5 0))]),
     world_with true [] "shoes.txt" negative_text)
  /\ ~ nonneg_real (PFloat (FFin true 5 0)).
Proof.
  split; [vm_compute; reflexivity|].
  cbn. intros [H|H]; discriminate.
Qed.

(** C7, amended. The size of every record of either collector is what
    [float] returns for the record's size input, whatever float that is,
    and the int 0 when [float] rejects the input.  For the file
    collector the input is the fifth field of the record's row.  For the
    interactive collector it is the line typed at the record's size
    prompt: the lines read are the counts refused, the count, and for
    each record in turn the answers for brand, name, color, usage (the
    refused ones then the accepted one) and size. *)
Theorem sizes_are_float_or_zero :
  (forall filename w shoes w',
      read_shoe_data_from_file filename w = (Ret (Some shoes), w') ->
      exists content,
        fs w filename = Text content
        /\ Forall2 (fun line s =>
                      size s = size_of_token (strip (field 4 line)))
                   (data_rows content) shoes)
  /\ (forall w shoes w',
         get_shoe_data w = (Ret shoes, w') ->
         exists refused count ans,
           stdin w = (transcript refused count ans ++ stdin w')%list
           /\ Forall (fun l => int_of_string l = None) refused
           /\ int_of_string count <> None
           /\ Forall well_answered ans
           /\ Forall2 (fun a s => size s = size_of_token (strip (a_size a)))
                      ans shoes).
Proof.
  split.
  - intros filename w shoes w' H.
    destruct (fs w filename) as [|why|content] eqn:Hf.
    + rewrite (read_missing _ _ Hf) in H. discriminate.
    + rewrite (read_unreadable _ _ _ Hf) in H. discriminate.
    + exists content. split; [reflexivity|].
      rewrite (read_text _ _ _ Hf) in H.
      destruct (data_rows content) as [|r rows]; [discriminate|].
      injection H as <- _. apply row_sizes.
  - intros w shoes w' H.
    pose proof (get_shoe_data_rec_typed (stack w) w) as C. unfold wp in C.
    fold (get_shoe_data w) in C. rewrite H in C. cbn in C.
    destruct C as (lines & El & refused & count & n & ans
                   & -> & Hr & _ & Hc & _ & Hw & ->).
    exists refused, count, ans. repeat split; try assumption.
    + congruence.
    + clear. induction ans as [|a ans IH]; cbn [map]; constructor;
        [reflexivity|exact IH].
Qed.

(** A file with a size that is no number, and a session in which the
    usage of the first shoe is refused once: the sizes are those of the
    fifth fields and of the lines typed at the two size prompts. *)
Lemma sizes_are_float_or_zero_witness :
  (exists content,
      fs (world_with true [] "shoes.txt" three_rows_text) "shoes.txt"
      = Text content
      /\ Forall2 (fun line s => size s = size_of_token (strip (field 4 line)))
                 (data_rows content) three_rows)
  /\ (exists refused count ans,
         ["two"; "2"; "nike"; "air max"; "black"; "running"; "athletic"; "-5";
          "adidas"; "superstar"; "white"; "casual"; "big"; "n"]
         = (transcript refused count ans ++ ["n"])%list
         /\ Forall (fun l => int_of_string l = None) refused
         /\ int_of_string count <> None
         /\ Forall well_answered ans
         /\ Forall2 (fun a s => size s = size_of_token (strip (a_size a)))
                    ans
                    [mkShoe "Nike" "Air max" "Black" "Athletic"
                            (PFloat (FFin true 5 0));
                     mkShoe "Adidas" "Superstar" "White" "Casual" (PInt 0)]).
Proof.
  destruct sizes_are_float_or_zero as (F & I).
  split.
  - apply (F "shoes.txt" (world_with true [] "shoes.txt" three_rows_text) _
             (prints [usage_warning "Hiking"; size_warning "ten"]
                     (world_with true [] "shoes.txt" three_rows_text))).
    vm_compute. reflexivity.
  - apply (I (terminal ["two"; "2"; "nike"; "air max"; "black"; "running";
                        "athletic"; "-5"; "adidas"; "superstar"; "white";
                        "casual"; "big"; "n"])
             [mkShoe "Nike" "Air max" "Black" "Athletic"
                     (PFloat (FFin true 5 0));
              mkShoe "Adidas" "Superstar" "White" "Casual" (PInt 0)]
             (snd (get_shoe_data
                     (terminal ["two"; "2"; "nike"; "air max"; "black";
                                "running"; "athletic"; "-5"; "adidas";
                                "superstar"; "white"; "casual"; "big"; "n"])))).
    vm_compute. reflexivity.
Defined.

(* ================================================================== *)
(** * The brand by usage table *)
(* ================================================================== *)

Lemma label_lt_irrefl (x : string) : ~ String_as_OT.lt x x.
Proof. exact (StrictOrder_Irreflexive x). Qed.

Lemma label_lt_trans (x y z : string) : String_as_OT.lt x y -> String_as_OT.lt y z -> String_as_OT.lt x z.
Proof. exact (StrictOrder_Transitive x y z). Qed.

Lemma In_insert_label (x y : string) (l : list string) :
  In y (insert_label x l) <-> y = x \/ In y l.
Proof.
  induction l as [|a l IH]; simpl.
  - intuition congruence.
  - destruct (String_as_OT.compare_spec x a) as [E|L|G]; simpl.
    + subst. intuition congruence.
    + intuition congruence.
    + rewrite IH. intuition congruence.
Qed.

Lemma insert_label_sorted (x : string) (l : list string) :
  StronglySorted String_as_OT.lt l -> StronglySorted String_as_OT.lt (insert_label x l).
Proof.
  induction 1 as [|a l Hs IH Ha]; simpl.
  - repeat constructor.
  - destruct (String_as_OT.compare_spec x a) as [E|L|G].
    + now constructor.
    + constructor; [now constructor|]. constructor; [exact L|].
      eapply Forall_impl; [|exact Ha]. intros b Hb.
      eapply label_lt_trans; eassumption.
    + constructor; [exact IH|]. apply Forall_forall. intros b Hb.
      apply In_insert_label in Hb as [->|Hb]; [exact G|].
      rewrite Forall_forall in Ha. now apply Ha.
Qed.

Lemma sorted_unique_sorted (l : list string) :
  StronglySorted String_as_OT.lt (sorted_unique l).
Proof.
  induction l as [|x l IH]; simpl; [constructor|now apply insert_label_sorted].
Qed.

Lemma In_sorted_unique (x : string) (l : list string) :
  In x (sorted_unique l) <-> In x l.
Proof.
  induction l as [|a l IH]; simpl; [tauto|].
  rewrite In_insert_label, IH. intuition congruence.
Qed.

Lemma sorted_NoDup (l : list string) : StronglySorted String_as_OT.lt l -> NoDup l.
Proof.
  induction 1 as [|a l Hs IH Ha]; constructor; [|exact IH].
  intros Hin. rewrite Forall_forall in Ha.
  exact (label_lt_irrefl a (Ha a Hin)).
Qed.

Lemma sorted_unique_NoDup (l : list string) : NoDup (sorted_unique l).
Proof. apply sorted_NoDup, sorted_unique_sorted. Qed.

(** An increasing list is determined by its elements. *)
Lemma sorted_ext (l1 : list string) :
  forall l2,
    StronglySorted String_as_OT.lt l1 -> StronglySorted String_as_OT.lt l2 ->
    (forall x, In x l1 <-> In x l2) -> l1 = l2.
Proof.
  induction l1 as [|a l1 IH]; intros [|b l2] H1 H2 Hin.
  - reflexivity.
  - destruct (proj2 (Hin b) (or_introl eq_refl)).
  - destruct (proj1 (Hin a) (or_introl eq_refl)).
  - inversion H1 as [|? ? S1 F1]; inversion H2 as [|? ? S2 F2]; subst.
    rewrite Forall_forall in F1, F2.
    assert (a = b) as ->.
    { destruct (proj1 (Hin a) (or_introl eq_refl)) as [E|Ha]; [now symmetry|].
      destruct (proj2 (Hin b) (or_introl eq_refl)) as [E|Hb]; [exact E|].
      exfalso. apply (label_lt_irrefl a).
      eapply label_lt_trans; [apply F1, Hb|apply F2, Ha]. }
    f_equal. apply IH; [assumption|assumption|].
    intros x. split; intros Hx.
    + destruct (proj1 (Hin x) (or_intror Hx)) as [E|Hx']; [|exact Hx'].
      subst. exfalso. exact (label_lt_irrefl x (F1 x Hx)).
    + destruct (proj2 (Hin x) (or_intror Hx)) as [E|Hx']; [|exact Hx'].
      subst. exfalso. exact (label_lt_irrefl x (F2 x Hx)).
Qed.

(** The index that [crosstab] builds depends on the labels present, not
    on their order or number. *)
Lemma sorted_unique_ext (l1 l2 : list string) :
  (forall x, In x l1 <-> In x l2) -> sorted_unique l1 = sorted_unique l2.
Proof.
  intros H. apply sorted_ext; try apply sorted_unique_sorted.
  intros x. now rewrite !In_sorted_unique.
Qed.


(** ** Row totals *)

Lemma list_sum_map_add {A} (f g : A -> nat) (l : list A) :
  list_sum (map (fun x => f x + g x) l)
  = list_sum (map f l) + list_sum (map g l).
Proof. induction l as [|a l IH]; simpl; [reflexivity|]. rewrite IH. lia. Qed.

Lemma list_sum_map_zero {A} (l : list A) : list_sum (map (fun _ => 0) l) = 0.
Proof. induction l; simpl; auto. Qed.

Lemma indicator_sum_absent (x : string) (l : list string) :
  ~ In x l ->
  list_sum (map (fun u => if String.eqb x u then 1 else 0) l) = 0.
Proof.
  induction l as [|a l IH]; simpl; [reflexivity|]. intros H.
  destruct (String.eqb_spec x a) as [->|_]; [exfalso; apply H; now left|].
  apply IH. intros Hin. apply H. now right.
Qed.

Lemma indicator_sum_present (x : string) (l : list string) :
  NoDup l -> In x l ->
  list_sum (map (fun u => if String.eqb x u then 1 else 0) l) = 1.
Proof.
  induction 1 as [|a l Ha Hl IH]; simpl; [contradiction|].
  intros [->|Hin].
  - rewrite String.eqb_refl, indicator_sum_absent; auto.
  - destruct (String.eqb_spec x a) as [->|_]; [contradiction|]. now apply IH.
Qed.

(** The cells of a brand's row add up to the number of its records. *)
Lemma row_total (b : string) (columns : list string) (df : dataframe) :
  NoDup columns ->
  (forall s, In s df -> In (usage s) columns) ->
  list_sum (map (fun u => count_cell b u df) columns) = count_brand b df.
Proof.
  intros Hn. induction df as [|s df IH]; intros Hc.
  - unfold count_cell, count_brand. simpl. apply list_sum_map_zero.
  - rewrite (map_ext _ (fun u =>
               (if String.eqb (brand s) b
                then if String.eqb (usage s) u then 1 else 0 else 0)
               + count_cell b u df)).
    + rewrite list_sum_map_add, IH by (intros; apply Hc; now right).
      unfold count_brand. simpl.
      destruct (String.eqb (brand s) b); simpl.
      * rewrite indicator_sum_present; [reflexivity|exact Hn|].
        apply Hc. now left.
      * now rewrite list_sum_map_zero.
    + intros u. unfold count_cell. simpl.
      destruct (String.eqb (brand s) b), (String.eqb (usage s) u); reflexivity.
Qed.

(** ** Sorting by total *)

Lemma StronglySorted_app {A} (R : A -> A -> Prop) (l1 l2 : list A) :
  StronglySorted R l1 -> StronglySorted R l2 ->
  (forall x y, In x l1 -> In y l2 -> R x y) ->
  StronglySorted R (l1 ++ l2).
Proof.
  induction 1 as [|a l1 Hs IH Ha]; intros H2 H; simpl; [exact H2|].
  constructor.
  - apply IH; [exact H2|]. intros x y Hx. apply H. now right.
  - apply Forall_app. split; [exact Ha|].
    apply Forall_forall. intros y Hy. apply H; [now left|exact Hy].
Qed.

Lemma StronglySorted_app_inv {A} (R : A -> A -> Prop) (l1 l2 : list A) :
  StronglySorted R (l1 ++ l2) ->
  StronglySorted R l1 /\ StronglySorted R l2
  /\ forall x y, In x l1 -> In y l2 -> R x y.
Proof.
  induction l1 as [|a l1 IH]; simpl; intros H.
  - repeat split; [constructor|exact H|contradiction].
  - inversion H as [|? ? Hs Ha]; subst.
    destruct (IH Hs) as (S1 & S2 & C). apply Forall_app in Ha as [Ha1 Ha2].
    repeat split; [now constructor|exact S2|].
    intros x y [->|Hx] Hy; [|now apply C].
    rewrite Forall_forall in Ha2. now apply Ha2.
Qed.

Lemma StronglySorted_rev {A} (R : A -> A -> Prop) (l : list A) :
  StronglySorted R l -> StronglySorted (fun a b => R b a) (rev l).
Proof.
  induction 1 as [|a l Hs IH Ha]; simpl; [constructor|].
  apply StronglySorted_app; [exact IH|repeat constructor|].
  intros x y Hx [<-|[]]. apply in_rev in Hx.
  rewrite Forall_forall in Ha. now apply Ha.
Qed.

Lemma StronglySorted_map {A B} (f : A -> B) (R : B -> B -> Prop) (l : list A) :
  StronglySorted (fun x y => R (f x) (f y)) l -> StronglySorted R (map f l).
Proof.
  induction 1 as [|a l Hs IH Ha]; simpl; constructor; [exact IH|].
  apply Forall_map. exact Ha.
Qed.

Lemma insert_by_count_perm (x : string * nat) (l : list (string * nat)) :
  Permutation (insert_by_count x l) (x :: l).
Proof.
  induction l as [|y l IH]; simpl; [reflexivity|].
  destruct (snd x <=? snd y); [reflexivity|].
  rewrite IH. apply perm_swap.
Qed.

Lemma argsort_perm (l : list (string * nat)) : Permutation (argsort l) l.
Proof.
  induction l as [|x l IH]; simpl; [reflexivity|].
  rewrite insert_by_count_perm. now constructor.
Qed.

Lemma insert_by_count_sorted (x : string * nat) (l : list (string * nat)) :
  StronglySorted (fun a b => snd a <= snd b) l ->
  StronglySorted (fun a b => snd a <= snd b) (insert_by_count x l).
Proof.
  induction 1 as [|y l Hs IH Hy]; simpl; [repeat constructor|].
  destruct (snd x <=? snd y) eqn:E.
  - apply Nat.leb_le in E. constructor; [now constructor|].
    constructor; [exact E|]. eapply Forall_impl; [|exact Hy].
    cbn. intros; lia.
  - apply Nat.leb_gt in E. constructor; [exact IH|].
    apply Forall_forall. intros z Hz.
    apply (Permutation_in _ (insert_by_count_perm x l)) in Hz.
    destruct Hz as [<-|Hz]; [lia|].
    rewrite Forall_forall in Hy. now apply Hy.
Qed.

Lemma argsort_sorted (l : list (string * nat)) :
  StronglySorted (fun a b => snd a <= snd b) (argsort l).
Proof.
  induction l as [|x l IH]; simpl; [constructor|].
  now apply insert_by_count_sorted.
Qed.

Lemma sort_values_desc_perm (l : list (string * nat)) :
  Permutation (sort_values_desc l) l.
Proof.
  unfold sort_values_desc.
  rewrite <- Permutation_rev, argsort_perm. symmetry. apply Permutation_rev.
Qed.

Lemma sort_values_desc_sorted (l : list (string * nat)) :
  StronglySorted (fun a b => snd b <= snd a) (sort_values_desc l).
Proof.
  unfold sort_values_desc.
  apply (StronglySorted_rev (fun a b => snd a <= snd b)), argsort_sorted.
Qed.

(** ** Selecting rows by label *)

Lemma filter_label {B} (f : string -> B) (index : list string) (b : string) :
  NoDup index -> In b index ->
  filter (fun r => String.eqb (fst r) b) (map (fun x => (x, f x)) index)
  = [(b, f b)].
Proof.
  induction 1 as [|a index Ha Hn IH]; simpl; [contradiction|].
  intros [->|Hin].
  - rewrite String.eqb_refl. f_equal.
    clear IH Hn. induction index as [|c index IH]; simpl; [reflexivity|].
    destruct (String.eqb_spec c b) as [->|_]; [exfalso; apply Ha; now left|].
    apply IH. intros H. apply Ha. now right.
  - destruct (String.eqb_spec a b) as [->|_]; [contradiction|]. now apply IH.
Qed.

Lemma loc_index (f : string -> list nat) (index labels : list string) :
  NoDup index -> incl labels index ->
  loc (map (fun x => (x, f x)) index) labels = map (fun x => (x, f x)) labels.
Proof.
  intros Hn. induction labels as [|b labels IH]; intros Hi; [reflexivity|].
  unfold loc in *. simpl. rewrite filter_label; [|exact Hn|apply Hi; now left].
  simpl. f_equal. apply IH. intros x Hx. apply Hi. now right.
Qed.

Lemma In_head {A} (n : nat) (l : list A) (x : A) :
  In x (firstn n l) -> In x l.
Proof.
  intros H. rewrite <- (firstn_skipn n l). apply in_or_app. now left.
Qed.

(** ** The table of the fifth chart *)

Lemma crosstab_totals (df : dataframe) :
  map (fun r => (fst r, row_sum r)) (crosstab df)
  = map (fun b => (b, count_brand b df)) (sorted_unique (map brand df)).
Proof.
  unfold crosstab. rewrite map_map. apply map_ext. intros b.
  unfold row_sum. cbn [fst snd]. f_equal.
  apply row_total; [apply sorted_unique_NoDup|].
  intros s Hs. apply In_sorted_unique, in_map, Hs.
Qed.

Lemma count_cell_perm (b u : string) (df df' : dataframe) :
  Permutation df df' -> count_cell b u df = count_cell b u df'.
Proof.
  unfold count_cell. induction 1 as [|s l l' _ IH|s s' l|l l' l'' _ IH1 _ IH2];
    simpl.
  - reflexivity.
  - destruct (String.eqb (brand s) b && String.eqb (usage s) u); simpl; lia.
  - destruct (String.eqb (brand s) b && String.eqb (usage s) u),
      (String.eqb (brand s') b && String.eqb (usage s') u); reflexivity.
  - lia.
Qed.

(** The cross tabulation does not see the order of the records. *)
Lemma crosstab_perm (df df' : dataframe) :
  Permutation df df' -> crosstab df = crosstab df'.
Proof.
  intros H. unfold crosstab.
  assert (Hl : forall (f : shoe -> string),
             sorted_unique (map f df) = sorted_unique (map f df')).
  { intros f. apply sorted_unique_ext. intros x.
    split; apply Permutation_in; [|symmetry]; now apply Permutation_map. }
  rewrite !Hl. apply map_ext. intros b. f_equal. apply map_ext. intros u.
  now apply count_cell_perm.
Qed.

(** The table is the rows of some labels: those of the first eight
    totals in decreasing order. *)
Lemma brand_usage_top8_rows (df : dataframe) :
  exists labels,
    brand_usage_top8 df
    = map (fun b => (b, map (fun u => count_cell b u df)
                            (sorted_unique (map usage df)))) labels
    /\ map (fun b => (b, count_brand b df)) labels
       = firstn 8 (sort_values_desc
                     (map (fun b => (b, count_brand b df))
                          (sorted_unique (map brand df))))
    /\ incl labels (sorted_unique (map brand df)).
Proof.
  unfold brand_usage_top8, head. rewrite crosstab_totals.
  set (index := sorted_unique (map brand df)).
  set (totals := map (fun b => (b, count_brand b df)) index).
  set (top := firstn 8 (sort_values_desc totals)).
  assert (Htop : forall p, In p top ->
                           In (fst p) index /\ p = (fst p, count_brand (fst p) df)).
  { intros p Hp. unfold top in Hp. apply In_head in Hp.
    apply (Permutation_in _ (sort_values_desc_perm totals)) in Hp.
    unfold totals in Hp. apply in_map_iff in Hp as (b & <- & Hb).
    now split. }
  exists (map fst top). split; [|split].
  - unfold crosstab. fold index. apply loc_index.
    + apply sorted_unique_NoDup.
    + intros b Hb. apply in_map_iff in Hb as (p & <- & Hp). now apply Htop.
  - rewrite map_map. rewrite <- (map_id top) at 2. apply map_ext_in.
    intros p Hp. symmetry. now apply Htop.
  - intros b Hb. apply in_map_iff in Hb as (p & <- & Hp). now apply Htop.
Qed.

(** C2 as stated fails: Zara is met before Adidas, both have one record,
    and the table lists Adidas first. *)
Lemma ties_not_by_encounter :
  brand_usage_top8 zara_then_adidas = [("Adidas", [1; 0]); ("Zara", [0; 1])]
  /\ ~ ties_by_encounter zara_then_adidas (brand_usage_top8 zara_then_adidas).
Proof.
  split; [reflexivity|]. intros H.
  specialize (H 0 1 ("Adidas", [1; 0]) ("Zara", [0; 1])
                (Nat.lt_0_succ 0) eq_refl eq_refl eq_refl).
  cbn in H. lia.
Qed.

(** C2, amended. The table has at most eight rows (all the brands when
    there are fewer), of distinct brands of the records; the total of a
    row is the number of records of its brand; the rows come in
    decreasing order of total and no brand left out has more records
    than a brand kept.  The order among equal totals is not that of
    first encounter: the table is the same for every reordering of the
    records. *)
Theorem brand_usage_top8_spec (df : dataframe) :
  let t := brand_usage_top8 df in
  List.length t = Nat.min 8 (List.length (sorted_unique (map brand df)))
  /\ List.length t <= 8
  /\ NoDup (map fst t)
  /\ (forall r, In r t ->
                In (fst r) (map brand df)
                /\ row_sum r = count_brand (fst r) df)
  /\ StronglySorted (fun r1 r2 => row_sum r2 <= row_sum r1) t
  /\ (forall b r, In b (map brand df) -> ~ In b (map fst t) -> In r t ->
                  count_brand b df <= row_sum r)
  /\ (forall df', Permutation df df' -> brand_usage_top8 df' = t).
Proof.
  cbv zeta.
  destruct (brand_usage_top8_rows df) as (labels & Ht & Htop & Hincl).
  set (index := sorted_unique (map brand df)) in *.
  set (columns := sorted_unique (map usage df)) in *.
  set (totals := map (fun b => (b, count_brand b df)) index) in *.
  assert (Hsum : forall b, row_sum (b, map (fun u => count_cell b u df) columns)
                           = count_brand b df).
  { intros b. unfold row_sum. cbn [snd]. apply row_total.
    - apply sorted_unique_NoDup.
    - intros s Hs. apply In_sorted_unique, in_map, Hs. }
  assert (Hfst : map fst (brand_usage_top8 df) = labels).
  { rewrite Ht, map_map. cbn [fst]. apply map_id. }
  assert (Hlabels : labels = map fst (firstn 8 (sort_values_desc totals))).
  { rewrite <- Htop, map_map. cbn [fst]. symmetry. apply map_id. }
  assert (Hperm : Permutation (map fst (sort_values_desc totals)) index).
  { rewrite (Permutation_map fst (sort_values_desc_perm totals)).
    unfold totals. rewrite map_map. cbn [fst]. now rewrite map_id. }
  assert (Hlen : List.length (brand_usage_top8 df)
                 = Nat.min 8 (List.length index)).
  { rewrite <- (length_map fst), Hfst, Hlabels, length_map, length_firstn.
    rewrite <- (length_map fst (sort_values_desc totals)).
    now rewrite (Permutation_length Hperm). }
  split; [exact Hlen|]. split; [rewrite Hlen; apply Nat.le_min_l|].
  split; [|split; [|split; [|split]]].
  - rewrite Hfst, Hlabels, <- firstn_map.
    assert (Hn : NoDup (map fst (sort_values_desc totals))).
    { eapply Permutation_NoDup; [symmetry; exact Hperm|].
      apply sorted_unique_NoDup. }
    rewrite <- (firstn_skipn 8 (map fst (sort_values_desc totals))) in Hn.
    now apply NoDup_app_remove_r in Hn.
  - intros r Hr. rewrite Ht in Hr. apply in_map_iff in Hr as (b & <- & Hb).
    cbn [fst]. split; [|apply Hsum].
    apply In_sorted_unique. now apply Hincl.
  - rewrite Ht. apply StronglySorted_map.
    assert (Hs : StronglySorted (fun a b => snd b <= snd a)
                   (map (fun b => (b, count_brand b df)) labels)).
    { rewrite Htop.
      pose proof (sort_values_desc_sorted totals) as S.
      rewrite <- (firstn_skipn 8 (sort_values_desc totals)) in S.
      now apply StronglySorted_app_inv in S. }
    clear - Hs Hsum. induction labels as [|b labels IH]; [constructor|].
    simpl in Hs. inversion Hs as [|? ? Hs' Hb]; subst.
    constructor; [now apply IH|].
    apply Forall_forall. intros c Hc. rewrite !Hsum.
    rewrite Forall_forall in Hb.
    exact (Hb _ (in_map (fun x => (x, count_brand x df)) _ _ Hc)).
  - intros b r Hb Hnot Hr.
    rewrite Ht in Hr. apply in_map_iff in Hr as (c & <- & Hc). rewrite Hsum.
    rewrite Hfst in Hnot.
    assert (Hin : In (b, count_brand b df) (sort_values_desc totals)).
    { apply (Permutation_in _ (Permutation_sym (sort_values_desc_perm totals))).
      unfold totals. apply (in_map (fun x => (x, count_brand x df))).
      unfold index. now apply In_sorted_unique. }
    pose proof (sort_values_desc_sorted totals) as S.
    rewrite <- (firstn_skipn 8 (sort_values_desc totals)) in S, Hin.
    apply StronglySorted_app_inv in S as (_ & _ & S).
    apply in_app_or in Hin as [Hin|Hin].
    + exfalso. apply Hnot. rewrite Hlabels.
      apply (in_map fst) in Hin. exact Hin.
    + apply (S (c, count_brand c df) (b, count_brand b df)); [|exact Hin].
      rewrite <- Htop. exact (in_map (fun x => (x, count_brand x df)) _ _ Hc).
  - intros df' Hp. unfold brand_usage_top8.
    now rewrite (crosstab_perm _ _ Hp).
Qed.

Lemma brand_usage_top8_spec_witness :
  List.length (brand_usage_top8 zara_then_adidas) <= 8
  /\ brand_usage_top8 (rev zara_then_adidas)
     = brand_usage_top8 zara_then_adidas.
Proof.
  destruct (brand_usage_top8_spec zara_then_adidas)
    as (_ & L & _ & _ & _ & _ & P).
  split; [exact L|]. apply P. apply Permutation_rev.
Defined.

(* ================================================================== *)
(** * Floats: what [repr] prints, [float] reads back *)
(* ================================================================== *)

Lemma append_assoc (a b c : string) : ((a ++ b) ++ c = a ++ (b ++ c))%string.
Proof. induction a as [|x a IH]; simpl; [reflexivity|now rewrite IH]. Qed.

Lemma append_nil_r (a : string) : (a ++ "")%string = a.
Proof. induction a as [|x a IH]; simpl; [reflexivity|now rewrite IH]. Qed.

Lemma length_append (a b : string) :
  String.length (a ++ b) = String.length a + String.length b.
Proof. induction a as [|x a IH]; simpl; [reflexivity|now rewrite IH]. Qed.

Lemma str_all_append (p : ascii -> bool) (a b : string) :
  str_all p (a ++ b) = str_all p a && str_all p b.
Proof.
  induction a as [|x a IH]; simpl; [reflexivity|].
  now rewrite IH, andb_assoc.
Qed.

Lemma str_all_impl (p q : ascii -> bool) (s : string) :
  (forall c, p c = true -> q c = true) ->
  str_all p s = true -> str_all q s = true.
Proof.
  intros H. induction s as [|c s IH]; simpl; [reflexivity|].
  intros E. apply andb_prop in E as [E1 E2]. now rewrite (H c E1), IH.
Qed.

Lemma digits_val_append (acc : N) (a b : string) :
  digits_val acc (a ++ b) = digits_val (digits_val acc a) b.
Proof. revert acc. induction a as [|x a IH]; intros acc; simpl; auto. Qed.

Lemma digits_val_shift (acc : N) (s : string) :
  (digits_val acc s
   = acc * 10 ^ N.of_nat (String.length s) + digits_val 0 s)%N.
Proof.
  revert acc. induction s as [|c s IH]; intros acc.
  - simpl. lia.
  - cbn [digits_val String.length]. rewrite IH, (IH (0 * 10 + digit_val c)%N).
    rewrite Nat2N.inj_succ, N.pow_succ_r'. lia.
Qed.

(** A run of digits before text on which a digitpart stops is read
    whole. *)
Lemma digits_more_run (ds rest : string) :
  forall acc cnt,
    str_all isdigit ds = true -> stops rest ->
    digits_more acc cnt (ds ++ rest)
    = (digits_val acc ds, cnt + String.length ds, rest).
Proof.
  induction ds as [|c ds IH]; intros acc cnt Hd Hs.
  - simpl. rewrite Nat.add_0_r. destruct rest as [|c rest]; [reflexivity|].
    destruct Hs as [H1 H2]. simpl. now rewrite H1, H2.
  - simpl in Hd. apply andb_prop in Hd as [Hc Hd].
    cbn [append digits_more digits_val String.length]. rewrite Hc.
    rewrite IH by assumption. f_equal. f_equal. lia.
Qed.

Lemma digitpart_run (ds rest : string) (acc : N) :
  ds <> EmptyString -> str_all isdigit ds = true -> stops rest ->
  digitpart acc (ds ++ rest)
  = Some (digits_val acc ds, String.length ds, rest).
Proof.
  destruct ds as [|c ds]; [contradiction|]. intros _ Hd Hs.
  simpl in Hd. apply andb_prop in Hd as [Hc Hd].
  cbn [append digitpart digits_val String.length]. rewrite Hc.
  now rewrite digits_more_run.
Qed.

Lemma digit_char (k : N) :
  (k < 10)%N ->
  isdigit (ascii_of_N (48 + k)) = true /\ digit_val (ascii_of_N (48 + k)) = k.
Proof.
  intros H.
  assert (C : (k = 0 \/ k = 1 \/ k = 2 \/ k = 3 \/ k = 4 \/ k = 5 \/ k = 6
               \/ k = 7 \/ k = 8 \/ k = 9)%N) by lia.
  repeat destruct C as [->|C]; try subst k; split; reflexivity.
Qed.

(** The digits [digits_of] puts before [acc]. *)
Lemma digits_of_spec (fuel : nat) :
  forall n acc,
    (n < 10 ^ N.of_nat (S fuel))%N ->
    exists ds,
      digits_of (S fuel) n acc = (ds ++ acc)%string
      /\ ds <> EmptyString
      /\ str_all isdigit ds = true
      /\ digits_val 0 ds = n.
Proof.
  induction fuel as [|fuel IH]; intros n acc Hn;
    cbn [digits_of]; destruct (N.ltb_spec n 10) as [Hlt|Hge].
  - exists (String (ascii_of_N (48 + n mod 10)) EmptyString).
    rewrite N.mod_small by exact Hlt.
    destruct (digit_char n Hlt) as [D1 D2].
    repeat split;
      [discriminate|cbn [str_all]; now rewrite D1|cbn [digits_val]; rewrite D2; lia].
  - simpl in Hn. lia.
  - exists (String (ascii_of_N (48 + n mod 10)) EmptyString).
    rewrite N.mod_small by exact Hlt.
    destruct (digit_char n Hlt) as [D1 D2].
    repeat split;
      [discriminate|cbn [str_all]; now rewrite D1|cbn [digits_val]; rewrite D2; lia].
  - assert (Hm : (n mod 10 < 10)%N) by (apply N.mod_lt; lia).
    destruct (digit_char _ Hm) as [D1 D2].
    destruct (IH (n / 10)%N (String (ascii_of_N (48 + n mod 10)) acc))
      as (ds & E & Hne & Hd & Hv).
    { rewrite Nat2N.inj_succ, N.pow_succ_r' in Hn.
      apply N.Div0.div_lt_upper_bound. lia. }
    exists (ds ++ String (ascii_of_N (48 + n mod 10)) EmptyString)%string.
    repeat split.
    + cbn [digits_of] in E. rewrite E, append_assoc. reflexivity.
    + destruct ds; [contradiction|discriminate].
    + rewrite str_all_append, Hd. cbn [str_all]. now rewrite D1.
    + rewrite digits_val_append, Hv. cbn [digits_val]. rewrite D2.
      rewrite (N.div_mod n 10) at 3 by lia. lia.
Qed.

Lemma str_N_spec (n : N) :
  str_N n <> EmptyString
  /\ str_all isdigit (str_N n) = true
  /\ digits_val 0 (str_N n) = n.
Proof.
  unfold str_N.
  destruct (digits_of_spec (N.to_nat (N.log2 n)) n EmptyString)
    as (ds & E & Hne & Hd & Hv).
  - destruct (N.eq_dec n 0) as [->|Hz]; [reflexivity|].
    rewrite Nat2N.inj_succ, N2Nat.id.
    apply N.lt_le_trans with (2 ^ N.succ (N.log2 n))%N.
    + apply N.log2_spec. lia.
    + apply N.pow_le_mono_l. lia.
  - rewrite E, append_nil_r. auto.
Qed.

Lemma substring_all (s : string) : substring 0 (String.length s) s = s.
Proof. induction s as [|c s IH]; simpl; [reflexivity|now rewrite IH]. Qed.

Lemma substring_split (s : string) :
  forall k, k <= String.length s ->
            (substring 0 k s ++ substring k (String.length s - k) s)%string = s.
Proof.
  induction s as [|c s IH]; intros [|k] Hk; simpl in *; try lia.
  - reflexivity.
  - now rewrite substring_all.
  - rewrite IH by lia. reflexivity.
Qed.

Lemma length_substring_0 (s : string) :
  forall k, k <= String.length s -> String.length (substring 0 k s) = k.
Proof.
  induction s as [|c s IH]; intros [|k] Hk; simpl in *; try lia.
  now rewrite IH by lia.
Qed.

Lemma str_all_substring (p : ascii -> bool) (s : string) :
  forall a b, str_all p s = true -> str_all p (substring a b s) = true.
Proof.
  induction s as [|c s IH]; intros [|a] [|b] H; simpl in *;
    try reflexivity; apply andb_prop in H as [H1 H2];
    rewrite ?H1; simpl; auto.
Qed.

Lemma zeros_digits (k : nat) : str_all isdigit (zeros k) = true.
Proof. induction k as [|k IH]; [reflexivity|exact IH]. Qed.

Lemma length_zeros (k : nat) : String.length (zeros k) = k.
Proof.
  induction k as [|k IH]; [reflexivity|].
  unfold zeros in *. simpl. now rewrite IH.
Qed.

Lemma digits_val_zeros (k : nat) (acc : N) :
  (digits_val acc (zeros k) = acc * 10 ^ N.of_nat k)%N.
Proof.
  rewrite digits_val_shift, length_zeros.
  assert (H : digits_val 0 (zeros k) = 0%N).
  { induction k as [|k IH]; [reflexivity|exact IH]. }
  rewrite H. lia.
Qed.

(** ** Trailing zeros *)

Lemma strip_zeros_pow (j : nat) :
  forall fuel m e,
    (m mod 10 <> 0)%N -> j <= fuel ->
    strip_zeros fuel (m * 10 ^ N.of_nat j) e = (m, (e + Z.of_nat j)%Z).
Proof.
  induction j as [|j IH]; intros fuel m e Hm Hj.
  - rewrite N.pow_0_r, N.mul_1_r, Z.add_0_r.
    destruct fuel as [|fuel]; [reflexivity|]. cbn [strip_zeros].
    destruct (N.eqb_spec (m mod 10) 0); [contradiction|reflexivity].
  - destruct fuel as [|fuel]; [lia|]. cbn [strip_zeros].
    rewrite Nat2N.inj_succ, N.pow_succ_r'.
    replace (m * (10 * 10 ^ N.of_nat j))%N
      with (m * 10 ^ N.of_nat j * 10)%N by lia.
    rewrite N.Div0.mod_mul, N.eqb_refl, N.div_mul by lia.
    rewrite IH by (auto; lia). f_equal. lia.
Qed.

(** A mantissa followed by [j] zeros is the float of the mantissa. *)
Lemma decimal_pow (neg : bool) (m : N) (j : nat) (e : Z) :
  (m mod 10 <> 0)%N ->
  decimal neg (m * 10 ^ N.of_nat j) e = FFin neg m (e + Z.of_nat j).
Proof.
  intros Hm. unfold decimal.
  assert (Hm0 : m <> 0%N) by (intros ->; now apply Hm).
  assert (Hp : (2 ^ N.of_nat j <= m * 10 ^ N.of_nat j)%N).
  { apply N.le_trans with (10 ^ N.of_nat j)%N.
    - apply N.pow_le_mono_l. lia.
    - pose proof (N.pow_nonzero 10 (N.of_nat j)). nia. }
  destruct (N.eqb_spec (m * 10 ^ N.of_nat j) 0) as [E|_].
  - pose proof (N.pow_nonzero 2 (N.of_nat j)). lia.
  - rewrite strip_zeros_pow; [reflexivity|exact Hm|].
    apply N.log2_le_mono in Hp. rewrite N.log2_pow2 in Hp by lia. lia.
Qed.

Lemma decimal_canonical (neg : bool) (m : N) (e : Z) :
  (m mod 10 <> 0)%N -> decimal neg m e = FFin neg m e.
Proof.
  intros Hm. pose proof (decimal_pow neg m 0 e Hm) as H.
  now rewrite N.pow_0_r, N.mul_1_r, Z.add_0_r in H.
Qed.

(** ** Reading a printed number *)

Lemma digit_not_sign (d : ascii) :
  isdigit d = true ->
  Ascii.eqb d "-" = false /\ Ascii.eqb d "+" = false
  /\ Ascii.eqb (to_lower d) "i" = false /\ Ascii.eqb (to_lower d) "n" = false.
Proof.
  intros H. destruct d as [[] [] [] [] [] [] [] []];
    cbv in H; try discriminate H; repeat split; reflexivity.
Qed.

Lemma digit_plain (c : ascii) : isdigit c = true -> plain_char c = true.
Proof.
  intros H. destruct c as [[] [] [] [] [] [] [] []];
    cbv in H; try discriminate H; reflexivity.
Qed.

Lemma lstrip_plain (s : string) :
  str_all (fun c => negb (isspace c)) s = true -> lstrip s = s.
Proof.
  destruct s as [|c s]; simpl; [reflexivity|]. intros H.
  apply andb_prop in H as [H _]. apply negb_true_iff in H. now rewrite H.
Qed.

Lemma rstrip_plain (s : string) :
  str_all (fun c => negb (isspace c)) s = true -> rstrip s = s.
Proof.
  induction s as [|c s IH]; simpl; [reflexivity|]. intros H.
  apply andb_prop in H as [H1 H2]. apply negb_true_iff in H1.
  rewrite (IH H2), H1. now destruct s.
Qed.

(** Text without blanks is its own [strip]. *)
Lemma strip_plain (s : string) :
  str_all (fun c => negb (isspace c)) s = true -> strip s = s.
Proof.
  intros H. unfold strip. now rewrite (lstrip_plain s H), rstrip_plain.
Qed.

Lemma plain_no_blank (s : string) :
  str_all plain_char s = true ->
  str_all (fun c => negb (isspace c)) s = true.
Proof.
  apply str_all_impl. intros c H. unfold plain_char in H.
  now apply andb_prop in H as [H _].
Qed.

(** A signed text that begins with a digit is read as a number. *)
Lemma float_of_string_number (neg : bool) (d : ascii) (t : string) :
  isdigit d = true ->
  str_all plain_char (String d t) = true ->
  float_of_string ((if neg then "-" else "") ++ String d t)
  = float_number neg (String d t).
Proof.
  intros Hd Hp. unfold float_of_string.
  destruct (digit_not_sign d Hd) as (H1 & H2 & H3 & H4).
  assert (Hs : strip ((if neg then "-" else "") ++ String d t)
               = ((if neg then "-" else "") ++ String d t)%string).
  { apply strip_plain. rewrite str_all_append.
    rewrite (plain_no_blank _ Hp). now destruct neg. }
  rewrite Hs.
  assert (Hsign : parse_sign ((if neg then "-" else "") ++ String d t)
                  = (neg, String d t)).
  { destruct neg; [reflexivity|]. simpl. now rewrite H1, H2. }
  rewrite Hsign. cbn [lower String.eqb]. rewrite H3, H4. reflexivity.
Qed.

Lemma float_number_point (neg : bool) (ipd fd rest : string) :
  ipd <> EmptyString -> str_all isdigit ipd = true ->
  fd <> EmptyString -> str_all isdigit fd = true ->
  stops rest ->
  float_number neg (ipd ++ String "." (fd ++ rest))
  = float_exponent neg (digits_val 0 (ipd ++ fd)) (String.length fd) rest.
Proof.
  intros H1 H2 H3 H4 H5. unfold float_number.
  rewrite (digitpart_run ipd _ 0 H1 H2) by (split; reflexivity).
  cbn [Ascii.eqb Bool.eqb]. cbv iota.
  rewrite (digitpart_run fd rest _ H3 H4 H5).
  now rewrite digits_val_append.
Qed.

Lemma float_number_int (neg : bool) (ipd rest : string) :
  ipd <> EmptyString -> str_all isdigit ipd = true ->
  float_number neg (ipd ++ String "e" rest)
  = float_exponent neg (digits_val 0 ipd) 0 (String "e" rest).
Proof.
  intros H1 H2. unfold float_number.
  now rewrite (digitpart_run ipd _ 0 H1 H2) by (split; reflexivity).
Qed.

Lemma float_exponent_e (neg xneg : bool) (m : N) (k : nat) (xd : string) :
  xd <> EmptyString -> str_all isdigit xd = true ->
  float_exponent neg m k (String "e" ((if xneg then "-" else "+") ++ xd))
  = Some (decimal neg m
            ((if xneg then - Z.of_N (digits_val 0 xd)
              else Z.of_N (digits_val 0 xd)) - Z.of_nat k)).
Proof.
  intros H1 H2. unfold float_exponent. cbn [Ascii.eqb Bool.eqb orb].
  assert (Hs : parse_sign ((if xneg then "-" else "+") ++ xd) = (xneg, xd))
    by (destruct xneg; reflexivity).
  rewrite Hs. rewrite <- (append_nil_r xd) at 1.
  now rewrite (digitpart_run xd EmptyString 0 H1 H2 I).
Qed.

Lemma digits_plain (s : string) :
  str_all isdigit s = true -> str_all plain_char s = true.
Proof. apply str_all_impl, digit_plain. Qed.

Lemma sign_plain (neg : bool) :
  str_all plain_char (if neg then "-" else "") = true.
Proof. now destruct neg. Qed.

(** Digits, a point, digits. *)
Lemma printed_point (neg : bool) (ipd fd : string) :
  ipd <> EmptyString -> str_all isdigit ipd = true ->
  fd <> EmptyString -> str_all isdigit fd = true ->
  float_of_string ((if neg then "-" else "") ++ ipd ++ String "." fd)
  = Some (decimal neg (digits_val 0 (ipd ++ fd))
                  (- Z.of_nat (String.length fd))).
Proof.
  intros H1 H2 H3 H4.
  assert (Hp : str_all plain_char (ipd ++ String "." fd) = true).
  { rewrite str_all_append. cbn [str_all].
    now rewrite (digits_plain _ H2), (digits_plain _ H4). }
  pose proof (float_number_point neg ipd fd EmptyString H1 H2 H3 H4 I) as E.
  rewrite append_nil_r in E.
  destruct ipd as [|d t]; [contradiction|].
  cbn [append] in *. rewrite float_of_string_number; [exact E| |exact Hp].
  cbn [str_all] in H2. now apply andb_prop in H2 as [H2 _].
Qed.

(** Digits and an exponent. *)
Lemma printed_exponent_int (neg xneg : bool) (ipd xd : string) :
  ipd <> EmptyString -> str_all isdigit ipd = true ->
  xd <> EmptyString -> str_all isdigit xd = true ->
  float_of_string
    ((if neg then "-" else "") ++ ipd
     ++ String "e" ((if xneg then "-" else "+") ++ xd))
  = Some (decimal neg (digits_val 0 ipd)
            ((if xneg then - Z.of_N (digits_val 0 xd)
              else Z.of_N (digits_val 0 xd)) - 0)).
Proof.
  intros H1 H2 H5 H6.
  set (ex := String "e" ((if xneg then "-" else "+") ++ xd)).
  assert (Hex : str_all plain_char ex = true).
  { unfold ex. cbn [str_all]. rewrite str_all_append, (digits_plain _ H6).
    now destruct xneg. }
  assert (Hp : str_all plain_char (ipd ++ ex) = true)
    by now rewrite str_all_append, (digits_plain _ H2), Hex.
  pose proof (float_number_int neg ipd _ H1 H2 : float_number neg (ipd ++ ex) = _)
    as E.
  rewrite float_exponent_e in E by assumption.
  destruct ipd as [|d t]; [contradiction|].
  cbn [append] in *. rewrite float_of_string_number; [exact E| |exact Hp].
  cbn [str_all] in H2. now apply andb_prop in H2 as [H2 _].
Qed.

(** Digits, a point, digits and an exponent. *)
Lemma printed_exponent_point (neg xneg : bool) (ipd fd xd : string) :
  ipd <> EmptyString -> str_all isdigit ipd = true ->
  fd <> EmptyString -> str_all isdigit fd = true ->
  xd <> EmptyString -> str_all isdigit xd = true ->
  float_of_string
    ((if neg then "-" else "") ++ ipd
     ++ String "." (fd ++ String "e" ((if xneg then "-" else "+") ++ xd)))
  = Some (decimal neg (digits_val 0 (ipd ++ fd))
            ((if xneg then - Z.of_N (digits_val 0 xd)
              else Z.of_N (digits_val 0 xd))
             - Z.of_nat (String.length fd))).
Proof.
  intros H1 H2 H3 H4 H5 H6.
  set (ex := String "e" ((if xneg then "-" else "+") ++ xd)).
  assert (Hex : str_all plain_char ex = true).
  { unfold ex. cbn [str_all]. rewrite str_all_append, (digits_plain _ H6).
    now destruct xneg. }
  assert (Hp : str_all plain_char (ipd ++ String "." (fd ++ ex)) = true).
  { rewrite str_all_append. cbn [str_all]. rewrite str_all_append.
    now rewrite (digits_plain _ H2), (digits_plain _ H4), Hex. }
  pose proof (float_number_point neg ipd fd ex H1 H2 H3 H4
                (conj eq_refl eq_refl)) as E.
  unfold ex in E at 2. rewrite float_exponent_e in E by assumption.
  destruct ipd as [|d t]; [contradiction|].
  cbn [append] in *. rewrite float_of_string_number; [exact E| |exact Hp].
  cbn [str_all] in H2. now apply andb_prop in H2 as [H2 _].
Qed.

(** The digits of the exponent [repr] prints: at least two. *)
Lemma exponent_digits (x : Z) :
  let xd := (if (Z.abs x <? 10)%Z then "0" ++ str_N (Z.abs_N x)
             else str_N (Z.abs_N x))%string in
  xd <> EmptyString /\ str_all isdigit xd = true
  /\ digits_val 0 xd = Z.abs_N x.
Proof.
  destruct (str_N_spec (Z.abs_N x)) as (H1 & H2 & H3).
  cbv zeta. destruct (Z.abs x <? 10)%Z.
  - repeat split; [discriminate|cbn [append str_all]; now rewrite H2|exact H3].
  - auto.
Qed.

(** What [repr] prints for a float, [float] reads back as that float. *)
Theorem float_repr_reads_back (f : pyfloat) :
  canonical f -> f <> FNaN -> float_of_string (float_repr f) = Some f.
Proof.
  destruct f as [|neg|neg m e]; intros Hc Hn.
  - contradiction.
  - destruct neg; reflexivity.
  - cbn [canonical] in Hc. unfold float_repr.
    destruct (N.eqb_spec m 0) as [->|Hm0].
    { destruct Hc as [[_ ->]|Hc]; [destruct neg; reflexivity|].
      exfalso; apply Hc; reflexivity. }
    destruct Hc as [[E _]|Hm]; [contradiction|].
    destruct (str_N_spec m) as (Hne & Hd & Hv).
    set (ds := str_N m) in *.
    assert (Hlen : 0 < String.length ds)
      by (destruct ds; [contradiction|simpl; lia]).
    cbv zeta. set (n := String.length ds) in *.
    destruct ((-4 <? Z.of_nat n + e)%Z && (Z.of_nat n + e <=? 16)%Z).
    + destruct (Z.leb_spec (Z.of_nat n + e) 0) as [Ha|Ha].
      * set (z := Z.to_nat (- (Z.of_nat n + e))).
        change ("0." ++ zeros z ++ ds)%string
          with ("0" ++ String "." (zeros z ++ ds))%string.
        rewrite printed_point;
          [|discriminate|reflexivity
           |destruct (zeros z); [exact Hne|discriminate]
           |now rewrite str_all_append, zeros_digits, Hd].
        f_equal.
        rewrite digits_val_append.
        change (digits_val 0 "0") with 0%N.
        rewrite digits_val_append, digits_val_zeros, N.mul_0_l, Hv.
        rewrite length_append, length_zeros. fold n.
        replace (- Z.of_nat (z + n))%Z with e by (unfold z; lia).
        now apply decimal_canonical.
      * destruct (Z.leb_spec (Z.of_nat n) (Z.of_nat n + e)) as [Hb|Hb].
        -- set (z := Z.to_nat (Z.of_nat n + e - Z.of_nat n)).
           rewrite <- (append_assoc ds (zeros z) ".0").
           rewrite printed_point;
             [|destruct ds; [contradiction|discriminate]
              |now rewrite str_all_append, Hd, zeros_digits
              |discriminate|reflexivity].
           f_equal.
           rewrite digits_val_append, digits_val_append, Hv, digits_val_zeros.
           cbn [digits_val String.length].
           change (digit_val "0") with 0%N.
           replace (m * 10 ^ N.of_nat z * 10 + 0)%N
             with (m * 10 ^ N.of_nat (S z))%N
             by (rewrite Nat2N.inj_succ, N.pow_succ_r'; lia).
           rewrite decimal_pow by exact Hm. f_equal. unfold z. lia.
        -- set (k := Z.to_nat (Z.of_nat n + e)).
           replace (Z.to_nat (Z.of_nat n - (Z.of_nat n + e))) with (n - k)
             by (unfold k; lia).
           assert (Hk : k <= n) by (unfold k; lia).
           pose proof (substring_split ds k Hk) as Hsplit. fold n in Hsplit.
           pose proof (length_substring_0 ds k Hk) as Hl1.
           assert (Hl2 : String.length (substring k (n - k) ds) = n - k).
           { pose proof (f_equal String.length Hsplit) as L.
             rewrite length_append, Hl1 in L. fold n in L. lia. }
           change ("." ++ substring k (n - k) ds)%string
             with (String "." (substring k (n - k) ds)).
           rewrite printed_point;
             [|intros E; rewrite E in Hl1; simpl in Hl1; unfold k in *; lia
              |now apply str_all_substring
              |intros E; rewrite E in Hl2; simpl in Hl2; unfold k in *; lia
              |now apply str_all_substring].
           rewrite Hsplit, Hv, Hl2.
           replace (- Z.of_nat (n - k))%Z with e by (unfold k; lia).
           f_equal. now apply decimal_canonical.
    + set (x := (Z.of_nat n + e - 1)%Z).
      destruct (exponent_digits x) as (X1 & X2 & X3).
      set (xd := (if (Z.abs x <? 10)%Z then "0" ++ str_N (Z.abs_N x)
                  else str_N (Z.abs_N x))%string) in *.
      assert (Hx : (if (x <? 0)%Z then - Z.of_N (digits_val 0 xd)
                    else Z.of_N (digits_val 0 xd))%Z = x).
      { rewrite X3. destruct (Z.ltb_spec x 0); lia. }
      destruct (Z.ltb_spec 1 (Z.of_nat n)) as [H1|H1].
      * assert (Hk : 1 <= n) by lia.
        pose proof (substring_split ds 1 Hk) as Hsplit. fold n in Hsplit.
        pose proof (length_substring_0 ds 1 Hk) as Hl1.
        replace (Z.to_nat (Z.of_nat n - 1)) with (n - 1) by lia.
        assert (Hl2 : String.length (substring 1 (n - 1) ds) = n - 1).
        { pose proof (f_equal String.length Hsplit) as L.
          rewrite length_append, Hl1 in L. fold n in L. lia. }
        change (("." ++ substring 1 (n - 1) ds)
                ++ "e" ++ (if (x <? 0)%Z then "-" else "+") ++ xd)%string
          with (String "." (substring 1 (n - 1) ds
                            ++ String "e" ((if (x <? 0)%Z then "-" else "+") ++ xd)))%string.
        rewrite printed_exponent_point;
          [|intros E; rewrite E in Hl1; simpl in Hl1; lia
           |now apply str_all_substring
           |intros E; rewrite E in Hl2; simpl in Hl2; lia
           |now apply str_all_substring|exact X1|exact X2].
        rewrite Hsplit, Hv, Hl2, Hx.
        replace (x - Z.of_nat (n - 1))%Z with e by (unfold x; lia).
        f_equal. now apply decimal_canonical.
      * assert (Hn1 : n = 1) by lia.
        assert (Hs : substring 0 1 ds = ds).
        { rewrite <- Hn1. apply substring_all. }
        rewrite Hs.
        change ("" ++ "e" ++ (if (x <? 0)%Z then "-" else "+") ++ xd)%string
          with (String "e" ((if (x <? 0)%Z then "-" else "+") ++ xd)).
        rewrite printed_exponent_int by assumption.
        rewrite Hv, Hx.
        replace (x - 0)%Z with e by (unfold x; lia).
        f_equal. now apply decimal_canonical.
Qed.

(** What [repr] prints holds no blank, comma, quote or line break. *)
Lemma float_repr_plain (f : pyfloat) :
  str_all plain_char (float_repr f) = true.
Proof.
  destruct f as [|neg|neg m e]; [reflexivity|now destruct neg|].
  unfold float_repr. destruct (m =? 0)%N; [now destruct neg|].
  assert (Hn : forall k, str_all plain_char (str_N k) = true).
  { intros k. apply digits_plain. now destruct (str_N_spec k) as (_ & H & _). }
  assert (Hsub : forall a b, str_all plain_char (substring a b (str_N m)) = true)
    by (intros; now apply str_all_substring).
  assert (Hz : forall k, str_all plain_char (zeros k) = true)
    by (intros; apply digits_plain, zeros_digits).
  cbv zeta.
  repeat match goal with
         | |- context [if ?b then _ else _] => destruct b
         end;
    repeat rewrite str_all_append;
    rewrite ?Hn, ?Hsub, ?Hz; reflexivity.
Qed.

Lemma float_repr_not_empty (f : pyfloat) :
  canonical f -> f <> FNaN -> float_repr f <> EmptyString.
Proof.
  intros Hc Hn E. pose proof (float_repr_reads_back f Hc Hn) as H.
  rewrite E in H. discriminate H.
Qed.

(** ** What [float] returns is canonical *)

Lemma strip_zeros_canonical (fuel : nat) :
  forall m e,
    (0 < m)%N -> (m < 2 ^ N.of_nat (S fuel))%N ->
    (fst (strip_zeros fuel m e) mod 10 <> 0)%N.
Proof.
  induction fuel as [|fuel IH]; intros m e H0 H.
  - simpl in *. assert (m = 1%N) as -> by lia. discriminate.
  - cbn [strip_zeros]. destruct (N.eqb_spec (m mod 10) 0) as [E|E]; [|exact E].
    pose proof (N.div_mod m 10) as D. rewrite E in D.
    apply IH.
    + assert (m / 10 <> 0)%N by lia. lia.
    + rewrite Nat2N.inj_succ, N.pow_succ_r' in H.
      apply N.Div0.div_lt_upper_bound. lia.
Qed.

Lemma decimal_is_canonical (neg : bool) (m : N) (e : Z) :
  canonical (decimal neg m e).
Proof.
  unfold decimal. destruct (N.eqb_spec m 0) as [->|Hm]; [left; now split|].
  pose proof (strip_zeros_canonical (N.to_nat (N.log2 m)) m e) as H.
  destruct (strip_zeros (N.to_nat (N.log2 m)) m e) as [m' e'].
  right. apply H; [lia|].
  rewrite Nat2N.inj_succ, N2Nat.id. apply N.log2_spec. lia.
Qed.

Lemma float_exponent_canonical (neg : bool) (m : N) (k : nat) (s : string)
    (f : pyfloat) :
  float_exponent neg m k s = Some f -> canonical f.
Proof.
  unfold float_exponent. destruct s as [|c s].
  - intros [= <-]. apply decimal_is_canonical.
  - destruct (Ascii.eqb c "e" || Ascii.eqb c "E"); [|discriminate].
    destruct (parse_sign s) as [eneg body].
    destruct (digitpart 0 body) as [[[x cnt] [|? ?]]|]; try discriminate.
    intros [= <-]. apply decimal_is_canonical.
Qed.

(** Every float that [float] returns satisfies the invariant. *)
Lemma float_of_string_canonical (tok : string) (f : pyfloat) :
  float_of_string tok = Some f -> canonical f.
Proof.
  unfold float_of_string. destruct (parse_sign (strip tok)) as [neg body].
  destruct (String.eqb (lower body) "inf" || String.eqb (lower body) "infinity");
    [intros [= <-]; exact I|].
  destruct (String.eqb (lower body) "nan"); [intros [= <-]; exact I|].
  unfold float_number.
  destruct (digitpart 0 body) as [[[ip cnt] r1]|].
  - destruct r1 as [|c r2]; [apply float_exponent_canonical|].
    destruct (Ascii.eqb c "."); [|apply float_exponent_canonical].
    destruct (digitpart ip r2) as [[[m k] r3]|]; apply float_exponent_canonical.
  - destruct body as [|c r2]; [discriminate|].
    destruct (Ascii.eqb c "."); [|discriminate].
    destruct (digitpart 0 r2) as [[[m k] r3]|]; [|discriminate].
    apply float_exponent_canonical.
Qed.

(* ================================================================== *)
(** * The CSV export read back *)
(* ================================================================== *)

(** ** Blanks at the ends *)

Lemma length_lstrip (s : string) : String.length (lstrip s) <= String.length s.
Proof.
  induction s as [|c s IH]; simpl; [lia|]. destruct (isspace c); simpl; lia.
Qed.

Lemma length_rstrip (s : string) : String.length (rstrip s) <= String.length s.
Proof.
  induction s as [|c s IH]; simpl; [lia|].
  destruct (rstrip s); [destruct (isspace c)|]; simpl in *; lia.
Qed.

(** A text that [strip] leaves alone has no blank at either end. *)
Lemma strip_fixed (s : string) : strip s = s -> lstrip s = s /\ rstrip s = s.
Proof.
  intros H. assert (L : lstrip s = s).
  { pose proof (length_rstrip (lstrip s)) as H1. unfold strip in H.
    rewrite H in H1. destruct s as [|c s]; [reflexivity|]. simpl in *.
    destruct (isspace c); [|reflexivity].
    pose proof (length_lstrip s). lia. }
  split; [exact L|]. unfold strip in H. now rewrite L in H.
Qed.

Lemma lstrip_first (c : ascii) (s : string) :
  isspace c = false -> lstrip (String c s) = String c s.
Proof. intros H. simpl. now rewrite H. Qed.

Lemma lstrip_append (a b : string) :
  a <> EmptyString -> lstrip a = a -> lstrip (a ++ b) = (a ++ b)%string.
Proof.
  destruct a as [|c a]; [contradiction|]. intros _ H. simpl in *.
  destruct (isspace c); [|reflexivity].
  exfalso. pose proof (length_lstrip a) as L. rewrite H in L. simpl in L. lia.
Qed.

Lemma rstrip_append (a b : string) :
  rstrip b <> EmptyString -> rstrip (a ++ b) = (a ++ rstrip b)%string.
Proof.
  intros H. induction a as [|c a IH]; simpl; [reflexivity|].
  rewrite IH. destruct (a ++ rstrip b)%string eqn:E; [|reflexivity].
  destruct a; simpl in E; [contradiction|discriminate].
Qed.

(** A text without blanks followed by a line feed: [rstrip] removes the
    line feed only. *)
Lemma rstrip_line (s : string) :
  s <> EmptyString -> str_all (fun c => negb (isspace c)) s = true ->
  rstrip (s ++ String LF EmptyString) = s.
Proof.
  induction s as [|c s IH]; [contradiction|]. intros _ H.
  cbn [str_all] in H. apply andb_prop in H as [Hc Hs].
  apply negb_true_iff in Hc. cbn [append rstrip].
  destruct s as [|d s].
  - simpl. now rewrite Hc.
  - rewrite IH by (discriminate || exact Hs). reflexivity.
Qed.

(** ** Fields and lines *)

Lemma split_field (a rest : string) :
  str_all (fun c => negb (csv_special c)) a = true ->
  split "," (a ++ String "," rest) = a :: split "," rest.
Proof.
  induction a as [|c a IH]; intros H; [reflexivity|].
  cbn [str_all] in H. apply andb_prop in H as [Hc Ha].
  cbn [append split]. rewrite (IH Ha).
  destruct (Ascii.eqb c ",") eqn:E; [|reflexivity].
  unfold csv_special in Hc. rewrite E in Hc. discriminate.
Qed.

Lemma split_last (a : string) :
  str_all (fun c => negb (csv_special c)) a = true -> split "," a = [a].
Proof.
  induction a as [|c a IH]; intros H; [reflexivity|].
  cbn [str_all] in H. apply andb_prop in H as [Hc Ha].
  cbn [split]. rewrite (IH Ha).
  destruct (Ascii.eqb c ",") eqn:E; [|reflexivity].
  unfold csv_special in Hc. rewrite E in Hc. discriminate.
Qed.

Lemma csv_field_plain (s : string) :
  str_all (fun c => negb (csv_special c)) s = true -> csv_field s = s.
Proof.
  intros H. unfold csv_field.
  replace (str_any csv_quoted s) with false; [reflexivity|].
  induction s as [|c s IH]; [reflexivity|].
  cbn [str_all str_any] in *. apply andb_prop in H as [Hc Hs].
  apply negb_true_iff in Hc. rewrite <- IH by exact Hs.
  unfold csv_special in Hc. unfold csv_quoted.
  destruct (Ascii.eqb c ","), (Ascii.eqb c DQ), (Ascii.eqb c CR),
    (Ascii.eqb c LF); (discriminate || reflexivity).
Qed.

(** Text without carriage return is read as it is. *)
Lemma universal_newlines_plain (s : string) :
  str_all (fun c => negb (Ascii.eqb c CR)) s = true ->
  universal_newlines s = s.
Proof.
  induction s as [|c s IH]; [reflexivity|]. intros H.
  cbn [str_all] in H. apply andb_prop in H as [Hc Hs].
  apply negb_true_iff in Hc. cbn [universal_newlines]. rewrite Hc.
  now rewrite IH.
Qed.

(** A line without line feed, its line feed, more text. *)
Lemma readlines_line (l rest : string) :
  str_all (fun c => negb (Ascii.eqb c LF)) l = true ->
  readlines (l ++ String LF rest) = (l ++ String LF EmptyString) :: readlines rest.
Proof.
  induction l as [|c l IH]; intros H; [reflexivity|].
  cbn [str_all] in H. apply andb_prop in H as [Hc Hl].
  apply negb_true_iff in Hc. cbn [append readlines]. rewrite Hc.
  now rewrite (IH Hl).
Qed.

Lemma special_not_break (s : string) :
  str_all (fun c => negb (csv_special c)) s = true ->
  str_all (fun c => negb (Ascii.eqb c CR)) s = true
  /\ str_all (fun c => negb (Ascii.eqb c LF)) s = true.
Proof.
  intros H. split; revert H; apply str_all_impl; intros c Hc;
    unfold csv_special in Hc; apply negb_true_iff in Hc;
    apply orb_false_iff in Hc as [Hc H4];
    apply orb_false_iff in Hc as [Hc H3];
    apply negb_true_iff; assumption.
Qed.

Lemma plain_not_special (s : string) :
  str_all plain_char s = true ->
  str_all (fun c => negb (csv_special c)) s = true.
Proof.
  apply str_all_impl. intros c H. unfold plain_char in H.
  now apply andb_prop in H as [_ H].
Qed.

(** ** One row *)

Lemma usage_csv_text (u : string) :
  In u usages -> csv_text u /\ str_in u usages = true.
Proof.
  intros [<-|[<-|[<-|[]]]]; repeat split; reflexivity.
Qed.

(** The size cell is a plain token that [float] reads back. *)
Lemma csv_size_reads (n : pynum) :
  n = PInt 0 \/ (exists f, n = PFloat f /\ canonical f /\ f <> FNaN) ->
  csv_size n <> EmptyString
  /\ str_all plain_char (csv_size n) = true
  /\ float_of_string (csv_size n) = Some (to_float n).
Proof.
  intros [->|(f & -> & Hc & Hn)].
  - repeat split. discriminate.
  - assert (E : csv_size (PFloat f) = float_repr f)
      by (destruct f; [contradiction|reflexivity|reflexivity]).
    rewrite E. split; [now apply float_repr_not_empty|].
    split; [apply float_repr_plain|now apply float_repr_reads_back].
Qed.

Lemma rstrip_field (a rest r : string) :
  rstrip rest = r -> r <> EmptyString ->
  rstrip (a ++ String "," rest) = (a ++ String "," r)%string.
Proof.
  intros E Hr.
  assert (H : rstrip (String "," rest) = String "," r).
  { cbn [rstrip]. rewrite E. destruct r; [contradiction|reflexivity]. }
  rewrite rstrip_append; rewrite H; [reflexivity|discriminate].
Qed.

Lemma row_text_shape (b n c u z : string) :
  str_all (fun x => negb (csv_special x)) b = true ->
  str_all (fun x => negb (csv_special x)) n = true ->
  str_all (fun x => negb (csv_special x)) c = true ->
  str_all (fun x => negb (csv_special x)) u = true ->
  join "," [csv_field b; csv_field n; csv_field c; csv_field u; z]
  = (b ++ String "," (n ++ String "," (c ++ String "," (u ++ String "," z))))%string.
Proof.
  intros Hb Hn Hc Hu. now rewrite !csv_field_plain by assumption.
Qed.

(** The line of a safe record is a data row; the loop body reads the
    record back from it, its size as a float, without any warning. *)
Lemma csv_row_read (s : shoe) :
  csv_safe s ->
  data_row (csv_row s) = true
  /\ row_shoe (csv_row s) = as_float s
  /\ row_warnings (csv_row s) = [].
Proof.
  destruct s as [b n c u sz]. unfold csv_safe, csv_row, as_float.
  cbn [brand name color usage size].
  intros ((Hb1 & Hb2 & Hb3) & (Hn1 & Hn2 & Hn3) & (Hc1 & Hc2 & Hc3)
          & Hu & Hhash & Hsz).
  destruct (usage_csv_text u Hu) as ((Hu1 & Hu2 & Hu3) & Hin).
  destruct (csv_size_reads sz Hsz) as (Hz1 & Hz2 & Hz3).
  set (z := csv_size sz) in *.
  rewrite (row_text_shape b n c u z Hb1 Hn1 Hc1 Hu1).
  set (text := (b ++ String "," (n ++ String "," (c ++ String ","
                 (u ++ String "," z))))%string).
  assert (Hstrip : strip (text ++ String LF EmptyString) = text).
  { unfold strip.
    assert (L : lstrip (text ++ String LF EmptyString)
                = (text ++ String LF EmptyString)%string).
    { unfold text. destruct b as [|x b'].
      - reflexivity.
      - rewrite append_assoc. apply lstrip_append; [discriminate|].
        now apply strip_fixed. }
    rewrite L. unfold text.
    rewrite !append_assoc. cbn [append]. rewrite !append_assoc. cbn [append].
    rewrite !append_assoc. cbn [append]. rewrite !append_assoc. cbn [append].
    assert (Rz : rstrip (z ++ String LF EmptyString) = z)
      by (apply rstrip_line; [exact Hz1|now apply plain_no_blank]).
    rewrite (rstrip_field b _ (n ++ String "," (c ++ String ","
                                 (u ++ String "," z))));
      [reflexivity| |destruct n; discriminate].
    rewrite (rstrip_field n _ (c ++ String "," (u ++ String "," z)));
      [reflexivity| |destruct c; discriminate].
    rewrite (rstrip_field c _ (u ++ String "," z));
      [reflexivity| |destruct u; discriminate].
    now rewrite (rstrip_field u _ z Rz Hz1). }
  assert (Hfields : fields (text ++ String LF EmptyString) = [b; n; c; u; z]).
  { unfold fields. rewrite Hstrip. unfold text.
    rewrite !split_field by assumption.
    now rewrite split_last by (apply plain_not_special; exact Hz2). }
  assert (Hrow : data_row (text ++ String LF EmptyString) = true).
  { unfold data_row, blank, comment. rewrite Hfields, Hstrip.
    assert (B : String.eqb text "" = false)
      by (unfold text; now destruct b).
    assert (C : startswith "#" text = false).
    { unfold text. destruct b as [|x b']; [reflexivity|].
      unfold startswith in *. cbn [append String.prefix] in *.
      destruct (ascii_dec "#" x); [|reflexivity].
      exfalso. destruct b'; discriminate Hhash. }
    rewrite B, C. reflexivity. }
  assert (Hsize : float_of_string (strip z) = Some (to_float sz)).
  { rewrite strip_plain by (now apply plain_no_blank). exact Hz3. }
  split; [exact Hrow|].
  unfold row_shoe, row_warnings, usage_token, size_token.
  rewrite Hfields. cbn [item nth].
  rewrite Hb2, Hb3, Hn2, Hn3, Hc2, Hc3, Hu2, Hu3, Hin, Hsize.
  split; reflexivity.
Qed.

(** ** The file *)

Lemma concat_cons (x : string) (l : list string) :
  String.concat EmptyString (x :: l)
  = (x ++ String.concat EmptyString l)%string.
Proof.
  destruct l as [|y l]; simpl; [now rewrite append_nil_r|reflexivity].
Qed.

Lemma csv_row_text_no_break (s : shoe) :
  csv_safe s ->
  str_all (fun c => negb (Ascii.eqb c CR)) (csv_row_text s) = true
  /\ str_all (fun c => negb (Ascii.eqb c LF)) (csv_row_text s) = true.
Proof.
  destruct s as [b n c u sz]. unfold csv_safe, csv_row_text.
  cbn [brand name color usage size].
  intros ((Hb1 & _) & (Hn1 & _) & (Hc1 & _) & Hu & _ & Hsz).
  destruct (usage_csv_text u Hu) as ((Hu1 & _) & _).
  destruct (csv_size_reads sz Hsz) as (_ & Hz2 & _).
  apply plain_not_special in Hz2.
  rewrite (row_text_shape b n c u _ Hb1 Hn1 Hc1 Hu1).
  destruct (special_not_break _ Hb1) as [B1 B2].
  destruct (special_not_break _ Hn1) as [N1 N2].
  destruct (special_not_break _ Hc1) as [C1 C2].
  destruct (special_not_break _ Hu1) as [U1 U2].
  destruct (special_not_break _ Hz2) as [Z1 Z2].
  split; repeat (rewrite str_all_append; cbn [str_all]);
    rewrite ?B1, ?B2, ?N1, ?N2, ?C1, ?C2, ?U1, ?U2, ?Z1, ?Z2; reflexivity.
Qed.

(** The rows written are the lines read. *)
Lemma rows_read_as_lines (df : dataframe) :
  Forall csv_safe df ->
  str_all (fun c => negb (Ascii.eqb c CR))
          (String.concat EmptyString (map csv_row df)) = true
  /\ readlines (String.concat EmptyString (map csv_row df)) = map csv_row df.
Proof.
  induction 1 as [|s df Hs _ IH]; [split; reflexivity|].
  destruct IH as [IH1 IH2].
  destruct (csv_row_text_no_break s Hs) as [R1 R2].
  cbn [map]. rewrite concat_cons.
  change (csv_row s) with (csv_row_text s ++ String LF EmptyString)%string.
  rewrite append_assoc. cbn [append]. split.
  - rewrite str_all_append. cbn [str_all]. now rewrite R1, IH1.
  - now rewrite readlines_line, IH2.
Qed.

Lemma file_lines_to_csv (df : dataframe) :
  df <> [] -> Forall csv_safe df ->
  file_lines (to_csv df)
  = ln "brand,name,color,usage,size" :: map csv_row df.
Proof.
  intros Hne Hs. destruct (rows_read_as_lines df Hs) as [H1 H2].
  unfold file_lines, to_csv. destruct df as [|s df]; [contradiction|].
  set (rows := String.concat EmptyString (map csv_row (s :: df))) in *.
  rewrite universal_newlines_plain.
  - change ("brand,name,color,usage,size" ++ String LF "" ++ rows)%string
      with ("brand,name,color,usage,size" ++ String LF rows)%string.
    now rewrite readlines_line, H2.
  - rewrite !str_all_append, H1. reflexivity.
Qed.

Lemma data_rows_to_csv (df : dataframe) :
  df <> [] -> Forall csv_safe df ->
  data_rows (to_csv df) = map csv_row df
  /\ map row_shoe (map csv_row df) = map as_float df
  /\ flat_map row_warnings (map csv_row df) = [].
Proof.
  intros Hne Hs. unfold data_rows. rewrite (file_lines_to_csv df Hne Hs).
  cbn [tl]. clear Hne.
  induction Hs as [|s df Hsafe _ IH]; [repeat split|].
  destruct (csv_row_read s Hsafe) as (D & R & W).
  destruct IH as (I1 & I2 & I3).
  cbn [map filter flat_map]. rewrite D, R, W, I1, I2, I3. repeat split.
Qed.

Lemma to_float_idem (n : pynum) : to_float (PFloat (to_float n)) = to_float n.
Proof. reflexivity. Qed.

(** The frame of safe records holds safe rows, the same as floats. *)
Lemma create_dataframe_safe (shoes : list shoe) :
  Forall csv_safe shoes ->
  Forall csv_safe (create_dataframe shoes)
  /\ map as_float (create_dataframe shoes) = map as_float shoes.
Proof.
  intros H. unfold create_dataframe.
  destruct (forallb (fun s => is_int (size s)) shoes); [now split|].
  split.
  - apply Forall_map. eapply Forall_impl; [|exact H].
    intros s (Hb & Hn & Hc & Hu & Hh & Hsz). unfold csv_safe.
    cbn [brand name color usage size].
    split; [exact Hb|]. split; [exact Hn|]. split; [exact Hc|].
    split; [exact Hu|]. split; [exact Hh|].
    right. exists (to_float (size s)). split; [reflexivity|].
    destruct Hsz as [->|(f & -> & Hf & Hn')].
    + split; [apply decimal_is_canonical|vm_compute; discriminate].
    + now split.
  - rewrite map_map. apply map_ext. intros s. reflexivity.
Qed.

(** C6 as stated fails: the interactive collector returns a record of
    brand [#1]; written to CSV its line begins with the comment sign,
    and the file collector, which skips such lines, finds no data. *)
Lemma hash_brand_lost :
  fst (get_shoe_data
         (terminal ["1"; "#1"; "air max"; "black"; "casual"; "10.5"]))
  = Ret hash_brand
  /\ Forall (fun s => capitalize (strip (brand s)) = brand s
                      /\ In (usage s) usages) hash_brand
  /\ to_csv (create_dataframe hash_brand)
     = (ln "brand,name,color,usage,size" ++ ln "#1,Air max,Black,Casual,10.5")%string
  /\ fst (csv_roundtrip "shoe_collection.csv" hash_brand (terminal []))
     = Ret None.
Proof.
  split; [vm_compute; reflexivity|].
  split; [repeat constructor|].
  split; vm_compute; reflexivity.
Qed.

(** C6, amended. At least one record, each with text fields that hold
    no comma, quote or line break and are normalized (stripped and
    capitalized), a brand that does not begin with the comment sign, a
    usage among the three and as size the default 0 or a float other
    than NaN: written to CSV on a writable path and read again by the
    file collector, they come back as the same records in the same
    order, every size as the float it equals, and nothing is printed. *)
Theorem csv_roundtrip_safe (path : string) (shoes : list shoe) (w : world) :
  writable w path = true ->
  shoes <> [] ->
  Forall csv_safe shoes ->
  csv_roundtrip path shoes w
  = (Ret (Some (map as_float shoes)),
     add_effect (WroteFile path)
       (set_file path (Text (to_csv (create_dataframe shoes))) w)).
Proof.
  intros Hw Hne Hs.
  destruct (create_dataframe_safe shoes Hs) as [Hdf Hmap].
  assert (Hne' : create_dataframe shoes <> []).
  { intros E. rewrite E in Hmap. destruct shoes; [contradiction|discriminate]. }
  destruct (data_rows_to_csv _ Hne' Hdf) as (D & R & W).
  unfold csv_roundtrip, bind, write_file. rewrite Hw.
  set (w1 := add_effect _ _).
  assert (Hf : fs w1 path = Text (to_csv (create_dataframe shoes))).
  { unfold w1. cbn. now rewrite String.eqb_refl. }
  rewrite (read_text_rows _ _ _ Hf).
  - rewrite D, R, W, Hmap, prints_nil. reflexivity.
  - rewrite D. destruct (create_dataframe shoes); [contradiction|discriminate].
Qed.

Lemma csv_roundtrip_safe_witness :
  writable (terminal []) "shoe_collection.csv" = true
  /\ two_shoes <> []
  /\ Forall csv_safe two_shoes
  /\ fst (csv_roundtrip "shoe_collection.csv" two_shoes (terminal []))
     = Ret (Some (map as_float two_shoes)).
Proof.
  assert (S : Forall csv_safe two_shoes).
  { apply Forall_cons; [|apply Forall_cons; [|apply Forall_nil]];
      unfold csv_safe, csv_text; cbn [brand name color usage size];
      (split; [repeat split; reflexivity|]);
      (split; [repeat split; reflexivity|]);
      (split; [repeat split; reflexivity|]);
      (split; [simpl; tauto|]); (split; [reflexivity|]).
    - right. exists (FFin false 105 (-1)).
      split; [reflexivity|]. split; [right|]; discriminate.
    - left. reflexivity. }
  split; [reflexivity|]. split; [discriminate|]. split; [exact S|].
  rewrite (csv_roundtrip_safe "shoe_collection.csv" two_shoes (terminal []));
    [reflexivity|reflexivity|discriminate|exact S].
Defined.

(* ================================================================== *)
(** * More on computations: what they leave alone *)
(* ================================================================== *)

Lemma wp_eq {A} (m : M A) (Q : outcome A -> world -> Prop) (w w' : world)
    (o : outcome A) :
  m w = (o, w') -> Q o w' -> wp m Q w.
Proof. unfold wp. intros ->. exact (fun H => H). Qed.

Lemma wp_result {A} (m : M A) (Q : outcome A -> world -> Prop) (w w' : world)
    (o : outcome A) :
  wp m Q w -> m w = (o, w') -> Q o w'.
Proof. unfold wp. intros H E. now rewrite E in H. Qed.

Lemma reads_only_refl (w : world) : reads_only w w.
Proof.
  unfold reads_only. split; [apply suffix_of_refl|].
  split; [exists []; now rewrite app_nil_r|]. repeat split.
Qed.

Lemma reads_only_trans (w1 w2 w3 : world) :
  reads_only w1 w2 -> reads_only w2 w3 -> reads_only w1 w3.
Proof.
  intros (S1 & (o1 & O1) & T1 & F1 & W1 & E1 & K1 & P1)
         (S2 & (o2 & O2) & T2 & F2 & W2 & E2 & K2 & P2).
  unfold reads_only. split; [eapply suffix_of_trans; eassumption|].
  split; [exists (o1 ++ o2)%list; now rewrite O2, O1, app_assoc|].
  repeat split; congruence.
Qed.

Lemma reads_only_print (s : string) (w : world) : reads_only w (add_stdout s w).
Proof.
  unfold reads_only; cbn. split; [apply suffix_of_refl|].
  split; [now exists [s]|]. repeat split.
Qed.

Lemma reads_only_input (p l : string) (rest : list string) (w : world) :
  stdin w = l :: rest -> reads_only w (set_stdin rest (add_stdout p w)).
Proof.
  intros E. unfold reads_only; cbn. split; [rewrite E; apply suffix_of_cons|].
  split; [now exists [p]|]. repeat split.
Qed.

Lemma reads_only_In (w0 w : world) (l : string) (rest : list string) :
  reads_only w0 w -> stdin w = l :: rest -> In l (stdin w0).
Proof.
  intros (S & _) E. apply (suffix_of_In (stdin w) (stdin w0) l S).
  rewrite E. now left.
Qed.

Lemma interactive_later {A} (w w1 : world) (P P' : A -> Prop)
    (o : outcome A) (w' : world) :
  reads_only w w1 -> (forall a, P a -> P' a) ->
  interactive w1 P o w' -> interactive w P' o w'.
Proof.
  intros R HP [R1 H]. split; [eapply reads_only_trans; eassumption|].
  destruct o as [a|[ | | | | | | ]|]; auto.
Qed.

(** A prompt inside a collection that began in [w0]. *)
Lemma wp_input_interactive {B} (p : string) (k : string -> M B)
    (w0 w : world) (P : B -> Prop) :
  reads_only w0 w ->
  (forall l rest,
      stdin w = l :: rest ->
      reads_only w0 (set_stdin rest (add_stdout p w)) ->
      wp (k l) (interactive w0 P) (set_stdin rest (add_stdout p w))) ->
  wp (bind (input p) k) (interactive w0 P) w.
Proof.
  intros R H. apply wp_bind, wp_input.
  - intros E. split; [|exact E].
    eapply reads_only_trans; [exact R|apply reads_only_print].
  - intros l rest E. apply H; [exact E|].
    eapply reads_only_trans; [exact R|exact (reads_only_input p l rest w E)].
Qed.

Lemma wp_print_interactive {B} (s : string) (k : M B)
    (w0 w : world) (P : B -> Prop) :
  reads_only w0 w ->
  (reads_only w0 (add_stdout s w) ->
   wp k (interactive w0 P) (add_stdout s w)) ->
  wp (bind (print s) (fun _ => k)) (interactive w0 P) w.
Proof.
  intros R H. apply wp_bind, wp_print. apply H.
  eapply reads_only_trans; [exact R|apply reads_only_print].
Qed.

(** A collection called inside a collection that began in [w0]. *)
Lemma wp_call_interactive {A B} (m : M A) (k : A -> M B)
    (w0 w : world) (PA : A -> Prop) (P : B -> Prop) :
  reads_only w0 w ->
  wp m (interactive w PA) w ->
  (forall a w1, PA a -> reads_only w0 w1 -> reads_only w w1 ->
                wp (k a) (interactive w0 P) w1) ->
  wp (bind m k) (interactive w0 P) w.
Proof.
  intros R Hm Hk. apply wp_bind. eapply wp_conseq; [exact Hm|].
  intros o w1 [R1 H]. destruct o as [a|[ | | | | | | ]|]; try contradiction.
  - apply Hk; [exact H| |exact R1]. eapply reads_only_trans; eassumption.
  - split; [eapply reads_only_trans; eassumption|exact H].
  - split; [eapply reads_only_trans; eassumption|exact H].
Qed.

(* ================================================================== *)
(** * The interactive collector, in full *)
(* ================================================================== *)

Lemma usage_loop_interactive (fuel : nat) :
  forall w0 w,
    reads_only w0 w ->
    List.length (stdin w) < fuel ->
    wp (usage_loop fuel) (interactive w0 (fun u => In u usages)) w.
Proof.
  induction fuel as [|fuel IH]; intros w0 w R Hlen; [lia|].
  cbn [usage_loop]. apply wp_input_interactive; [exact R|].
  intros l rest E R1.
  destruct (str_in (capitalize (strip l)) usages) eqn:Hu.
  - apply wp_ret. split; [exact R1|]. now apply str_in_In.
  - apply wp_print_interactive; [exact R1|]. intros R2.
    apply IH; [exact R2|]. cbn. rewrite E in Hlen. simpl in Hlen. lia.
Qed.

Lemma ask_usage_interactive (w : world) :
  wp ask_usage (interactive w (fun u => In u usages)) w.
Proof.
  unfold ask_usage.
  exact (usage_loop_interactive (S (List.length (stdin w))) w w
           (reads_only_refl w) (Nat.lt_succ_diag_r _)).
Qed.

Lemma shoe_from_suffix (a b : list string) (s : shoe) :
  suffix_of a b -> shoe_from a s -> shoe_from b s.
Proof.
  intros Hs ((l1 & I1 & E1) & (l2 & I2 & E2) & (l3 & I3 & E3) & Hu & Hz).
  repeat split.
  - exists l1. split; [eapply suffix_of_In; eassumption|exact E1].
  - exists l2. split; [eapply suffix_of_In; eassumption|exact E2].
  - exists l3. split; [eapply suffix_of_In; eassumption|exact E3].
  - exact Hu.
  - eapply sized_from_suffix; eassumption.
Qed.

(** One turn of the loop: one record more, made of lines of the input. *)
Lemma shoe_prompts_interactive (i : Z) (shoes : list shoe) (w : world) :
  wp (shoe_prompts i shoes)
     (interactive w (fun shoes' =>
                       exists s, shoes' = (shoes ++ [s])%list
                                 /\ shoe_from (stdin w) s)) w.
Proof.
  unfold shoe_prompts.
  apply wp_print_interactive; [apply reads_only_refl|]. intros R0.
  apply wp_input_interactive; [exact R0|]. intros l1 r1 E1 R1.
  apply wp_input_interactive; [exact R1|]. intros l2 r2 E2 R2.
  apply wp_input_interactive; [exact R2|]. intros l3 r3 E3 R3.
  pose proof (reads_only_In _ _ _ _ R0 E1) as I1.
  pose proof (reads_only_In _ _ _ _ R1 E2) as I2.
  pose proof (reads_only_In _ _ _ _ R2 E3) as I3.
  eapply wp_call_interactive; [exact R3|apply ask_usage_interactive|].
  intros u w4 Hu R4 _.
  apply wp_input_interactive; [exact R4|]. intros l5 r5 E5 R5.
  pose proof (reads_only_In _ _ _ _ R4 E5) as I5.
  apply wp_bind, wp_try. unfold py_float.
  destruct (float_of_string (strip l5)) as [f|] eqn:Ef.
  - apply wp_bind, wp_ret, wp_ret, wp_ret. split; [exact R5|].
    eexists. split; [reflexivity|]. unfold shoe_from.
    cbn [brand name color usage size]. repeat split; eauto.
    exists l5. split; [exact I5|]. unfold size_of_token. now rewrite Ef.
  - apply wp_bind, wp_raise. apply wp_bind, wp_print, wp_ret, wp_ret.
    split; [eapply reads_only_trans; [exact R5|apply reads_only_print]|].
    eexists. split; [reflexivity|]. unfold shoe_from.
    cbn [brand name color usage size]. repeat split; eauto.
    exists l5. split; [exact I5|]. unfold size_of_token. now rewrite Ef.
Qed.

(** The loop over the shoes: one record per turn. *)
Lemma shoe_loop_interactive (toks : list string) (idx : list Z) :
  forall shoes w,
    suffix_of (stdin w) toks ->
    wp (for_list idx shoe_prompts shoes)
       (interactive w (fun shoes' =>
                         exists new, shoes' = (shoes ++ new)%list
                                     /\ List.length new = List.length idx
                                     /\ Forall (shoe_from toks) new)) w.
Proof.
  induction idx as [|i idx IH]; intros shoes w Hw.
  - apply wp_ret. split; [apply reads_only_refl|].
    exists []. rewrite app_nil_r. repeat split. constructor.
  - cbn [for_list].
    eapply wp_call_interactive;
      [apply reads_only_refl|apply shoe_prompts_interactive|].
    intros shoes1 w1 (s & -> & Hs) R1 _.
    assert (Hw1 : suffix_of (stdin w1) toks).
    { eapply suffix_of_trans; [|exact Hw]. now destruct R1. }
    eapply wp_conseq; [apply (IH _ w1 Hw1)|].
    intros o w'. apply interactive_later; [exact R1|].
    intros shoes' (new & -> & Hl & Hf). exists (s :: new).
    rewrite <- app_assoc. repeat split.
    + simpl. now rewrite Hl.
    + constructor; [|exact Hf]. exact (shoe_from_suffix _ _ _ Hw Hs).
Qed.

(** The collector: records made of lines of the input, the end of the
    input, or the recursion limit; nothing but reading and printing on
    the way. *)
Lemma get_shoe_data_rec_interactive (toks : list string) (depth : nat) :
  forall w0 w,
    reads_only w0 w ->
    suffix_of (stdin w) toks ->
    wp (get_shoe_data_rec depth) (interactive w0 (Forall (shoe_from toks))) w.
Proof.
  induction depth as [|depth IH]; intros w0 w R Hw;
    cbn [get_shoe_data_rec]; apply wp_try, wp_bind, wp_input.
  1, 3: intros E; split; [|exact E];
    eapply reads_only_trans; [exact R|apply reads_only_print].
  all: intros l rest E;
    assert (R1 : reads_only w0 (set_stdin rest (add_stdout count_prompt w)))
      by (eapply reads_only_trans;
          [exact R|exact (reads_only_input count_prompt l rest w E)]);
    assert (S1 : suffix_of rest toks)
      by (eapply suffix_of_trans; [|exact Hw]; rewrite E; apply suffix_of_cons);
    apply wp_bind; unfold py_int; destruct (int_of_string l) as [n|].
  1, 3: apply wp_ret; eapply wp_conseq;
    [apply (shoe_loop_interactive toks (range 1 (n + 1)) []); exact S1|];
    intros o w1 [R2 H];
    assert (R3 : reads_only w0 w1) by (eapply reads_only_trans; eassumption);
    destruct o as [shoes|[ | | | | | | ]|]; try contradiction;
    [split; [exact R3|]; destruct H as (new & -> & _ & Hf); exact Hf
    |split; [exact R3|exact H]
    |split; [exact R3|exact H]].
  - apply wp_raise. apply wp_bind, wp_print. apply wp_bind, wp_print, wp_raise.
    split; [|exact I].
    eapply reads_only_trans; [exact R1|].
    eapply reads_only_trans; apply reads_only_print.
  - apply wp_raise. apply wp_bind, wp_print.
    apply IH; [|exact S1].
    eapply reads_only_trans; [exact R1|apply reads_only_print].
Qed.

Lemma get_shoe_data_interactive (w : world) :
  wp get_shoe_data (interactive w (Forall (shoe_from (stdin w)))) w.
Proof.
  unfold get_shoe_data.
  exact (get_shoe_data_rec_interactive (stdin w) (stack w) w w
           (reads_only_refl w) (suffix_of_refl _)).
Qed.

(** X1: whatever is typed, the interactive collector ends in one of
    three ways: with its records; with [EOFError] and the input read to
    its end; or with [RecursionError], after one rejected count more
    than the recursion limit leaves room for nested calls.  It raises
    nothing else, its loops end, and it does nothing but read lines and
    print: files, effects and the terminal flag are as before. *)
Theorem get_shoe_data_reads_only (w : world) :
  exists o w',
    get_shoe_data w = (o, w')
    /\ reads_only w w'
    /\ ((exists shoes, o = Ret shoes)
        \/ (o = Raise EOFError /\ stdin w' = [])
        \/ (o = Raise RecursionError
            /\ exists refused,
                 stdin w = (refused ++ stdin w')%list
                 /\ Forall (fun l => int_of_string l = None) refused
                 /\ List.length refused = S (stack w))).
Proof.
  pose proof (get_shoe_data_interactive w) as H. unfold wp in H.
  pose proof (get_shoe_data_rec_typed (stack w) w) as T. unfold wp in T.
  fold (get_shoe_data w) in T.
  destruct (get_shoe_data w) as [o w'] eqn:E. cbn [fst snd] in H, T.
  exists o, w'. destruct H as [R H]. split; [reflexivity|]. split; [exact R|].
  destruct o as [shoes|[ | | | | | | ]|]; try contradiction.
  - left. now exists shoes.
  - right. left. now split.
  - right. right. split; [reflexivity|].
    destruct T as (lines & El & Hr & Hn). now exists lines.
Qed.

(** A session with room for two nested calls only, and three counts
    that [int] rejects. *)
Example get_shoe_data_recursion_limit :
  fst (get_shoe_data
         (mkWorld true ["a"; "b"; "c"; "1"] (fun _ => Missing) (fun _ => true)
                  2 (fun _ => None) [] []))
  = Raise RecursionError.
Proof. reflexivity. Qed.

(** X2: every record the interactive collector returns is made of lines
    of the input: brand, name and color are lines stripped and
    capitalized (so capitalizing them again changes nothing), the usage
    is one of the three, the size comes from a line. *)
Theorem get_shoe_data_records (w w' : world) (shoes : list shoe) :
  get_shoe_data w = (Ret shoes, w') ->
  Forall (fun s => shoe_from (stdin w) s
                   /\ capitalize (brand s) = brand s
                   /\ capitalize (name s) = name s
                   /\ capitalize (color s) = color s) shoes.
Proof.
  intros E.
  pose proof (wp_result _ _ _ _ _ (get_shoe_data_interactive w) E) as [_ H].
  eapply Forall_impl; [|exact H]. cbn. intros s Hs. split; [exact Hs|].
  destruct Hs as ((l1 & _ & E1) & (l2 & _ & E2) & (l3 & _ & E3) & _).
  rewrite E1, E2, E3. repeat split; apply capitalize_idem.
Qed.

Lemma get_shoe_data_records_witness :
  Forall (fun s => shoe_from ["1"; " nike"; "AIR MAX "; "black"; "athletic";
                              "10.5"] s
                   /\ capitalize (brand s) = brand s
                   /\ capitalize (name s) = name s
                   /\ capitalize (color s) = color s)
         [mkShoe "Nike" "Air max" "Black" "Athletic"
                 (PFloat (FFin false 105 (-1)))].
Proof.
  apply (get_shoe_data_records
           (terminal ["1"; " nike"; "AIR MAX "; "black"; "athletic"; "10.5"])
           (after []
              [count_prompt; String LF "Shoe #1"; "Brand: "; "Name/Model: ";
               "Color: "; usage_prompt; "Size (numerical): "] (terminal []))).
  vm_compute. reflexivity.
Defined.

(** X3: when the interactive collector returns, some line of the input
    was accepted as the count after the lines [int] rejects, and the
    collector returns exactly that many records: none for a count of
    zero or less. *)
Theorem get_shoe_data_count (w w' : world) (shoes : list shoe) :
  get_shoe_data w = (Ret shoes, w') ->
  exists bads good n rest,
    stdin w = (bads ++ good :: rest)%list
    /\ Forall (fun l => int_of_string l = None) bads
    /\ int_of_string good = Some n
    /\ List.length shoes = Z.to_nat n.
Proof.
  intros H.
  pose proof (wp_result _ _ _ _ _ (get_shoe_data_rec_typed (stack w) w) H) as T.
  cbn in T.
  destruct T as (lines & El & refused & count & n & ans
                 & -> & Hr & _ & Hc & Ha & _ & ->).
  exists refused, count, n, (flat_map answer_lines ans ++ stdin w')%list.
  split; [|split; [exact Hr|split; [exact Hc|now rewrite length_map]]].
  rewrite El. unfold transcript. now rewrite <- app_assoc.
Qed.

Lemma get_shoe_data_count_witness :
  exists bads good n rest,
    ["abc"; "2"; "nike"; "air max"; "black"; "athletic"; "10.5";
     "adidas"; "superstar"; "white"; "casual"; "11"]
    = (bads ++ good :: rest)%list
    /\ Forall (fun l => int_of_string l = None) bads
    /\ int_of_string good = Some n
    /\ List.length
         [mkShoe "Nike" "Air max" "Black" "Athletic"
                 (PFloat (FFin false 105 (-1)));
          mkShoe "Adidas" "Superstar" "White" "Casual"
                 (PFloat (FFin false 11 0))]
       = Z.to_nat n.
Proof.
  apply (get_shoe_data_count
           (terminal ["abc"; "2"; "nike"; "air max"; "black"; "athletic";
                      "10.5"; "adidas"; "superstar"; "white"; "casual"; "11"])
           (after []
              [count_prompt; count_retry_message; count_prompt;
               String LF "Shoe #1"; "Brand: "; "Name/Model: "; "Color: ";
               usage_prompt; "Size (numerical): ";
               String LF "Shoe #2"; "Brand: "; "Name/Model: "; "Color: ";
               usage_prompt; "Size (numerical): "] (terminal []))).
  vm_compute. reflexivity.
Defined.

(** X4: a count of zero or less is accepted without a word: the
    collector returns the empty list and reads nothing after the count
    line. *)
Theorem get_shoe_data_no_shoes (l : string) (n : Z) (rest : list string)
    (w : world) :
  stdin w = l :: rest ->
  int_of_string l = Some n ->
  (n <= 0)%Z ->
  get_shoe_data w = (Ret [], after rest [count_prompt] w).
Proof.
  intros E Hl Hn. unfold get_shoe_data.
  rewrite (get_shoe_data_rec_count _ l n rest w E Hl).
  unfold range. replace (Z.to_nat (n + 1 - 1)) with 0 by lia. reflexivity.
Qed.

Lemma get_shoe_data_no_shoes_witness :
  get_shoe_data (terminal ["-3"; "nike"])
  = (Ret [], after ["nike"] [count_prompt] (terminal ["-3"; "nike"])).
Proof.
  apply (get_shoe_data_no_shoes "-3" (-3) ["nike"] (terminal ["-3"; "nike"]));
    [reflexivity|reflexivity|lia].
Defined.

Lemma usage_loop_retries (bads : list string) :
  forall (fuel : nat) (good : string) (rest : list string) (w : world),
    Forall (fun l => ~ In (capitalize (strip l)) usages) bads ->
    In (capitalize (strip good)) usages ->
    stdin w = (bads ++ good :: rest)%list ->
    List.length bads < fuel ->
    usage_loop fuel w
    = (Ret (capitalize (strip good)),
       after rest
         (flat_map (fun _ => [usage_prompt; usage_retry_message]) bads
          ++ [usage_prompt]) w).
Proof.
  induction bads as [|b bads IH]; intros fuel good rest w Hb Hg E Hlen;
    (destruct fuel as [|fuel]; [simpl in Hlen; lia|]);
    cbn [usage_loop]; unfold bind at 1, input; rewrite E; cbn [app].
  - apply str_in_In in Hg. rewrite Hg. reflexivity.
  - inversion Hb as [|? ? Hb1 Hb2]; subst.
    assert (Hn : str_in (capitalize (strip b)) usages = false).
    { destruct (str_in (capitalize (strip b)) usages) eqn:B; [|reflexivity].
      apply str_in_In in B. contradiction. }
    rewrite Hn. unfold bind, print.
    match goal with
    | |- usage_loop fuel ?W = _ =>
        rewrite (IH fuel good rest W Hb2 Hg);
        [|reflexivity|simpl in Hlen; lia]
    end.
    f_equal. unfold after, add_stdout, set_stdin; cbn.
    now rewrite <- !app_assoc.
Qed.

(** X5: the usage prompt is repeated, with its message, for every line
    that does not normalize to one of the three usages; the first line
    that does gives the usage, and the rest of the input is left for
    the size prompt. *)
Theorem usage_prompt_retries (bads : list string) (good : string)
    (rest : list string) (w : world) :
  Forall (fun l => ~ In (capitalize (strip l)) usages) bads ->
  In (capitalize (strip good)) usages ->
  stdin w = (bads ++ good :: rest)%list ->
  ask_usage w
  = (Ret (capitalize (strip good)),
     after rest
       (flat_map (fun _ => [usage_prompt; usage_retry_message]) bads
        ++ [usage_prompt]) w).
Proof.
  intros Hb Hg E. unfold ask_usage.
  apply (usage_loop_retries bads _ good rest w Hb Hg E).
  rewrite E, length_app. simpl. lia.
Qed.

Lemma usage_prompt_retries_witness :
  ask_usage (terminal ["running"; ""; " FORMAL "; "10"])
  = (Ret "Formal",
     after ["10"]
       [usage_prompt; usage_retry_message; usage_prompt; usage_retry_message;
        usage_prompt]
       (terminal ["running"; ""; " FORMAL "; "10"])).
Proof.
  apply (usage_prompt_retries ["running"; ""] " FORMAL " ["10"]
           (terminal ["running"; ""; " FORMAL "; "10"])).
  - repeat constructor; cbn; intuition discriminate.
  - cbn. tauto.
  - reflexivity.
Defined.

(* ================================================================== *)
(** * The warnings of the file collector *)
(* ================================================================== *)

Lemma row_warnings_defaults (line : string) :
  row_warnings line = defaults_of line.
Proof.
  unfold row_warnings, defaults_of, bad_usage, bad_size.
  change (capitalize (strip (field 3 line))) with (usage_token line).
  change (strip (field 4 line)) with (size_token line).
  destruct (str_in (usage_token line) usages),
    (float_of_string (size_token line)); reflexivity.
Qed.

Lemma flat_map_defaults (rows : list string) :
  flat_map row_warnings rows = flat_map defaults_of rows.
Proof.
  induction rows as [|r rows IH]; [reflexivity|].
  cbn [flat_map]. now rewrite row_warnings_defaults, IH.
Qed.

Lemma length_defaults (rows : list string) :
  List.length (flat_map defaults_of rows)
  = List.length (filter bad_usage rows) + List.length (filter bad_size rows).
Proof.
  induction rows as [|r rows IH]; [reflexivity|].
  cbn [flat_map filter]. rewrite !length_app, IH. unfold defaults_of.
  destruct (bad_usage r), (bad_size r); simpl; lia.
Qed.

(** X6: a read that finds data prints, row by row in the order of the
    data rows, the usage warning of a row whose usage is none of the
    three and then the size warning of a row whose size [float]
    rejects, and nothing else: one warning for every field replaced by
    a default.  It leaves the input, the files and the effects as they
    were. *)
Theorem file_collector_warnings (filename content : string) (w : world) :
  fs w filename = Text content ->
  data_rows content <> [] ->
  exists shoes,
    read_shoe_data_from_file filename w
    = (Ret (Some shoes), prints (flat_map defaults_of (data_rows content)) w)
    /\ List.length (flat_map defaults_of (data_rows content))
       = List.length (filter bad_usage (data_rows content))
         + List.length (filter bad_size (data_rows content)).
Proof.
  intros Hf Hn. rewrite (read_text_rows _ _ _ Hf Hn).
  eexists. split; [now rewrite flat_map_defaults|apply length_defaults].
Qed.

Lemma file_collector_warnings_witness :
  exists shoes,
    read_shoe_data_from_file "shoes.txt"
      (world_with true [] "shoes.txt" warnings_text)
    = (Ret (Some shoes),
       prints [size_warning "big"; usage_warning "Hiking"; size_warning "ten"]
              (world_with true [] "shoes.txt" warnings_text))
    /\ List.length [size_warning "big"; usage_warning "Hiking";
                    size_warning "ten"]
       = List.length (filter bad_usage (data_rows warnings_text))
         + List.length (filter bad_size (data_rows warnings_text))
    /\ List.length (filter bad_usage (data_rows warnings_text)) = 1
    /\ List.length (filter bad_size (data_rows warnings_text)) = 2.
Proof.
  destruct (file_collector_warnings "shoes.txt" warnings_text
              (world_with true [] "shoes.txt" warnings_text) eq_refl)
    as (shoes & E & L).
  - vm_compute. discriminate.
  - exists shoes. split; [exact E|]. split; [exact L|]. split; reflexivity.
Defined.

(* ================================================================== *)
(** * The template *)
(* ================================================================== *)

Lemma create_template_file_written (filename : string) (w : world) :
  writable w filename = true ->
  create_template_file filename w
  = (Ret tt,
     prints (template_messages filename)
       (add_effect (WroteFile filename)
          (set_file filename (Text template_text) w))).
Proof.
  intros Hw.
  unfold create_template_file, try_except, bind, write_file, print.
  rewrite Hw. f_equal. unfold prints, add_stdout, template_messages; cbn.
  now rewrite <- !app_assoc.
Qed.

Lemma create_template_file_refused (filename : string) (w : world) :
  writable w filename = false ->
  create_template_file filename w
  = (Ret tt, prints [template_error filename] w).
Proof.
  intros Hw.
  unfold create_template_file, try_except, bind, write_file, print.
  now rewrite Hw.
Qed.

(** X7: the template writer never raises.  On a path that can be written
    it writes the template there, touches no other file and prints its
    three lines; on a path that cannot it prints the error and changes
    nothing else. *)
Theorem create_template_file_outcome (filename : string) (w : world) :
  exists w',
    create_template_file filename w = (Ret tt, w')
    /\ stdin w' = stdin w
    /\ (forall p, p <> filename -> fs w' p = fs w p)
    /\ (writable w filename = true ->
        fs w' filename = Text template_text
        /\ stdout w' = (stdout w ++ template_messages filename)%list
        /\ effects w' = (effects w ++ [WroteFile filename])%list)
    /\ (writable w filename = false ->
        fs w' filename = fs w filename
        /\ stdout w' = (stdout w ++ [template_error filename])%list
        /\ effects w' = effects w).
Proof.
  destruct (writable w filename) eqn:Hw.
  - rewrite (create_template_file_written _ _ Hw).
    eexists. split; [reflexivity|]. cbn. split; [reflexivity|].
    split.
    + intros p Hp. destruct (String.eqb_spec p filename); [contradiction|].
      reflexivity.
    + split; [|discriminate]. intros _. rewrite String.eqb_refl.
      repeat split.
  - rewrite (create_template_file_refused _ _ Hw).
    eexists. split; [reflexivity|]. cbn. split; [reflexivity|].
    split; [reflexivity|]. split; [discriminate|]. intros _.
    repeat split.
Qed.

Lemma create_template_file_outcome_witness :
  exists w',
    create_template_file "t.txt" (terminal []) = (Ret tt, w')
    /\ fs w' "t.txt" = Text template_text
    /\ fs w' "other.txt" = Missing
    /\ effects w' = [WroteFile "t.txt"].
Proof.
  destruct (create_template_file_outcome "t.txt" (terminal []))
    as (w' & E & _ & Ho & Hy & _).
  exists w'. split; [exact E|].
  destruct (Hy eq_refl) as (Hf & _ & He).
  split; [exact Hf|]. split; [|exact He].
  rewrite (Ho "other.txt"); [reflexivity|discriminate].
Defined.

Lemma template_rows :
  map row_shoe (data_rows template_text) = template_shoes
  /\ flat_map row_warnings (data_rows template_text) = [].
Proof. split; vm_compute; reflexivity. Qed.

(** X8: the file the template writer writes is one the file collector
    reads: writing the template to a writable path and reading that path
    gives the three example records, without any warning. *)
Theorem template_read_back (filename : string) (w : world) :
  writable w filename = true ->
  exists w',
    (create_template_file filename ;; read_shoe_data_from_file filename) w
    = (Ret (Some template_shoes), w')
    /\ stdout w' = (stdout w ++ template_messages filename)%list.
Proof.
  intros Hw. unfold bind at 1.
  rewrite (create_template_file_written _ _ Hw).
  set (w1 := prints _ _).
  assert (Hf : fs w1 filename = Text template_text)
    by (unfold w1; cbn; now rewrite String.eqb_refl).
  destruct template_rows as [Hr Hq].
  rewrite (read_text_rows _ _ _ Hf) by (vm_compute; discriminate).
  rewrite Hr, Hq, prints_nil. exists w1. split; reflexivity.
Qed.

Lemma template_read_back_witness :
  exists w',
    (create_template_file "shoe_data_template.txt" ;;
     read_shoe_data_from_file "shoe_data_template.txt") (terminal [])
    = (Ret (Some template_shoes), w')
    /\ stdout w' = template_messages "shoe_data_template.txt".
Proof.
  apply (template_read_back "shoe_data_template.txt" (terminal [])).
  reflexivity.
Defined.

(* ================================================================== *)
(** * The session *)
(* ================================================================== *)

Lemma wp_isatty (Q : outcome bool -> world -> Prop) (w : world) :
  Q (Ret (isatty w)) w -> wp stdin_isatty Q w.
Proof. exact (fun H => H). Qed.

Lemma wp_stdin_read (Q : outcome string -> world -> Prop) (w : world) :
  Q (Ret (piped_text (stdin w))) (set_stdin [] w) -> wp stdin_read Q w.
Proof. exact (fun H => H). Qed.

Lemma wp_write_file (path content : string)
    (Q : outcome unit -> world -> Prop) (w : world) :
  (writable w path = true ->
   Q (Ret tt) (add_effect (WroteFile path) (set_file path (Text content) w))) ->
  (writable w path = false ->
   Q (Raise (OSError ("[Errno 13] Permission denied: '" ++ path ++ "'"))) w) ->
  wp (write_file path content) Q w.
Proof.
  unfold wp, write_file. intros H1 H0.
  destruct (writable w path); cbn [fst snd]; auto.
Qed.

Lemma wp_savefig (f : figure) (path : string)
    (Q : outcome unit -> world -> Prop) (w : world) :
  (writable w path = true ->
   Q (Ret tt) (add_effect (SavedFigure path f)
                 (set_file path (Unreadable "image data") w))) ->
  (writable w path = false ->
   Q (Raise (OSError ("[Errno 13] Permission denied: '" ++ path ++ "'"))) w) ->
  wp (savefig f path) Q w.
Proof.
  unfold wp, savefig. intros H1 H0.
  destruct (writable w path); cbn [fst snd]; auto.
Qed.

Lemma wp_open_write (path : string)
    (Q : outcome unit -> world -> Prop) (w : world) :
  (writable w path = true ->
   Q (Ret tt) (set_file path (Text EmptyString) w)) ->
  (writable w path = false ->
   Q (Raise (OSError ("[Errno 13] Permission denied: '" ++ path ++ "'"))) w) ->
  wp (open_write path) Q w.
Proof.
  unfold wp, open_write. intros H1 H0.
  destruct (writable w path); cbn [fst snd]; auto.
Qed.

Lemma wp_write_text (path content : string)
    (Q : outcome unit -> world -> Prop) (w : world) :
  Q (Ret tt) (add_effect (WroteFile path) (set_file path (Text content) w)) ->
  wp (write_text path content) Q w.
Proof. exact (fun H => H). Qed.

Lemma wp_draw (df : dataframe) (Q : outcome unit -> world -> Prop) (w : world) :
  (plot_error w df = None -> Q (Ret tt) w) ->
  (forall e, plot_error w df = Some e -> Q (Raise e) w) ->
  wp (draw df) Q w.
Proof.
  unfold wp, draw. intros H0 H1.
  destruct (plot_error w df) as [e|]; cbn [fst snd]; auto.
Qed.

Lemma wp_input_line (Q : outcome string -> world -> Prop) (w : world) :
  (stdin w = [] -> Q (Raise EOFError) w) ->
  (forall l rest, stdin w = l :: rest -> Q (Ret l) (set_stdin rest w)) ->
  wp input_line Q w.
Proof.
  unfold wp, input_line. intros H0 H1.
  destruct (stdin w) as [|l rest]; cbn [fst snd]; auto.
Qed.

Lemma wp_exists {A} (m : M A) (a : A) (P : world -> Prop) (w : world) :
  wp m (fun o w' => o = Ret a /\ P w') w ->
  exists w', m w = (Ret a, w') /\ P w'.
Proof.
  unfold wp. destruct (m w) as [o w']. cbn [fst snd]. intros [-> H].
  now exists w'.
Qed.

Lemma create_dataframe_rows (shoes : list shoe) :
  shoes <> [] -> create_dataframe shoes <> [].
Proof.
  destruct shoes as [|s shoes]; [contradiction|]. intros _.
  unfold create_dataframe. destruct (forallb _ _); discriminate.
Qed.

(** A frame with rows that the libraries draw: the two figures. *)
Lemma analyze_shoes_rows (df : dataframe) (save_figures : bool) (w : world) :
  df <> [] ->
  plot_error w df = None ->
  analyze_shoes df save_figures w
  = (Ret (Some (ChartsFig (brand_usage_top8 df), TableFig df)),
     analyzed df save_figures w).
Proof.
  destruct df as [|s df]; [contradiction|]. intros _ Hp.
  unfold analyze_shoes, bind at 1, draw. rewrite Hp.
  destruct save_figures; reflexivity.
Qed.


(** The piped branch of [main_collect], the temporary file writable. *)
Lemma main_collect_piped (w : world) :
  isatty w = false ->
  writable w temp_filename = true ->
  exists w',
    main_collect w
    = (Ret (match data_rows (piped_text (stdin w)) with
            | [] => None
            | rows => Some (map row_shoe rows)
            end), w')
    /\ isatty w' = false
    /\ stdin w' = []
    /\ writable w' = writable w
    /\ effects w'
       = (effects w ++ [WroteFile temp_filename; RemovedFile temp_filename])%list
    /\ temp_cleaned w w'
    /\ stdout w'
       = (stdout w
          ++ ["Detecting piped input..."; "Reading shoe data from piped input..."]
          ++ match data_rows (piped_text (stdin w)) with
             | [] => [no_data_message;
                      "No valid data found in the piped input. Exiting program."]
             | rows => flat_map row_warnings rows
             end)%list
    /\ plot_error w' = plot_error w.
Proof.
  intros Htty Hw. apply wp_exists. unfold main_collect.
  apply wp_bind, wp_isatty. rewrite Htty. cbn [negb].
  apply wp_bind, wp_print.
  apply wp_bind, wp_open_write; [intros _|cbn; fold temp_filename; congruence].
  apply wp_bind, wp_stdin_read. apply wp_bind, wp_write_text.
  apply wp_bind, wp_print. apply wp_bind.
  match goal with
  | |- wp _ _ ?W =>
      assert (Hf : fs W temp_filename = Text (piped_text (stdin w)))
        by reflexivity;
      pose proof (read_text _ _ W Hf) as Hread
  end.
  destruct (data_rows (piped_text (stdin w))) as [|r rows].
  - eapply wp_eq; [exact Hread|].
    apply wp_bind, wp_try. unfold wp, os_remove. cbn.
    repeat split; try reflexivity; try exact Htty;
      try (now rewrite <- !app_assoc).
    intros p Hp. cbn. destruct (String.eqb_spec p "temp_shoe_data.txt");
      [contradiction|reflexivity].
  - eapply wp_eq; [exact Hread|].
    apply wp_bind, wp_try. unfold wp, os_remove. cbn.
    repeat split; try reflexivity; try exact Htty;
      try (now rewrite <- !app_assoc).
    intros p Hp. cbn. destruct (String.eqb_spec p "temp_shoe_data.txt");
      [contradiction|reflexivity].
Qed.

Lemma wp_run {A} (m : M A) (r : outcome A * world) (w : world) :
  wp m (fun o w' => (o, w') = r) w -> m w = r.
Proof. unfold wp. destruct (m w) as [o w']. exact (fun H => H). Qed.

(** X9: a piped run whose input has no data row ends normally after the
    two messages; the temporary file was written and removed again, and
    nothing else was written, rendered or saved. *)
Theorem main_piped_no_data (w : world) :
  isatty w = false ->
  writable w temp_filename = true ->
  data_rows (piped_text (stdin w)) = [] ->
  exists w',
    main w = (Ret tt, w')
    /\ stdin w' = []
    /\ effects w'
       = (effects w ++ [WroteFile temp_filename; RemovedFile temp_filename])%list
    /\ temp_cleaned w w'
    /\ stdout w'
       = (stdout w
          ++ [banner; "Detecting piped input...";
              "Reading shoe data from piped input..."; no_data_message;
              "No valid data found in the piped input. Exiting program."])%list.
Proof.
  intros Htty Hw Hrows.
  destruct (main_collect_piped (add_stdout banner w) Htty Hw)
    as (w' & E & _ & Hs & _ & He & Hc & Ho & _).
  cbn [stdin stdout effects add_stdout] in E, He, Ho. rewrite Hrows in E, Ho.
  apply wp_exists. unfold main. apply wp_bind, wp_print.
  apply wp_bind. eapply wp_eq; [exact E|]. apply wp_ret.
  split; [reflexivity|]. split; [exact Hs|]. split; [exact He|].
  split; [exact Hc|]. rewrite Ho. now rewrite <- app_assoc.
Qed.

Lemma main_piped_no_data_witness :
  exists w',
    main (piped ["Brand,Name,Color,Usage,Size"; "# nothing yet"; "nike,air max"])
    = (Ret tt, w')
    /\ stdin w' = []
    /\ effects w' = [WroteFile temp_filename; RemovedFile temp_filename]
    /\ temp_cleaned
         (piped ["Brand,Name,Color,Usage,Size"; "# nothing yet"; "nike,air max"])
         w'
    /\ stdout w'
       = [banner; "Detecting piped input...";
          "Reading shoe data from piped input..."; no_data_message;
          "No valid data found in the piped input. Exiting program."].
Proof.
  apply (main_piped_no_data
           (piped ["Brand,Name,Color,Usage,Size"; "# nothing yet";
                   "nike,air max"]));
    reflexivity.
Defined.

(** X10: a piped run whose input has data rows, and whose frame the
    plotting libraries draw, ends normally: the temporary file is
    written and removed, the two figures are rendered but never shown,
    then shoe_collection.csv is written and the two figures are saved
    under their default names, in that order; nothing is asked. *)
Theorem main_piped_saves (w : world) :
  isatty w = false ->
  Forall (fun p => writable w p = true)
         [temp_filename; csv_filename; "shoe_collection_charts.png";
          "shoe_collection_table.png"] ->
  data_rows (piped_text (stdin w)) <> [] ->
  plot_error w (piped_frame w) = None ->
  exists w' charts table,
    main w = (Ret tt, w')
    /\ stdin w' = []
    /\ effects w'
       = (effects w
          ++ [WroteFile temp_filename; RemovedFile temp_filename;
              Rendered charts; Rendered table]
          ++ default_artifacts charts table)%list
    /\ (exists text, fs w' csv_filename = Text text)
    /\ fs w' temp_filename = Missing.
Proof.
  intros Htty Hw Hrows Hplot. unfold piped_frame in Hplot.
  set (df := create_dataframe _) in Hplot.
  inversion Hw as [|? ? Hw0 Hw1]; subst.
  inversion Hw1 as [|? ? Hw2 Hw3]; subst.
  inversion Hw3 as [|? ? Hw4 Hw5]; subst.
  inversion Hw5 as [|? ? Hw6 _]; subst.
  destruct (main_collect_piped (add_stdout banner w) Htty Hw0)
    as (w2 & E & Ht & Hs & Hwr & He & [Hc _] & _ & Hp2).
  cbn [stdin stdout effects writable plot_error add_stdout] in E, He, Hwr, Hp2.
  assert (Hdf : df <> []).
  { apply create_dataframe_rows. destruct (data_rows _); [contradiction|].
    discriminate. }
  assert (E' : main_collect (add_stdout banner w)
               = (Ret (Some (map row_shoe (data_rows (piped_text (stdin w))))),
                  w2)).
  { rewrite E. destruct (data_rows _); [contradiction|reflexivity]. }
  clear E.
  cut (exists w', main w = (Ret tt, w')
         /\ stdin w' = []
         /\ effects w'
            = (effects w
               ++ [WroteFile temp_filename; RemovedFile temp_filename;
                   Rendered (ChartsFig (brand_usage_top8 df));
                   Rendered (TableFig df)]
               ++ default_artifacts (ChartsFig (brand_usage_top8 df))
                                    (TableFig df))%list
         /\ (exists text, fs w' csv_filename = Text text)
         /\ fs w' temp_filename = Missing).
  { intros (w' & H). exists w', (ChartsFig (brand_usage_top8 df)), (TableFig df).
    exact H. }
  apply wp_exists. unfold main. apply wp_bind, wp_print.
  apply wp_bind. eapply wp_eq; [exact E'|]. cbv zeta. fold df.
  apply wp_bind, wp_bind, wp_isatty, wp_ret. rewrite Ht. cbn [negb].
  apply wp_bind, wp_print. apply wp_bind.
  eapply wp_eq;
    [apply (analyze_shoes_rows df true _ Hdf); cbn; now rewrite Hp2|].
  apply wp_bind, wp_ret. apply wp_bind, wp_bind, wp_isatty, wp_ret.
  cbn [isatty analyzed add_effect add_stdout]. rewrite Ht. cbn [negb].
  apply wp_bind, wp_bind, wp_write_file;
    [intros _|cbn; rewrite Hwr; fold csv_filename; congruence].
  apply wp_bind, wp_print. apply wp_bind, wp_print.
  apply wp_bind, wp_savefig; [intros _|cbn; rewrite Hwr; congruence].
  apply wp_bind, wp_print.
  apply wp_bind, wp_savefig; [intros _|cbn; rewrite Hwr; congruence].
  apply wp_bind, wp_print. apply wp_print. apply wp_print.
  cbn. split; [reflexivity|]. split; [exact Hs|]. rewrite He.
  split; [now rewrite <- !app_assoc|]. split; [now eexists|exact Hc].
Qed.

Lemma main_piped_saves_witness :
  exists w' charts table,
    main one_row_piped = (Ret tt, w')
    /\ stdin w' = []
    /\ effects w'
       = [WroteFile "temp_shoe_data.txt"; RemovedFile "temp_shoe_data.txt";
          Rendered charts; Rendered table;
          WroteFile "shoe_collection.csv";
          SavedFigure "shoe_collection_charts.png" charts;
          SavedFigure "shoe_collection_table.png" table]
    /\ (exists text, fs w' "shoe_collection.csv" = Text text)
    /\ fs w' "temp_shoe_data.txt" = Missing.
Proof.
  apply (main_piped_saves one_row_piped);
    [reflexivity|repeat constructor|vm_compute; discriminate|reflexivity].
Defined.

Lemma after_eq (w : world) (rest out : list string) (w' : world) :
  isatty w' = isatty w -> stdin w' = rest -> fs w' = fs w ->
  writable w' = writable w -> stack w' = stack w ->
  plot_error w' = plot_error w -> stdout w' = (stdout w ++ out)%list ->
  effects w' = effects w ->
  w' = after rest out w.
Proof.
  destruct w'; unfold after; cbn. intros; subst. reflexivity.
Qed.

(** X11: on a terminal, a choice other than 1, 2 or 3 ends the run at
    once: the menu and the message are printed, one line is read, and
    nothing is written, rendered or asked. *)
Theorem main_invalid_choice (l : string) (rest : list string) (w : world) :
  isatty w = true ->
  stdin w = l :: rest ->
  ~ In (strip l) ["1"; "2"; "3"] ->
  main w
  = (Ret tt,
     after rest
       (banner :: menu_messages ++ ["Invalid choice. Exiting program."]) w).
Proof.
  intros Htty E Hl. apply wp_run. unfold main.
  apply wp_bind, wp_print. apply wp_bind. unfold main_collect.
  apply wp_bind, wp_isatty. cbn [isatty add_stdout]. rewrite Htty. cbn [negb].
  do 5 apply wp_bind, wp_print.
  apply wp_bind, wp_input; cbn [stdin add_stdout]; rewrite E;
    [discriminate|]. intros l' rest' [= <- <-].
  destruct (String.eqb_spec (strip l) "1") as [H1|_];
    [exfalso; apply Hl; rewrite H1; cbn; tauto|].
  destruct (String.eqb_spec (strip l) "2") as [H2|_];
    [exfalso; apply Hl; rewrite H2; cbn; tauto|].
  destruct (String.eqb_spec (strip l) "3") as [H3|_];
    [exfalso; apply Hl; rewrite H3; cbn; tauto|].
  apply wp_bind, wp_print, wp_ret, wp_ret. f_equal.
  apply after_eq; cbn; try reflexivity. now rewrite <- !app_assoc.
Qed.

Lemma main_invalid_choice_witness :
  main (terminal [" 4 "; "1"])
  = (Ret tt,
     after ["1"]
       (banner :: menu_messages ++ ["Invalid choice. Exiting program."])
       (terminal [" 4 "; "1"])).
Proof.
  apply (main_invalid_choice " 4 " ["1"] (terminal [" 4 "; "1"]));
    [reflexivity|reflexivity|].
  cbn. intros [H|[H|[H|[]]]]; discriminate H.
Defined.

(** X12: choice 3 writes the template under the name typed, or under
    shoe_data_template.txt for a blank answer; when the next answer is
    not y or Y the run ends there: three lines were read, the template
    is the only file written, nothing was rendered. *)
Theorem main_template_only (l f a : string) (rest : list string) (w : world) :
  isatty w = true ->
  stdin w = l :: f :: a :: rest ->
  strip l = "3" ->
  lower a <> "y" ->
  writable w (template_name f) = true ->
  exists w',
    main w = (Ret tt, w')
    /\ stdin w' = rest
    /\ fs w' (template_name f) = Text template_text
    /\ (forall p, p <> template_name f -> fs w' p = fs w p)
    /\ effects w' = (effects w ++ [WroteFile (template_name f)])%list.
Proof.
  intros Htty E Hl Ha Hw. apply wp_exists. unfold main.
  apply wp_bind, wp_print. apply wp_bind. unfold main_collect.
  apply wp_bind, wp_isatty. cbn [isatty add_stdout]. rewrite Htty. cbn [negb].
  do 5 apply wp_bind, wp_print.
  apply wp_bind, wp_input; cbn [stdin add_stdout]; rewrite E;
    [discriminate|]. intros l' rest' [= <- <-].
  rewrite Hl. cbn [String.eqb Ascii.eqb Bool.eqb andb].
  apply wp_bind, wp_input; cbn [stdin set_stdin add_stdout];
    [discriminate|]. intros f' rest' [= <- <-].
  cbv zeta. fold default_template. fold (template_name f).
  apply wp_bind.
  eapply wp_eq; [apply create_template_file_written; exact Hw|].
  apply wp_bind, wp_print.
  apply wp_bind, wp_input_line; cbn [stdin prints add_stdout add_effect set_file set_stdin];
    [discriminate|]. intros a' rest' [= <- <-].
  destruct (String.eqb_spec (lower a) "y") as [H|_]; [contradiction|].
  apply wp_bind, wp_print, wp_ret, wp_ret. cbn.
  split; [reflexivity|]. split; [reflexivity|].
  rewrite String.eqb_refl. split; [reflexivity|]. split; [|reflexivity].
  intros p Hp. destruct (String.eqb_spec p (template_name f));
    [contradiction|reflexivity].
Qed.

Lemma main_template_only_witness :
  exists w',
    main (terminal ["3"; ""; "n"]) = (Ret tt, w')
    /\ stdin w' = []
    /\ fs w' (template_name "") = Text template_text
    /\ (forall p, p <> template_name "" ->
                  fs w' p = fs (terminal ["3"; ""; "n"]) p)
    /\ effects w'
       = (effects (terminal ["3"; ""; "n"]) ++ [WroteFile (template_name "")])%list.
Proof.
  apply (main_template_only "3" "" "n" [] (terminal ["3"; ""; "n"]));
    [reflexivity|reflexivity|reflexivity|discriminate|reflexivity].
Defined.

(** X13: choice 2 with a path that cannot be read as text, or whose text
    has no data row, leads to the question about manual entry; when the
    answer is not y or Y the run ends normally with three lines read and
    nothing written, rendered or saved. *)
Theorem main_unread_file_declined (l f a : string) (rest : list string)
    (w : world) :
  isatty w = true ->
  stdin w = l :: f :: a :: rest ->
  strip l = "2" ->
  (forall content, fs w (strip f) = Text content -> data_rows content = []) ->
  lower a <> "y" ->
  exists w' out,
    main w = (Ret tt, w')
    /\ w' = after rest
              (out ++ ["Would you like to enter data manually instead? (y/n): ";
                       "Exiting program."]) w.
Proof.
  intros Htty E Hl Hf Ha.
  assert (Hread : forall w1, fs w1 = fs w ->
            exists m, read_shoe_data_from_file (strip f) w1
                      = (Ret None, prints [m] w1)).
  { intros w1 E1. destruct (fs w (strip f)) as [|why|content] eqn:Hc.
    - eexists. apply read_missing. now rewrite E1.
    - eexists. apply (read_unreadable _ why). now rewrite E1.
    - eexists. rewrite (read_text _ content) by now rewrite E1.
      now rewrite (Hf content eq_refl). }
  match goal with
  | |- exists w' out, main w = (Ret tt, w') /\ _ =>
      cut (exists w', main w = (Ret tt, w')
                      /\ exists out, w' = after rest
              (out ++ ["Would you like to enter data manually instead? (y/n): ";
                       "Exiting program."]) w)
  end.
  { intros (w' & Hm & out & Ho). now exists w', out. }
  apply wp_exists. unfold main.
  apply wp_bind, wp_print. apply wp_bind. unfold main_collect.
  apply wp_bind, wp_isatty. cbn [isatty add_stdout]. rewrite Htty. cbn [negb].
  do 5 apply wp_bind, wp_print.
  apply wp_bind, wp_input; cbn [stdin add_stdout]; rewrite E;
    [discriminate|]. intros l' rest' [= <- <-].
  rewrite Hl. cbn [String.eqb Ascii.eqb Bool.eqb andb].
  apply wp_bind, wp_input; cbn [stdin set_stdin add_stdout];
    [discriminate|]. intros f' rest' [= <- <-].
  cbv zeta. apply wp_bind.
  match goal with
  | |- wp _ _ ?W => destruct (Hread W eq_refl) as [m Hm]
  end.
  eapply wp_eq; [exact Hm|].
  apply wp_bind, wp_print.
  apply wp_bind, wp_input_line; cbn [stdin prints add_stdout set_stdin];
    [discriminate|]. intros a' rest' [= <- <-].
  destruct (String.eqb_spec (lower a) "y") as [H|_]; [contradiction|].
  apply wp_bind, wp_print, wp_ret, wp_ret.
  split; [reflexivity|].
  exists ([banner] ++ menu_messages
          ++ ["Enter the path to your shoe data file: "; m])%list.
  apply after_eq; cbn; try reflexivity. now rewrite <- !app_assoc.
Qed.

Lemma main_unread_file_declined_witness :
  exists w' out,
    main (terminal ["2"; "shoes.txt"; "no"]) = (Ret tt, w')
    /\ w' = after []
              (out ++ ["Would you like to enter data manually instead? (y/n): ";
                       "Exiting program."])
              (terminal ["2"; "shoes.txt"; "no"]).
Proof.
  apply (main_unread_file_declined "2" "shoes.txt" "no" []
           (terminal ["2"; "shoes.txt"; "no"]));
    [reflexivity|reflexivity|reflexivity|discriminate|discriminate].
Defined.

(* ================================================================== *)
(** * Saving *)
(* ================================================================== *)

Lemma string_rev_append (a b : string) :
  string_rev (a ++ b) = string_rev b ++ string_rev a.
Proof.
  induction a as [|c a IH]; cbn [append string_rev].
  - now rewrite append_nil_r.
  - now rewrite IH, append_assoc.
Qed.

Lemma prefix_append (p s : string) : String.prefix p (p ++ s) = true.
Proof.
  induction p as [|c p IH]; cbn [append String.prefix];
    [now destruct s|].
  destruct (Ascii.ascii_dec c c); [exact IH|contradiction].
Qed.

Lemma endswith_append (suffix s : string) : endswith suffix (s ++ suffix) = true.
Proof. unfold endswith. rewrite string_rev_append. apply prefix_append. Qed.

Lemma lower_append (a b : string) : lower (a ++ b) = lower a ++ lower b.
Proof.
  induction a as [|c a IH]; cbn [append lower]; [reflexivity|now rewrite IH].
Qed.

(** The names the prompts settle on. *)
Lemma csv_name (filename : string) :
  endswith ".csv"
    (if negb (endswith ".csv" filename) then filename ++ ".csv" else filename)
  = true.
Proof.
  destruct (endswith ".csv" filename) eqn:E; cbn [negb];
    [exact E|apply endswith_append].
Qed.

Lemma image_name (filename : string) :
  endswith_any image_suffixes
    (lower (if negb (endswith_any image_suffixes (lower filename))
            then filename ++ ".png" else filename))
  = true.
Proof.
  destruct (endswith_any image_suffixes (lower filename)) eqn:E; cbn [negb];
    [exact E|].
  rewrite lower_append. change (lower ".png") with ".png".
  unfold endswith_any, image_suffixes. cbn [existsb].
  now rewrite endswith_append.
Qed.

Lemma saving_refl (w : world) : saving w w.
Proof.
  unfold saving. repeat split; [apply suffix_of_refl|].
  exists []. split; [now rewrite app_nil_r|constructor].
Qed.

Lemma sp_bind {A B} (m : M A) (k : A -> M B) (w0 w : world) :
  wp m (saved_post w0) w ->
  (forall a w1, saving w0 w1 -> wp (k a) (saved_post w0) w1) ->
  wp (bind m k) (saved_post w0) w.
Proof.
  intros Hm Hk. apply wp_bind. eapply wp_conseq; [exact Hm|].
  intros o w1 [S H]. destruct o as [a|e|]; [now apply Hk| |]; now split.
Qed.

Lemma sp_ret {A} (a : A) (w0 w : world) :
  saving w0 w -> wp (ret a) (saved_post w0) w.
Proof. intros S. now split. Qed.

Lemma sp_print (s : string) (w0 w : world) :
  saving w0 w -> wp (print s) (saved_post w0) w.
Proof. intros S. apply wp_print. now split. Qed.

Lemma sp_input (p : string) (w0 w : world) :
  saving w0 w -> wp (input p) (saved_post w0) w.
Proof.
  intros (St & Sw & Sp & Ss & Se). apply wp_input.
  - intros E. split; [|exact E]. now repeat split.
  - intros l rest E. split; [|exact I]. repeat split; try assumption.
    cbn [stdin set_stdin]. eapply suffix_of_trans; [|exact Ss].
    rewrite E. apply suffix_of_cons.
Qed.

Lemma sp_write_file (path content : string) (w0 w : world) :
  saving w0 w ->
  endswith ".csv" path = true ->
  wp (write_file path content) (saved_post w0) w.
Proof.
  intros (St & Sw & Sp & Ss & saved & Se & Sn) Hn. apply wp_write_file.
  - intros _. split; [|exact I]. repeat split; try assumption.
    exists (saved ++ [WroteFile path])%list. cbn [effects add_effect set_file].
    rewrite Se, app_assoc. split; [reflexivity|].
    apply Forall_app. split; [exact Sn|]. now constructor.
  - intros Hw. split; [now repeat split; try assumption; exists saved|].
    exists path. now rewrite <- Sw.
Qed.

Lemma sp_savefig (f : figure) (path : string) (w0 w : world) :
  saving w0 w ->
  endswith_any image_suffixes (lower path) = true ->
  wp (savefig f path) (saved_post w0) w.
Proof.
  intros (St & Sw & Sp & Ss & saved & Se & Sn) Hn. apply wp_savefig.
  - intros _. split; [|exact I]. repeat split; try assumption.
    exists (saved ++ [SavedFigure path f])%list.
    cbn [effects add_effect set_file].
    rewrite Se, app_assoc. split; [reflexivity|].
    apply Forall_app. split; [exact Sn|]. now constructor.
  - intros Hw. split; [now repeat split; try assumption; exists saved|].
    exists path. now rewrite <- Sw.
Qed.

Lemma main_save_prompts_spec (df : dataframe) (charts_fig table_fig : figure)
    (w : world) :
  wp (main_save_prompts df charts_fig table_fig) (saved_post w) w.
Proof.
  unfold main_save_prompts.
  apply sp_bind; [apply sp_input, saving_refl|]. intros l w1 S1.
  apply sp_bind.
  - destruct (String.eqb (lower l) "y"); [|now apply sp_ret].
    apply sp_bind; [now apply sp_input|]. intros l2 w2 S2. cbv zeta.
    apply sp_bind; [apply sp_write_file; [exact S2|apply csv_name]|].
    intros _ w3 S3. now apply sp_print.
  - intros _ w2 S2.
    apply sp_bind; [now apply sp_input|]. intros l3 w3 S3.
    destruct (String.eqb (lower l3) "y"); [|now apply sp_ret].
    apply sp_bind; [now apply sp_input|]. intros l4 w4 S4. cbv zeta.
    apply sp_bind; [apply sp_savefig; [exact S4|apply image_name]|].
    intros _ w5 S5.
    apply sp_bind; [now apply sp_print|]. intros _ w6 S6.
    apply sp_bind; [now apply sp_input|]. intros l7 w7 S7.
    apply sp_bind; [apply sp_savefig; [exact S7|apply image_name]|].
    intros _ w8 S8. now apply sp_print.
Qed.

(** X14: whatever is answered to the save prompts, every file they write
    has the extension asked for: a CSV path ends in .csv, a figure path
    ends, in lower case, in .png, .jpg, .pdf or .svg.  The prompts end
    normally, with [EOFError] once the input is used up, or with the
    [OSError] of a path that is not writable; they never fail otherwise. *)
Theorem main_save_prompts_names (df : dataframe) (charts_fig table_fig : figure)
    (w : world) :
  exists o w' saved,
    main_save_prompts df charts_fig table_fig w = (o, w')
    /\ effects w' = (effects w ++ saved)%list
    /\ Forall well_named saved
    /\ match o with
       | Ret _ => True
       | Raise EOFError => stdin w' = []
       | Raise (OSError _) => exists p, writable w p = false
       | _ => False
       end.
Proof.
  pose proof (main_save_prompts_spec df charts_fig table_fig w) as H.
  unfold wp in H.
  destruct (main_save_prompts df charts_fig table_fig w) as [o w'].
  cbn [fst snd] in H. destruct H as [(_ & _ & _ & _ & saved & He & Hn) Ho].
  exists o, w', saved. repeat split; assumption.
Qed.

(* ================================================================== *)
(** * How a run ends *)
(* ================================================================== *)

(** X15: when the typed input ends at the save questions of an
    interactive run (at the first one, or at the second after the first
    was declined), [main] still ends normally: the handler of
    [EOFError] writes shoe_collection.csv and saves both figures under
    their default names, after the figures were rendered and shown. *)
Theorem main_eof_saves_defaults (shoes : list shoe) (w w2 : world) :
  main_collect (add_stdout banner w) = (Ret (Some shoes), w2) ->
  isatty w2 = true ->
  shoes <> [] ->
  plot_error w2 (create_dataframe shoes) = None ->
  List.length (stdin w2) <= 1 ->
  Forall (fun a => lower a <> "y") (stdin w2) ->
  Forall (fun p => writable w2 p = true)
         [csv_filename; "shoe_collection_charts.png";
          "shoe_collection_table.png"] ->
  exists w' charts table,
    main w = (Ret tt, w')
    /\ stdin w' = []
    /\ effects w'
       = (effects w2 ++ [Rendered charts; Rendered table; Shown]
          ++ default_artifacts charts table)%list
    /\ (exists text, fs w' csv_filename = Text text)
    /\ stdout w'
       = (stdout w2
          ++ analyzing_message :: csv_question
             :: map (fun _ => figures_question) (stdin w2)
          ++ [input_error_message; "Data saved to 'shoe_collection.csv'";
              "Figures saved with default filenames."; thanks_message])%list.
Proof.
  intros E Htty Hs Hplot Hlen Hno Hw.
  inversion Hw as [|? ? Hw1 Hw']; subst.
  inversion Hw' as [|? ? Hw2 Hw'']; subst.
  inversion Hw'' as [|? ? Hw3 _]; subst.
  set (df := create_dataframe shoes) in *.
  assert (Hdf : df <> []) by now apply create_dataframe_rows.
  exists (snd (main w)), (ChartsFig (brand_usage_top8 df)), (TableFig df).
  cut (exists w', main w = (Ret tt, w')
         /\ stdin w' = []
         /\ effects w'
            = (effects w2
               ++ [Rendered (ChartsFig (brand_usage_top8 df));
                   Rendered (TableFig df); Shown]
               ++ default_artifacts (ChartsFig (brand_usage_top8 df))
                                    (TableFig df))%list
         /\ (exists text, fs w' csv_filename = Text text)
         /\ stdout w'
            = (stdout w2
               ++ analyzing_message :: csv_question
                  :: map (fun _ => figures_question) (stdin w2)
               ++ [input_error_message; "Data saved to 'shoe_collection.csv'";
                   "Figures saved with default filenames.";
                   thanks_message])%list).
  { intros (w' & Em & H). rewrite Em. cbn [snd]. split; [reflexivity|exact H]. }
  apply wp_exists. unfold main. apply wp_bind, wp_print.
  apply wp_bind. eapply wp_eq; [exact E|]. cbv zeta. fold df.
  apply wp_bind, wp_bind, wp_isatty, wp_ret. rewrite Htty. cbn [negb].
  apply wp_bind, wp_print. apply wp_bind.
  eapply wp_eq; [apply (analyze_shoes_rows df false _ Hdf); exact Hplot|].
  apply wp_bind, wp_ret. apply wp_bind, wp_bind, wp_isatty, wp_ret.
  replace (isatty (analyzed df false _)) with true by (now rewrite <- Htty).
  cbn [negb]. apply wp_bind, wp_try. unfold main_save_prompts.
  destruct (stdin w2) as [|a [|b rest]] eqn:Ein; [| |simpl in Hlen; lia].
  - apply wp_bind, wp_input;
      cbn [stdin analyzed add_effect add_stdout]; rewrite Ein;
      [intros _|discriminate].
    apply wp_bind, wp_print.
    apply wp_bind, wp_write_file; [intros _|cbn; fold csv_filename; congruence].
    apply wp_bind, wp_print.
    apply wp_bind, wp_savefig; [intros _|cbn; congruence].
    apply wp_bind, wp_savefig; [intros _|cbn; congruence].
    apply wp_print. apply wp_print. cbn.
    split; [reflexivity|]. split; [exact Ein|].
    split; [now rewrite <- !app_assoc|].
    split; [now eexists|now rewrite <- !app_assoc].
  - inversion Hno as [|? ? Ha _]; subst.
    apply wp_bind, wp_input;
      cbn [stdin analyzed add_effect add_stdout]; rewrite Ein;
      [discriminate|]. intros l rest' [= <- <-]. cbv zeta.
    destruct (String.eqb_spec (lower a) "y") as [H|_]; [contradiction|].
    apply wp_bind, wp_ret.
    apply wp_bind, wp_input; cbn [stdin set_stdin add_stdout];
      [intros _|discriminate].
    apply wp_bind, wp_print.
    apply wp_bind, wp_write_file; [intros _|cbn; fold csv_filename; congruence].
    apply wp_bind, wp_print.
    apply wp_bind, wp_savefig; [intros _|cbn; congruence].
    apply wp_bind, wp_savefig; [intros _|cbn; congruence].
    apply wp_print. apply wp_print. cbn.
    split; [reflexivity|]. split; [reflexivity|].
    split; [now rewrite <- !app_assoc|].
    split; [now eexists|now rewrite <- !app_assoc].
Qed.

Lemma main_eof_saves_defaults_witness :
  main_collect (add_stdout banner one_shoe_session)
  = (Ret (Some one_shoe), one_shoe_collected)
  /\ stdin one_shoe_collected = ["no"]
  /\ exists w' charts table,
       main one_shoe_session = (Ret tt, w')
       /\ stdin w' = []
       /\ effects w'
          = [Rendered charts; Rendered table; Shown;
             WroteFile "shoe_collection.csv";
             SavedFigure "shoe_collection_charts.png" charts;
             SavedFigure "shoe_collection_table.png" table]
       /\ (exists text, fs w' "shoe_collection.csv" = Text text)
       /\ stdout w'
          = (one_shoe_dialogue
             ++ [String LF "Analyzing your shoe collection...";
                 String LF "Would you like to save your shoe data to a CSV file? (y/n): ";
                 String LF "Would you like to save the visualization figures? (y/n): ";
                 String LF "Input error detected. Saving data with default filenames.";
                 "Data saved to 'shoe_collection.csv'";
                 "Figures saved with default filenames.";
                 "Thank you for using the Shoe Collection Analyzer!"])%list.
Proof.
  split; [vm_compute; reflexivity|]. split; [vm_compute; reflexivity|].
  apply (main_eof_saves_defaults one_shoe one_shoe_session one_shoe_collected).
  - vm_compute. reflexivity.
  - reflexivity.
  - discriminate.
  - reflexivity.
  - vm_compute. lia.
  - vm_compute. constructor; [discriminate|constructor].
  - repeat constructor.
Defined.
























(** X17: an interactive run that has records, whose frame the plotting
    libraries draw, and that is answered with something other than y or
    Y at both save questions renders the two figures, shows them and
    ends normally without writing anything: two lines are read, no file
    changes. *)
Theorem main_declines_saving (shoes : list shoe) (a1 a2 : string)
    (rest : list string) (w w2 : world) :
  main_collect (add_stdout banner w) = (Ret (Some shoes), w2) ->
  isatty w2 = true ->
  shoes <> [] ->
  plot_error w2 (create_dataframe shoes) = None ->
  stdin w2 = a1 :: a2 :: rest ->
  lower a1 <> "y" ->
  lower a2 <> "y" ->
  exists w' charts table,
    main w = (Ret tt, w')
    /\ stdin w' = rest
    /\ fs w' = fs w2
    /\ effects w' = (effects w2 ++ [Rendered charts; Rendered table; Shown])%list.
Proof.
  intros E Htty Hs Hplot Hin H1 H2.
  set (df := create_dataframe shoes) in *.
  assert (Hdf : df <> []) by now apply create_dataframe_rows.
  exists (snd (main w)), (ChartsFig (brand_usage_top8 df)), (TableFig df).
  cut (exists w', main w = (Ret tt, w')
         /\ stdin w' = rest
         /\ fs w' = fs w2
         /\ effects w'
            = (effects w2
               ++ [Rendered (ChartsFig (brand_usage_top8 df));
                   Rendered (TableFig df); Shown])%list).
  { intros (w' & Em & H). rewrite Em. cbn [snd]. split; [reflexivity|exact H]. }
  apply wp_exists. unfold main. apply wp_bind, wp_print.
  apply wp_bind. eapply wp_eq; [exact E|]. cbv zeta. fold df.
  apply wp_bind, wp_bind, wp_isatty, wp_ret. rewrite Htty. cbn [negb].
  apply wp_bind, wp_print. apply wp_bind.
  eapply wp_eq; [apply (analyze_shoes_rows df false _ Hdf); exact Hplot|].
  apply wp_bind, wp_ret. apply wp_bind, wp_bind, wp_isatty, wp_ret.
  replace (isatty (analyzed df false _)) with true by (now rewrite <- Htty).
  cbn [negb]. apply wp_bind, wp_try. unfold main_save_prompts.
  apply wp_bind, wp_input;
    cbn [stdin analyzed add_effect add_stdout]; rewrite Hin; [discriminate|].
  intros l rest' [= <- <-]. cbv zeta.
  destruct (String.eqb_spec (lower a1) "y") as [H|_]; [contradiction|].
  apply wp_bind, wp_ret.
  apply wp_bind, wp_input; cbn [stdin set_stdin add_stdout];
    [discriminate|].
  intros l rest' [= <- <-]. cbv zeta.
  destruct (String.eqb_spec (lower a2) "y") as [H|_]; [contradiction|].
  apply wp_ret. apply wp_print. cbn.
  split; [reflexivity|]. split; [reflexivity|]. split; [reflexivity|].
  now rewrite <- !app_assoc.
Qed.

Lemma main_declines_saving_witness :
  main_collect (add_stdout banner declining_session)
  = (Ret (Some one_shoe), declining_collected)
  /\ stdin declining_collected = ["n"; "N"]
  /\ exists w' charts table,
       main declining_session = (Ret tt, w')
       /\ stdin w' = []
       /\ fs w' = fs declining_session
       /\ effects w' = [Rendered charts; Rendered table; Shown].
Proof.
  split; [vm_compute; reflexivity|]. split; [vm_compute; reflexivity|].
  apply (main_declines_saving one_shoe "n" "N" [] declining_session
           declining_collected).
  - vm_compute. reflexivity.
  - reflexivity.
  - discriminate.
  - reflexivity.
  - vm_compute. reflexivity.
  - discriminate.
  - discriminate.
Defined.

(** X18: on a terminal, choice 1 with a count that [int] reads as zero or
    negative ends the run in a [TypeError]: the message about the empty
    collection is printed, two lines were read, nothing is rendered and
    no file is written. *)
Theorem main_no_shoes_fails (l c : string) (n : Z) (rest : list string)
    (w : world) :
  isatty w = true ->
  stdin w = l :: c :: rest ->
  strip l = "1" ->
  int_of_string c = Some n ->
  (n <= 0)%Z ->
  main w
  = (Raise (TypeError "cannot unpack non-iterable NoneType object"),
     after rest
       (banner :: menu_messages
        ++ [count_prompt; analyzing_message;
            "No shoe data available for analysis."]) w).
Proof.
  intros Htty E Hl Hc Hn. apply wp_run. unfold main.
  apply wp_bind, wp_print. apply wp_bind. unfold main_collect.
  apply wp_bind, wp_isatty. cbn [isatty add_stdout]. rewrite Htty. cbn [negb].
  do 5 apply wp_bind, wp_print.
  apply wp_bind, wp_input; cbn [stdin add_stdout]; rewrite E;
    [discriminate|]. intros l' rest' [= <- <-].
  rewrite Hl. cbn [String.eqb Ascii.eqb Bool.eqb andb].
  apply wp_bind.
  match goal with
  | |- wp get_shoe_data _ ?W =>
      assert (G : get_shoe_data W = (Ret [], after rest [count_prompt] W))
  end.
  { match goal with
    | |- get_shoe_data ?W = _ =>
        unfold get_shoe_data;
        rewrite (get_shoe_data_rec_count _ c n rest W eq_refl Hc)
    end.
    unfold range. replace (Z.to_nat (n + 1 - 1)) with 0 by lia. reflexivity. }
  eapply wp_eq; [exact G|]. apply wp_ret. cbv zeta.
  apply wp_bind, wp_bind, wp_isatty, wp_ret.
  apply wp_bind, wp_print. apply wp_bind.
  eapply wp_eq; [apply analyze_shoes_empty|].
  apply wp_bind, wp_raise. f_equal.
  apply after_eq; cbn; try reflexivity. now rewrite <- !app_assoc.
Qed.

Lemma main_no_shoes_fails_witness :
  main (terminal [" 1"; "-2"; "y"])
  = (Raise (TypeError "cannot unpack non-iterable NoneType object"),
     after ["y"]
       (banner :: menu_messages
        ++ [count_prompt; analyzing_message;
            "No shoe data available for analysis."])
       (terminal [" 1"; "-2"; "y"])).
Proof.
  apply (main_no_shoes_fails " 1" "-2" (-2) ["y"] (terminal [" 1"; "-2"; "y"]));
    [reflexivity|reflexivity|reflexivity|reflexivity|lia].
Defined.
